(** * reddit-crawler: frontier collection, comment trees and the resumable
      fetch loop

    A shallow embedding of the collection pipeline of the repository:

    - [crawler.py]: the per-source quota partition of [collect_post_urls]
      and the browser-driven, deduplicating [_collect_from_single_source];
    - [stage1_collect_urls.py] and [v3/stage1_collect_urls.py]: the
      paginated listing collector with its seen-id set and its stall
      heuristic, which is where the two differ;
    - [stage2_crawl_posts.py]: the nested comment parser and its filter;
    - [stage2_crawl_posts_pullpush.py]: the comment filter, the flat-list
      tree builder, the index-keyed progress computation and the fetch
      loop with its consecutive-failure breaker.

    Python values are modelled as follows.  A [str] is a [string] of
    bytes (UTF-8), and [str.lower] folds the ASCII letters, which finds
    the same occurrences of the ASCII phrases that the code looks for.
    A [dict] is an association list in insertion order ([PyDict]); a
    [set] of ids is a [gset string]; the SQLite table keyed by
    [post_id] is a [gmap string row].  Floats are the kernel's
    binary64 numbers.  The network and the browser are scripts: lists
    (or functions) of the answers the collaborator gives, consumed in
    order.  Objects that the
    code mutates after sharing them (the comment nodes of
    [_build_comment_tree]) live in an explicit store and are referred to
    by key.  JSON payloads are typed: a field holds a value of its
    type, a null, or is absent.  The SQLite file is taken to open and
    its transactions to commit, while a single [INSERT] may fail; the
    depth of Python's call stack is taken to be unbounded. *)

From Stdlib Require Import ZArith Floats String Ascii List Permutation Sorted.
From stdpp Require Import gmap strings list.

Set Warnings "-inexact-float,-register-all,-clear-no-such-hyp".

#[local] Open Scope Z_scope.

(* ===================================================================== *)
(** * Python strings                                                       *)
(* ===================================================================== *)

Module PyStr.

(** [s.startswith(p)] *)
Definition startswith (s p : string) : bool := String.prefix p s.

(** [needle in hay] *)
Fixpoint contains (needle hay : string) : bool :=
  String.prefix needle hay ||
  match hay with
  | EmptyString => false
  | String _ t => contains needle t
  end.

(** [s[n:]] *)
Fixpoint drop (n : nat) (s : string) : string :=
  match n, s with
  | O, _ => s
  | S n', String _ t => drop n' t
  | S _, EmptyString => EmptyString
  end.

Definition lower_ascii (c : ascii) : ascii :=
  let n := nat_of_ascii c in
  if (65 <=? n)%nat && (n <=? 90)%nat then ascii_of_nat (n + 32) else c.

(** [s.lower()] *)
Fixpoint lower (s : string) : string :=
  match s with
  | EmptyString => EmptyString
  | String c t => String (lower_ascii c) (lower t)
  end.

(** truthiness of a string: [bool(s)] *)
Definition truthy (s : string) : bool :=
  match s with EmptyString => false | _ => true end.

(** [sorted(keys)]: an insertion sort on the byte-wise lexicographic
    order; on distinct keys every sort yields the same list. *)
Fixpoint insert_sorted (k : string) (l : list string) : list string :=
  match l with
  | [] => [k]
  | h :: t => if String.leb k h then k :: h :: t else h :: insert_sorted k t
  end.

Fixpoint sorted (l : list string) : list string :=
  match l with
  | [] => []
  | h :: t => insert_sorted h (sorted t)
  end.

End PyStr.

(* ===================================================================== *)
(** * Insertion-ordered dictionaries                                       *)
(* ===================================================================== *)

Module PyDict.

Section Dict.
Context {V : Type}.

(** [d.get(k)] *)
Fixpoint get (k : string) (d : list (string * V)) : option V :=
  match d with
  | [] => None
  | (k', v) :: t => if String.eqb k' k then Some v else get k t
  end.

(** [d[k] = v]: an existing key keeps its position, a new key goes last. *)
Fixpoint set (k : string) (v : V) (d : list (string * V)) : list (string * V) :=
  match d with
  | [] => [(k, v)]
  | (k', v') :: t =>
      if String.eqb k' k then (k, v) :: t else (k', v') :: set k v t
  end.

(** [k in d] *)
Definition mem (k : string) (d : list (string * V)) : bool :=
  match get k d with Some _ => true | None => false end.

Definition keys (d : list (string * V)) : list string := map fst d.
Definition values (d : list (string * V)) : list V := map snd d.

End Dict.

End PyDict.

(* ===================================================================== *)
(** * JSON objects                                                         *)
(* ===================================================================== *)

(** A field of a JSON object: the key is absent, or it holds a null, or
    it holds a value. *)
Inductive jfield (A : Type) : Type :=
| Missing
| Null
| Val (a : A).
Arguments Missing {A}.
Arguments Null {A}.
Arguments Val {A} a.

(** [obj.get(key, default)]; a null is Python's [None]. *)
Definition jget {A} (f : jfield A) (default : A) : option A :=
  match f with
  | Missing => Some default
  | Null => None
  | Val a => Some a
  end.

(** [obj.get(key)] *)
Definition jget_none {A} (f : jfield A) : option A :=
  match f with
  | Val a => Some a
  | _ => None
  end.

(* ===================================================================== *)
(** * Identity utilities                                                   *)
(* ===================================================================== *)

Module Identity.

Definition is_alnum (c : ascii) : bool :=
  let n := nat_of_ascii c in
  ((48 <=? n) && (n <=? 57) || (65 <=? n) && (n <=? 90)
   || (97 <=? n) && (n <=? 122))%nat.

(** The longest prefix matching [[a-zA-Z0-9]*], and what follows it. *)
Fixpoint span_alnum (s : string) : string * string :=
  match s with
  | EmptyString => (EmptyString, EmptyString)
  | String c t =>
      if is_alnum c
      then let '(a, r) := span_alnum t in (String c a, r)
      else (EmptyString, s)
  end.

(** A match of [/comments/([a-zA-Z0-9]+)/] anchored at the head of [s].
    The class excludes ['/'], so the greedy run is the only candidate. *)
Definition match_here (s : string) : option string :=
  if String.prefix "/comments/" s then
    let '(pid, rest) := span_alnum (PyStr.drop 10 s) in
    if PyStr.truthy pid && String.prefix "/" rest then Some pid else None
  else None.

(** [re.search(r'/comments/([a-zA-Z0-9]+)/', url)], group 1 of the
    leftmost match; [None] when nothing matches. *)
Fixpoint extract_post_id (url : string) : option string :=
  match match_here url with
  | Some pid => Some pid
  | None =>
      match url with
      | EmptyString => None
      | String _ t => extract_post_id t
      end
  end.

End Identity.

(* ===================================================================== *)
(** * crawler.py: quota partition                                          *)
(* ===================================================================== *)

Module Quota.

(** [float(n)] for a Python [int]: the nearest binary64 number;
    [OverflowError] ([None]) beyond the range. *)
Definition py_float_of_int (n : Z) : option float :=
  let f := SF2Prim (binary_normalize prec emax n 0 false) in
  if is_infinity f then None else Some f.

(** [int(x)]: truncation toward zero; raises ([None]) on an infinity
    or a NaN. *)
Definition py_int (x : float) : option Z :=
  match Prim2SF x with
  | S754_zero _ => Some 0
  | S754_finite s m e =>
      let a := if 0 <=? e then Zpos m * 2 ^ e else Zpos m / 2 ^ (- e) in
      Some (if s then - a else a)
  | S754_infinity _ => None
  | S754_nan => None
  end.

(** [int(self.max_posts * ratio)] *)
Definition quota (max_posts : Z) (ratio : float) : option Z :=
  f ← py_float_of_int max_posts;
  py_int (f * ratio)%float.

(** The body of the [for i, source_type in enumerate(sorted_types)] loop
    of [collect_post_urls]; the one-element case is [i == len - 1]. *)
Fixpoint partition_loop (max_posts : Z) (sampling_ratios : list (string * float))
    (sorted_types : list string) (remaining_count : Z)
    (sampling_counts : list (string * Z)) : option (list (string * Z)) :=
  match sorted_types with
  | [] => Some sampling_counts
  | [source_type] =>
      Some (PyDict.set source_type remaining_count sampling_counts)
  | source_type :: rest =>
      ratio ← PyDict.get source_type sampling_ratios;
      count ← quota max_posts ratio;
      partition_loop max_posts sampling_ratios rest (remaining_count - count)
        (PyDict.set source_type count sampling_counts)
  end.

(** Lines 386-398 of [crawler.py]: [sampling_counts] as it stands after
    the loop.  [None] when an arithmetic exception escapes. *)
Definition sampling_counts (max_posts : Z)
    (sampling_ratios : list (string * float)) : option (list (string * Z)) :=
  partition_loop max_posts sampling_ratios
    (PyStr.sorted (PyDict.keys sampling_ratios)) max_posts [].

(** [sum(d.values())] over integers *)
Definition total (d : list (string * Z)) : Z :=
  fold_right Z.add 0 (PyDict.values d).

(** [sum(self.sampling_ratios.values())]: a left fold from the integer 0. *)
Definition ratio_sum (sampling_ratios : list (string * float)) : float :=
  fold_left PrimFloat.add (PyDict.values sampling_ratios) 0%float.

(** The constructor's check [abs(total_ratio - 1.0) > 0.01]. *)
Definition needs_normalizing (sampling_ratios : list (string * float)) : bool :=
  (0.01 <? abs (ratio_sum sampling_ratios - 1))%float.

(** [x / y] on floats; [ZeroDivisionError] is [None]. *)
Definition py_div (x y : float) : option float :=
  if (y =? 0)%float then None else Some (x / y)%float.

(** [for key in self.sampling_ratios: self.sampling_ratios[key] /= total] *)
Fixpoint normalize (total_ratio : float) (d : list (string * float))
    : option (list (string * float)) :=
  match d with
  | [] => Some []
  | (k, r) :: t =>
      r' ← py_div r total_ratio;
      t' ← normalize total_ratio t;
      Some ((k, r') :: t')
  end.

Definition default_ratios : list (string * float) :=
  [("new"%string, 0.65%float); ("top_year"%string, 0.25%float);
   ("best"%string, 0.10%float)].

(** [RedditCrawler.__init__], the part that sets [self.sampling_ratios]:
    an absent or empty argument takes the defaults. *)
Definition init_sampling_ratios (arg : option (list (string * float)))
    : option (list (string * float)) :=
  let d := match arg with
           | None | Some [] => default_ratios
           | Some d => d
           end in
  if needs_normalizing d then normalize (ratio_sum d) d else Some d.

End Quota.

(* ===================================================================== *)
(** * Outcomes of scripted runs                                            *)
(* ===================================================================== *)

(** A collector is run against a script of the answers its collaborator
    gives.  It has [Returned] when the code reaches a [return]; it is
    [Waiting], in the state it has reached, when the script ends while
    the loop would issue one more request; it has [Raised] when an
    exception leaves the function. *)
Inductive outcome (A S : Type) : Type :=
| Returned (result : A) (final : S)
| Waiting (now : S)
| Raised (final : S).
Arguments Returned {A S} result final.
Arguments Waiting {A S} now.
Arguments Raised {A S} final.

(** [l[:n]] for a Python [int] [n] *)
Definition py_take {A} (n : Z) (l : list A) : list A :=
  if 0 <=? n then take (Z.to_nat n) l
  else take (length l - Z.to_nat (- n)) l.

(** [len(l)] *)
Definition len {A} (l : list A) : Z := Z.of_nat (length l).

(* ===================================================================== *)
(** * crawler.py: the browser-driven frontier collector                    *)
(* ===================================================================== *)

Module Browser.

(** [{"url": href, "source": source_type}] *)
Record entry := Entry { url : string; source : string }.

(** What one [<a>] element answers to [get_attribute("href")]. *)
Inductive link :=
| Href (href : option string)
| LinkError.

(** What the page does in one turn of the [while] loop. *)
Inductive round :=
| Shown (links : list link) (scroll_ok : bool)
    (** the query succeeds; the scroll and the wait after it may raise *)
| QueryError
    (** [query_selector_all] raises: caught inside the loop *)
| Crash.
    (** an exception outside the inner [try]: caught by the outer one *)

Record session := Session { goto_ok : bool; rounds : list round }.

Record scan_state := ScanState {
  collected_urls : list entry;
  seen_post_ids : gset string;
  new_found_count : Z
}.

(** The [for link in links] loop; stopping early is the [break]. *)
Fixpoint scan_links (source_type : string) (target_count : Z)
    (links : list link) (st : scan_state) : scan_state :=
  match links with
  | [] => st
  | LinkError :: rest => scan_links source_type target_count rest st
  | Href None :: rest => scan_links source_type target_count rest st
  | Href (Some href) :: rest =>
      if PyStr.truthy href && negb (PyStr.contains "/user/" href) then
        let href :=
          if PyStr.startswith href "/"
          then ("https://www.reddit.com" ++ href)%string else href in
        match Identity.extract_post_id href with
        | Some post_id =>
            if PyStr.truthy post_id
               && negb (bool_decide (post_id ∈ seen_post_ids st)) then
              let st' :=
                {| collected_urls :=
                     collected_urls st ++ [Entry href source_type];
                   seen_post_ids := {[post_id]} ∪ seen_post_ids st;
                   new_found_count := new_found_count st + 1 |} in
              if target_count <=? len (collected_urls st') then st'
              else scan_links source_type target_count rest st'
            else scan_links source_type target_count rest st
        | None => scan_links source_type target_count rest st
        end
      else scan_links source_type target_count rest st
  end.

(** The [while len(collected_urls) < target_count and no_new_data_count < 3]
    loop of [_collect_from_single_source]. *)
Fixpoint collect_loop (source_type : string) (target_count : Z)
    (rs : list round) (collected : list entry) (seen : gset string)
    (no_new_data_count : Z)
    : outcome (list entry) (list entry * gset string) :=
  if (len collected <? target_count) && (no_new_data_count <? 3) then
    match rs with
    | [] => Waiting (collected, seen)
    | Crash :: _ => Returned collected (collected, seen)
    | QueryError :: rs' =>
        collect_loop source_type target_count rs' collected seen
          (no_new_data_count + 1)
    | Shown links scroll_ok :: rs' =>
        let st := scan_links source_type target_count links
                    (ScanState collected seen 0) in
        let no_new :=
          if new_found_count st =? 0 then no_new_data_count + 1 else 0 in
        if target_count <=? len (collected_urls st) then
          Returned (py_take target_count (collected_urls st))
            (collected_urls st, seen_post_ids st)
        else
          collect_loop source_type target_count rs' (collected_urls st)
            (seen_post_ids st) (if scroll_ok then no_new else no_new + 1)
    end
  else Returned (py_take target_count collected) (collected, seen).

(** [_collect_from_single_source]; [seen_post_ids] is the caller's set,
    mutated in place, so every outcome carries it. *)
Definition collect_from_single_source (s : session) (source_type : string)
    (target_count : Z) (seen : gset string)
    : outcome (list entry) (list entry * gset string) :=
  if goto_ok s then collect_loop source_type target_count (rounds s) [] seen 0
  else Returned [] ([], seen).

Definition source_url_mapping : list (string * string) :=
  [("new", "/new/"); ("top_year", "/top/?t=year"); ("best", "/best/");
   ("hot", "/hot/"); ("rising", "/rising/")]%string.

(** [sampling_configs]: the known source types with a positive count. *)
Fixpoint sampling_configs (sampling_counts : list (string * Z))
    : list (string * string * Z) :=
  match sampling_counts with
  | [] => []
  | (source_type, count) :: rest =>
      match PyDict.get source_type source_url_mapping with
      | Some url_suffix =>
          if 0 <? count
          then (source_type, url_suffix, count) :: sampling_configs rest
          else sampling_configs rest
      | None => sampling_configs rest
      end
  end.

(** The [for source_type, url_suffix, target_count in sampling_configs]
    loop.  The page visited for a source is determined by its type, so
    the browser is a family of sessions indexed by source type. *)
Fixpoint collect_sources (browser : string → session)
    (configs : list (string * string * Z))
    (collected_urls_with_source : list entry) (seen : gset string)
    : outcome (list entry) (list entry * gset string) :=
  match configs with
  | [] => Returned collected_urls_with_source (collected_urls_with_source, seen)
  | (source_type, _, target_count) :: rest =>
      if target_count <=? 0 then
        collect_sources browser rest collected_urls_with_source seen
      else
        match collect_from_single_source (browser source_type) source_type
                target_count seen with
        | Returned from_source (_, seen') =>
            collect_sources browser rest
              (collected_urls_with_source ++ from_source) seen'
        | Waiting (partial, seen') =>
            Waiting (collected_urls_with_source ++ partial, seen')
        | Raised (partial, seen') =>
            Raised (collected_urls_with_source ++ partial, seen')
        end
  end.

(** [count / self.max_posts] on integers returns: the divisor is not 0
    ([ZeroDivisionError]) and the correctly rounded quotient is a finite
    float ([OverflowError]). *)
Definition py_true_div_ok (a b : Z) : bool :=
  negb (b =? 0) && (Z.abs a <? (2 ^ 1024 - 2 ^ 970) * Z.abs b).

(** The loop that logs the sampling plan divides every count by
    [self.max_posts]. *)
Definition plan_ok (max_posts : Z) (sampling_counts : list (string * Z)) : bool :=
  forallb (λ count, py_true_div_ok count max_posts) (PyDict.values sampling_counts).

(** [RedditCrawler.collect_post_urls] *)
Definition collect_post_urls (max_posts : Z)
    (sampling_ratios : list (string * float)) (browser : string → session)
    (target_url : string)
    : outcome (list entry) (list entry * gset string) :=
  if PyStr.contains "/comments/" target_url then
    Returned [Entry target_url "single_post"]
      ([Entry target_url "single_post"], ∅)
  else
    match Quota.sampling_counts max_posts sampling_ratios with
    | None => Raised ([], ∅)
    | Some counts =>
        if plan_ok max_posts counts
        then collect_sources browser (sampling_configs counts) [] ∅
        else Raised ([], ∅)
    end.

(** The ItemID an entry's reference derives. *)
Definition entry_id (e : entry) : option string :=
  Identity.extract_post_id (url e).

End Browser.

(* ===================================================================== *)
(** * stage1_collect_urls.py and v3: the listing-API frontier collector    *)
(* ===================================================================== *)

Module Api.

(** One submission of a listing page.  A field read with [post.get] is
    [None] when the key is absent or null; [created_utc] is also read
    with [post["created_utc"]], which tells the two apart. *)
Record post := Post {
  id : option string;
  permalink : option string;
  created_utc : jfield Z;
  author : option string;
  removed_by_category : option string;
  selftext : option string
}.

(** [{"url": post_url, "created_utc": created_utc}]; the single-item
    frontier has no [created_utc]. *)
Record entry := Entry { url : string; entry_created_utc : option Z }.

Definition truthy_str (s : option string) : bool :=
  match s with Some s => PyStr.truthy s | None => false end.

Definition truthy_num (n : option Z) : bool :=
  match n with Some n => negb (n =? 0) | None => false end.

Definition is_sentinel (s : option string) : bool :=
  match s with
  | Some s => String.eqb s "[deleted]" || String.eqb s "[removed]"
  | None => false
  end.

(** [_is_deleted_post] *)
Definition is_deleted_post (p : post) : bool :=
  if is_sentinel (author p) then true
  else if truthy_str (removed_by_category p) then true
  else if is_sentinel (selftext p) then true
  else false.

Record page_state := PageState {
  collected_urls : list entry;
  collected_post_ids : gset string;
  new_count : Z;
  duplicate_count : Z;
  deleted_count : Z
}.

(** [_process_api_response]: the list and the set are the caller's
    objects, updated in place; the three counters are returned. *)
Fixpoint process_api_response (new_posts : list post) (max_posts : Z)
    (st : page_state) : page_state :=
  match new_posts with
  | [] => st
  | p :: rest =>
      if max_posts <=? len (collected_urls st) then st
      else
        match id p, permalink p, jget_none (created_utc p) with
        | Some post_id, Some pl, Some cu =>
            if PyStr.truthy post_id && PyStr.truthy pl && negb (cu =? 0) then
              if bool_decide (post_id ∈ collected_post_ids st) then
                process_api_response rest max_posts
                  {| collected_urls := collected_urls st;
                     collected_post_ids := collected_post_ids st;
                     new_count := new_count st;
                     duplicate_count := duplicate_count st + 1;
                     deleted_count := deleted_count st |}
              else if is_deleted_post p then
                process_api_response rest max_posts
                  {| collected_urls := collected_urls st;
                     collected_post_ids := {[post_id]} ∪ collected_post_ids st;
                     new_count := new_count st;
                     duplicate_count := duplicate_count st;
                     deleted_count := deleted_count st + 1 |}
              else
                process_api_response rest max_posts
                  {| collected_urls :=
                       collected_urls st
                       ++ [Entry ("https://www.reddit.com" ++ pl)%string (Some cu)];
                     collected_post_ids := {[post_id]} ∪ collected_post_ids st;
                     new_count := new_count st + 1;
                     duplicate_count := duplicate_count st;
                     deleted_count := deleted_count st |}
            else process_api_response rest max_posts st
        | _, _, _ => process_api_response rest max_posts st
        end
  end.

(** What one request to the listing endpoint yields. *)
Inductive response :=
| HttpError                  (** [status_code != 200] *)
| RequestError               (** a timeout, a [RequestException], bad JSON *)
| OtherError                 (** any other [Exception] of the request *)
| Page (new_posts : list post) (** status 200 with [data = new_posts] *)
| Interrupt.                 (** [KeyboardInterrupt] *)

(** [url_collection_progress] as [save_url_collection_progress] writes it. *)
Record progress := Progress {
  saved_urls : list entry;
  saved_post_ids : list string;
  saved_before : option Z;
  saved_complete : bool
}.

Record state := State {
  urls : list entry;
  post_ids : gset string;
  before : option Z;
  consecutive_errors : Z;
  consecutive_zero_new : Z;
  last_save_count : Z;
  state_file : option progress
}.

(** The ItemID an entry's reference derives. *)
Definition entry_id (e : entry) : option string :=
  Identity.extract_post_id (url e).

(** The two listing collectors, [stage1_collect_urls.py] and
    [v3/stage1_collect_urls.py], run the same loop and differ in two
    places: the test that makes a page count as having brought nothing
    new, and the ids that go into the progress file. *)
Record variant := Variant {
  zero_new : page_state → bool;
  ids_to_save : list entry → gset string → list string
}.

(** [stage1_collect_urls.py]: [if new_count == 0]. *)
Definition zero_new_stage1 (ps : page_state) : bool := new_count ps =? 0.

(** [v3/stage1_collect_urls.py]: [if new_count == 0 and deleted_count == 0]. *)
Definition zero_new_v3 (ps : page_state) : bool :=
  (new_count ps =? 0) && (deleted_count ps =? 0).

(** [stage1_collect_urls.py] saves the ids it extracts from the urls
    collected. *)
Definition stage1 : variant :=
  Variant zero_new_stage1 (λ collected_urls _, omap entry_id collected_urls).

(** [v3/stage1_collect_urls.py] saves [list(scanned_post_ids)]. *)
Definition v3 : variant :=
  Variant zero_new_v3 (λ _ scanned_post_ids, elements scanned_post_ids).

(** [save_url_collection_progress] ([save_progress] in [v3]) *)
Definition save_url_collection_progress (v : variant) (st : state)
    (max_posts : Z) : state :=
  {| urls := urls st; post_ids := post_ids st; before := before st;
     consecutive_errors := consecutive_errors st;
     consecutive_zero_new := consecutive_zero_new st;
     last_save_count := last_save_count st;
     state_file :=
       Some {| saved_urls := urls st;
               saved_post_ids := ids_to_save v (urls st) (post_ids st);
               saved_before := before st;
               saved_complete := max_posts <=? len (urls st) |} |}.

Definition with_errors (st : state) (n : Z) : state :=
  {| urls := urls st; post_ids := post_ids st; before := before st;
     consecutive_errors := n;
     consecutive_zero_new := consecutive_zero_new st;
     last_save_count := last_save_count st; state_file := state_file st |}.

(** [if new_posts: before = new_posts[-1]["created_utc"]]: the new
    value of [before]; [None] when the subscript raises [KeyError]. *)
Definition next_before (before : option Z) (new_posts : list post)
    : option (option Z) :=
  match last new_posts with
  | None => Some before
  | Some p =>
      match created_utc p with
      | Missing => None
      | Null => Some None
      | Val cu => Some (Some cu)
      end
  end.
Arguments next_before : simpl never.

(** The statements after the loop: the final save and the slice. *)
Definition finish (v : variant) (max_posts : Z) (st : state)
    : outcome (list entry) state :=
  let st' :=
    if negb (len (urls st) =? last_save_count st)
       || (max_posts <=? len (urls st))
    then save_url_collection_progress v st max_posts else st in
  Returned (py_take max_posts (urls st')) st'.

(** The [while len(collected_urls) < self.max_posts] loop of
    [collect_post_urls], one response per turn. *)
Fixpoint collect_loop (v : variant) (max_posts : Z)
    (script : list response) (st : state) : outcome (list entry) state :=
  if len (urls st) <? max_posts then
    match script with
    | [] => Waiting st
    | Interrupt :: _ => Raised (save_url_collection_progress v st max_posts)
    | HttpError :: script' =>
        let st' := with_errors st (consecutive_errors st + 1) in
        if 3 <=? consecutive_errors st' then finish v max_posts st'
        else collect_loop v max_posts script' st'
    | RequestError :: script' =>
        let st' := with_errors st (consecutive_errors st + 1) in
        if 5 <=? consecutive_errors st' then finish v max_posts st'
        else collect_loop v max_posts script' st'
    | OtherError :: script' =>
        let st' := with_errors st (consecutive_errors st + 1) in
        if 3 <=? consecutive_errors st' then finish v max_posts st'
        else collect_loop v max_posts script' st'
    | Page new_posts :: script' =>
        match new_posts with
        | [] => finish v max_posts st
        | _ =>
            let ps := process_api_response new_posts max_posts
                        (PageState (urls st) (post_ids st) 0 0 0) in
            let zero := if zero_new v ps then consecutive_zero_new st + 1 else 0 in
            let st1 :=
              {| urls := collected_urls ps;
                 post_ids := collected_post_ids ps;
                 before := before st;
                 consecutive_errors := consecutive_errors st;
                 consecutive_zero_new := zero;
                 last_save_count := last_save_count st;
                 state_file := state_file st |} in
            if zero_new v ps && (3 <=? zero) then finish v max_posts st1
            else
              match next_before (before st) new_posts with
              | None =>
                  (* [KeyError]: the [except Exception] clause *)
                  let st' := with_errors st1 (consecutive_errors st1 + 1) in
                  if 3 <=? consecutive_errors st' then finish v max_posts st'
                  else collect_loop v max_posts script' st'
              | Some before' =>
                  let st2 :=
                    {| urls := urls st1; post_ids := post_ids st1;
                       before := before';
                       consecutive_errors := 0;
                       consecutive_zero_new := zero;
                       last_save_count := last_save_count st;
                       state_file := state_file st |} in
                  let st3 :=
                    if (50 <=? len (urls st2) - last_save_count st2)
                       || (len (urls st2) mod 250 =? 0)
                    then
                      let s := save_url_collection_progress v st2 max_posts in
                      {| urls := urls s; post_ids := post_ids s;
                         before := before s;
                         consecutive_errors := consecutive_errors s;
                         consecutive_zero_new := consecutive_zero_new s;
                         last_save_count := len (urls s);
                         state_file := state_file s |}
                    else st2 in
                  collect_loop v max_posts script' st3
              end
        end
    end
  else finish v max_posts st.

(** [_extract_subreddit_name]: group 1 of the leftmost match of
    [/r/([^/]+)], else ["unknown_subreddit"]. *)
Fixpoint span_not_slash (s : string) : string :=
  match s with
  | EmptyString => EmptyString
  | String c t =>
      if Ascii.eqb c "/" then EmptyString else String c (span_not_slash t)
  end.

Fixpoint search_subreddit (s : string) : option string :=
  let here :=
    if String.prefix "/r/" s then
      let name := span_not_slash (PyStr.drop 3 s) in
      if PyStr.truthy name then Some name else None
    else None in
  match here with
  | Some name => Some name
  | None =>
      match s with
      | EmptyString => None
      | String _ t => search_subreddit t
      end
  end.

Definition extract_subreddit_name (url : string) : string :=
  match search_subreddit url with
  | Some name => name
  | None => "unknown_subreddit"
  end.

(** [_initialize_collection_state]: with a progress record the id set is
    the recorded one, otherwise it is derived from the urls at hand. *)
Definition initialize_collection_state (before_timestamp : option Z)
    (existing_urls : option (list entry)) (collection_progress : option progress)
    : state :=
  let collected := default [] existing_urls in
  match collection_progress with
  | Some cp =>
      State collected (list_to_set (saved_post_ids cp)) (saved_before cp)
        0 0 (len collected) None
  | None =>
      State collected (list_to_set (omap entry_id collected)) before_timestamp
        0 0 (len collected) None
  end.

(** [URLCollector.collect_post_urls] of [stage1_collect_urls.py]. *)
Definition collect_post_urls (subreddit_url : string) (max_posts : Z)
    (before_timestamp : option Z) (existing_urls : option (list entry))
    (collection_progress : option progress) (script : list response)
    : outcome (list entry) state :=
  let st0 := initialize_collection_state before_timestamp existing_urls
               collection_progress in
  if PyStr.contains "/comments/" subreddit_url then
    Returned [Entry subreddit_url None] st0
  else if String.eqb (extract_subreddit_name subreddit_url) "unknown_subreddit"
  then Returned [] st0
  else collect_loop stage1 max_posts script st0.

(** The loop of [collect_post_urls] in [v3/stage1_collect_urls.py]. *)
Definition collect_loop_v3 := collect_loop v3.

(** A listing item is consistent when its permalink embeds its own id,
    so that the reference built from it derives that id. *)
Definition consistent (p : post) : bool :=
  match id p, permalink p with
  | Some i, Some pl =>
      bool_decide
        (Identity.extract_post_id ("https://www.reddit.com" ++ pl)%string = Some i)
  | _, _ => true
  end.

Definition consistent_response (r : response) : bool :=
  match r with
  | Page new_posts => forallb consistent new_posts
  | _ => true
  end.

End Api.

(* ===================================================================== *)
(** * Comment trees                                                        *)
(* ===================================================================== *)

Module Comments.

(** [== s] against a value that may be [None] *)
Definition is_str (v : option string) (s : string) : bool :=
  match v with Some a => String.eqb a s | None => false end.

(** [body.lower() if body else ""] *)
Definition body_lower (body : option string) : string :=
  match body with
  | Some b => if PyStr.truthy b then PyStr.lower b else EmptyString
  | None => EmptyString
  end.

(** [_is_bot_or_mod_comment_or_deleted] of [stage2_crawl_posts_pullpush.py] *)
Definition is_bot_or_mod_comment_or_deleted (author body : option string)
    : bool :=
  if is_str author "AutoModerator" || is_str author "[deleted]" then true
  else
    let body_lower := body_lower body in
    if PyStr.contains "i am a bot" body_lower
       || PyStr.contains "moderator" body_lower
       || PyStr.contains "[deleted]" body_lower
    then true
    else false.

(** [_is_bot_or_mod_comment] of [stage2_crawl_posts.py] *)
Definition is_bot_or_mod_comment (author body : option string) : bool :=
  if is_str author "AutoModerator" then true
  else
    let body_lower := body_lower body in
    if PyStr.contains "i am a bot" body_lower
       || PyStr.contains "moderator" body_lower
    then true
    else false.

(** [_convert_time]: [None] is the sentinel ["N/A"] that a falsy
    timestamp gets; [Some t] stands for what the [try] block yields for
    the epoch second [t] (its rendering, or the sentinel again when
    [fromtimestamp] raises), which is left symbolic. *)
Definition convert_time (timestamp : option Z) : option Z :=
  match timestamp with
  | Some t => if t =? 0 then None else Some t
  | None => None
  end.

(** [body if body else "[无文本]"] *)
Definition text_of (body : option string) : string :=
  match body with
  | Some b => if PyStr.truthy b then b else "[无文本]"
  | None => "[无文本]"
  end.

(** A parsed comment: the dictionary with keys [author], [text],
    [score], [created_time], [replies] and [reply_count]. *)
Inductive comment : Type :=
| Comment (author : option string) (text : string) (score : option Z)
    (created_time : option Z) (replies : list comment) (reply_count : Z).

Definition replies (c : comment) : list comment :=
  match c with Comment _ _ _ _ r _ => r end.
Definition reply_count (c : comment) : Z :=
  match c with Comment _ _ _ _ _ n => n end.
Definition author (c : comment) : option string :=
  match c with Comment a _ _ _ _ _ => a end.
Definition text (c : comment) : string :=
  match c with Comment _ t _ _ _ _ => t end.
Definition score (c : comment) : option Z :=
  match c with Comment _ _ s _ _ _ => s end.
Definition created_time (c : comment) : option Z :=
  match c with Comment _ _ _ t _ _ => t end.

(** [_count_comments] / [_count_comments_recursively]: the replies are
    visited only when the list is non-empty. *)
Fixpoint count_comment (c : comment) : Z :=
  1 + match replies c with
      | [] => 0
      | rs => (fix count_list (l : list comment) (count : Z) : Z :=
                 match l with
                 | [] => count
                 | r :: l' => count_list l' (count + count_comment r)
                 end) rs 0
      end.

Definition count_comments (comments : list comment) : Z :=
  fold_left (λ count c, count + count_comment c) comments 0.

(** ** The nested payload ([stage2_crawl_posts.py]) *)

(** One node of the nested listing: its [kind], the fields of its
    [data], and the children of [data.replies] when that is an object. *)
Inductive raw_node : Type :=
| RawNode (kind : option string) (r_author r_body : jfield string)
    (r_score r_created_utc : jfield Z) (r_replies : option (list raw_node)).

(** [_parse_comment] *)
Fixpoint parse_comment (comment_data : raw_node) : option comment :=
  match comment_data with
  | RawNode kind r_author r_body r_score r_created_utc r_replies =>
      if is_str kind "more" then None
      else
        let author := jget r_author "[Deleted]"%string in
        let body := jget r_body EmptyString in
        if is_bot_or_mod_comment author body then None
        else
          let replies :=
            match r_replies with
            | Some children => omap parse_comment children
            | None => []
            end in
          Some (Comment author (text_of body) (jget r_score 0)
                  (convert_time (jget r_created_utc 0)) replies (len replies))
  end.

(** The comment loop of [fetch_post_json]. *)
Definition parse_comments (comments_tree : list raw_node) : list comment :=
  omap parse_comment comments_tree.

(** ** The flat payload ([stage2_crawl_posts_pullpush.py]) *)

Record raw_comment := RawComment {
  c_author : jfield string;
  c_body : jfield string;
  c_score : jfield Z;
  c_created_utc : jfield Z;
  c_id : jfield string;
  c_parent_id : jfield string
}.

(** What [_parse_pullpush_comment(comment_data, include_ids=True)]
    returns for a comment it keeps. *)
Record flat := Flat {
  f_author : option string;
  f_text : string;
  f_score : option Z;
  f_created_time : option Z;
  f_comment_id : option string;
  f_parent_id : option string
}.

(** [_parse_pullpush_comment] *)
Definition parse_pullpush_comment (comment_data : raw_comment) : option flat :=
  let author := jget (c_author comment_data) "[deleted]"%string in
  let body := jget (c_body comment_data) EmptyString in
  if is_bot_or_mod_comment_or_deleted author body then None
  else
    Some {| f_author := author;
            f_text := text_of body;
            f_score := jget (c_score comment_data) 0;
            f_created_time := convert_time (jget (c_created_utc comment_data) 0);
            f_comment_id := jget (c_id comment_data) EmptyString;
            f_parent_id := jget (c_parent_id comment_data) EmptyString |}.

(** A comment object of the tree under construction.  Its [replies]
    list holds references to other comment objects; an object is named
    by the key under which [comment_dict] holds it. *)
Record node := Node {
  n_author : option string;
  n_text : string;
  n_score : option Z;
  n_created_time : option Z;
  n_replies : list string;
  n_reply_count : Z
}.

(** A value of [comment_dict]: [{"data": ..., "parent_id": ...}]. *)
Record slot := Slot { data : node; parent_id : option string }.

(** First pass: one slot per comment with a non-empty id; a repeated id
    replaces the slot and keeps its place. *)
Fixpoint index_loop (flat_comments : list flat)
    (comment_dict : list (string * slot)) : list (string * slot) :=
  match flat_comments with
  | [] => comment_dict
  | c :: rest =>
      match f_comment_id c with
      | Some comment_id =>
          if PyStr.truthy comment_id then
            index_loop rest
              (PyDict.set comment_id
                 (Slot (Node (f_author c) (f_text c) (f_score c)
                          (f_created_time c) [] 0)
                    (f_parent_id c))
                 comment_dict)
          else index_loop rest comment_dict
      | None => index_loop rest comment_dict
      end
  end.

(** [parent["data"]["replies"].append(child)] *)
Definition append_reply (parent : slot) (child : string) : slot :=
  let d := data parent in
  Slot (Node (n_author d) (n_text d) (n_score d) (n_created_time d)
          (n_replies d ++ [child]) (n_reply_count d))
    (parent_id parent).

(** Second pass, over [comment_dict.items()].  [None]: [startswith] is
    called on a [parent_id] that is not a string. *)
Fixpoint link_loop (items : list string) (comment_dict : list (string * slot))
    (root_comments : list string)
    : option (list (string * slot) * list string) :=
  match items with
  | [] => Some (comment_dict, root_comments)
  | comment_id :: rest =>
      comment_info ← PyDict.get comment_id comment_dict;
      pid ← parent_id comment_info;
      if PyStr.startswith pid "t3_" then
        link_loop rest comment_dict (root_comments ++ [comment_id])
      else if PyStr.startswith pid "t1_" then
        let parent_comment_id := PyStr.drop 3 pid in
        match PyDict.get parent_comment_id comment_dict with
        | Some parent =>
            link_loop rest
              (PyDict.set parent_comment_id (append_reply parent comment_id)
                 comment_dict)
              root_comments
        | None => link_loop rest comment_dict (root_comments ++ [comment_id])
        end
      else link_loop rest comment_dict root_comments
  end.

(** [comment["reply_count"] = len(comment["replies"])] *)
Definition set_count (s : slot) : slot :=
  let d := data s in
  Slot (Node (n_author d) (n_text d) (n_score d) (n_created_time d)
          (n_replies d) (len (n_replies d)))
    (parent_id s).

(** A left fold that stops at the first failure. *)
Fixpoint fold_opt {A B} (f : B → A → option B) (l : list A) (b : B)
    : option B :=
  match l with
  | [] => Some b
  | a :: l' => match f b a with Some b' => fold_opt f l' b' | None => None end
  end.

(** Third pass: [update_counts], recursing through the references.
    [fuel] bounds the depth of the recursion. *)
Fixpoint update_counts (fuel : nat) (comment_dict : list (string * slot))
    (ref : string) : option (list (string * slot)) :=
  match fuel with
  | O => None
  | S fuel' =>
      s ← PyDict.get ref comment_dict;
      fold_opt (update_counts fuel') (n_replies (data s))
        (PyDict.set ref (set_count s) comment_dict)
  end.

(** The value a reference denotes: the object with its replies read
    through the store. *)
Fixpoint reify (fuel : nat) (comment_dict : list (string * slot))
    (ref : string) : option comment :=
  match fuel with
  | O => None
  | S fuel' =>
      s ← PyDict.get ref comment_dict;
      rs ← mapM (reify fuel' comment_dict) (n_replies (data s));
      Some (Comment (n_author (data s)) (n_text (data s)) (n_score (data s))
              (n_created_time (data s)) rs (n_reply_count (data s)))
  end.

(** The three passes of [_build_comment_tree]: the store and the list of
    root references it ends with. *)
Definition build_store (flat_comments : list flat)
    : option (list (string * slot) * list string) :=
  let comment_dict := index_loop flat_comments [] in
  '(linked, root_comments) ← link_loop (PyDict.keys comment_dict) comment_dict [];
  counted ← fold_opt (update_counts (S (length linked))) root_comments linked;
  Some (counted, root_comments).

(** [_build_comment_tree]: [root_comments] as a value.  [None] stands
    for the exception raised on a [parent_id] that is not a string. *)
Definition build_comment_tree (flat_comments : list flat)
    : option (list comment) :=
  '(counted, root_comments) ← build_store flat_comments;
  mapM (reify (S (length counted)) counted) root_comments.

(** [_fetch_all_comments_from_pullpush], given the answer of the comment
    endpoint ([None]: the request failed). *)
Definition fetch_all_comments (data : option (list raw_comment))
    : list comment :=
  match data with
  | None => []
  | Some [] => []
  | Some data =>
      default [] (build_comment_tree (omap parse_pullpush_comment data))
  end.

(** Every node of a forest, parents before children. *)
Fixpoint nodes (c : comment) : list comment :=
  c :: (fix nodes_list (l : list comment) : list comment :=
          match l with
          | [] => []
          | r :: l' => nodes r ++ nodes_list l'
          end) (replies c).

Definition forest_nodes (comments : list comment) : list comment :=
  flat_map nodes comments.

End Comments.

(* ===================================================================== *)
(** * stage2_crawl_posts_pullpush.py: the resumable fetch loop             *)
(* ===================================================================== *)

Module FetchLoop.

Import Comments.

(** An entry of the frontier file: [{"url": ..., "source": ...}]; the
    listing collector writes no [source]. *)
Record url_item := UrlItem { url : string; source : jfield string }.

(** The fields of a submission that the loop's bookkeeping reads; the
    other columns are copied from the payload in the same way. *)
Record submission := Submission {
  s_subreddit : jfield string;
  s_title : jfield string
}.

(** The two endpoints, as functions of the post id.  [None] is a failed
    request or, for a submission, an empty [data] list. *)
Record upstream := Upstream {
  submission_of : string → option submission;
  comments_of : string → option (list raw_comment)
}.

(** [post_data], the dictionary that [fetch_post_json] returns; its keys
    fill the columns of the [posts] table ([index] is the column
    [index_in_list]). *)
Record post_data := PostData {
  index : Z;
  post_id : string;
  post_url : string;
  subreddit : option string;
  collect_source : option string;
  title : string;
  num_comments_filtered : Z;
  comments : list comment;
  is_valid : bool
}.

(** [_is_post_valid] *)
Definition is_post_valid (title : option string) : bool :=
  match title with
  | Some t =>
      if PyStr.truthy t then
        negb (PyStr.contains "deleted by" (PyStr.lower t))
        && negb (PyStr.contains "removed by" (PyStr.lower t))
      else false
  | None => false
  end.

(** [fetch_post_json]: [None] when the url derives no id or a request
    fails; every exception is caught inside.  The log line slices
    [post_info.get('title', 'N/A')]: a null title raises [TypeError]
    there, before the comments are asked for. *)
Definition fetch_post_json (up : upstream) (post_url : string) (url_index : Z)
    (source : option string) : option post_data :=
  post_id ← Identity.extract_post_id post_url;
  post_info ← submission_of up post_id;
  title ← jget (s_title post_info) "N/A"%string;
  let all_comments := fetch_all_comments (comments_of up post_id) in
  Some {| index := url_index;
          post_id := post_id;
          post_url := post_url;
          subreddit := jget (s_subreddit post_info) EmptyString;
          collect_source := source;
          title := title;
          num_comments_filtered := count_comments all_comments;
          comments := all_comments;
          is_valid := is_post_valid (jget (s_title post_info) EmptyString) |}.

(** [l[i]] for a Python [int] [i]; [None] is [IndexError]. *)
Definition py_nth {A} (l : list A) (i : Z) : option A :=
  if 0 <=? i then l !! Z.to_nat i
  else if - i <=? len l then l !! Z.to_nat (len l + i) else None.

(** [load_url_list]: the frontier file must exist, be marked complete
    and be non-empty; the bounds default to the whole list and are
    clamped; an empty range is refused. *)
Definition load_url_list (urls_file : option (bool * list url_item))
    (start_index end_index : option Z) : option (list url_item * Z * Z) :=
  '(is_complete, url_list) ← urls_file;
  if negb is_complete then None
  else
    match url_list with
    | [] => None
    | _ =>
        let total_count := len url_list in
        let start_index := default 0 start_index in
        let end_index := default (total_count - 1) end_index in
        let start_index := if start_index <? 0 then 0 else start_index in
        let end_index :=
          if total_count <=? end_index then total_count - 1 else end_index in
        if end_index <? start_index then None
        else Some (url_list, start_index, end_index)
    end.

(** A row of the [posts] table: the columns that [_save_to_sqlite]
    fills from a post, the reading of the clock it takes once per call
    ([crawled_at]), and [llm_analyze_result], a column that the
    statement does not list. *)
Record row := Row {
  r_data : post_data;
  crawled_at : string;
  llm_analyze_result : option string
}.

(** What the clock and the database do at the [n]-th call of
    [_save_to_sqlite] in a run: the reading of
    [datetime.now().isoformat()], and whether the [INSERT] of a post
    goes through and stays.  A statement that raises is caught, logged,
    and the loop goes on to the next post. *)
Record sink := Sink {
  now : Z → string;
  insert_ok : Z → post_data → bool
}.

(** [_get_crawled_indexes_from_db]: the [index_in_list] of the rows of
    this subreddit inside the range. *)
Definition in_scope (subreddit_name : string) (start_index end_index : Z)
    (r : row) : bool :=
  match subreddit (r_data r) with
  | Some s =>
      String.eqb s subreddit_name
      && (start_index <=? index (r_data r)) && (index (r_data r) <=? end_index)
  | None => false
  end.

Definition get_crawled_indexes_from_db (db : gmap string row)
    (subreddit_name : string) (start_index end_index : Z) : gset Z :=
  list_to_set
    (omap (λ kr : string * row,
             if in_scope subreddit_name start_index end_index kr.2
             then Some (index (r_data kr.2)) else None)
       (map_to_list db)).

(** [load_crawl_progress]: [sorted(all_indexes_in_range - crawled)] and
    the number of crawled indexes. *)
Definition load_crawl_progress (db : gmap string row)
    (subreddit_name : string) (start_index end_index : Z) : list Z * Z :=
  let crawled_indexes :=
    get_crawled_indexes_from_db db subreddit_name start_index end_index in
  (filter (λ i, i ∉ crawled_indexes)
     (seqZ start_index (end_index + 1 - start_index)),
   Z.of_nat (size crawled_indexes)).

(** The mutable state of one run.  [fetched] records the indexes for
    which [fetch_post_json] was called, in order; [turns] is the number
    of loop turns entered; [saves] is the number of calls of
    [_save_to_sqlite] made. *)
Record run := Run {
  db : gmap string row;
  all_posts_data : list post_data;
  total_crawled_count : Z;
  consecutive_failures : Z;
  crawled_this_session : Z;
  current_index : option Z;
  progress_file : option (option Z * Z);
  fetched : list Z;
  turns : Z;
  saves : Z
}.

(** [_save_to_sqlite], the [n]-th call: one [INSERT OR REPLACE] per
    post, on the primary key [post_id].  The statement replaces the
    whole row, so the column it does not list, [llm_analyze_result],
    is null in the row it writes; a post whose statement raises leaves
    the table as it was.  (A commit that fails is rolled back, which
    leaves the table as when every statement of the call fails.) *)
Definition save_to_sqlite (sk : sink) (n : Z) (posts_data : list post_data)
    (db : gmap string row) : gmap string row :=
  let crawled_at := now sk n in
  fold_left (λ db p,
               if insert_ok sk n p
               then <[post_id p := Row p crawled_at None]> db
               else db)
    posts_data db.

(** [save_data]: the buffer is cleared whether or not every post of it
    has been written. *)
Definition save_data (sk : sink) (st : run) (current_index : option Z) : run :=
  match all_posts_data st with
  | [] => st
  | buffer =>
      let total := total_crawled_count st + len buffer in
      {| db := save_to_sqlite sk (saves st) buffer (db st);
         all_posts_data := [];
         total_crawled_count := total;
         consecutive_failures := consecutive_failures st;
         crawled_this_session := crawled_this_session st;
         current_index := FetchLoop.current_index st;
         progress_file := Some (current_index, total);
         fetched := fetched st;
         turns := turns st;
         saves := saves st + 1 |}
  end.

(** How the [for] loop ended. *)
Inductive loop_exit := Exhausted | Broke | Failed.

(** The [for i, index in enumerate(pending_indexes)] loop. *)
Fixpoint fetch_loop (up : upstream) (sk : sink) (url_list : list url_item)
    (pending_indexes : list Z) (st : run) : run * loop_exit :=
  match pending_indexes with
  | [] => (st, Exhausted)
  | index :: rest =>
      match py_nth url_list index with
      | None =>
          ({| db := db st; all_posts_data := all_posts_data st;
              total_crawled_count := total_crawled_count st;
              consecutive_failures := consecutive_failures st;
              crawled_this_session := crawled_this_session st;
              current_index := current_index st;
              progress_file := progress_file st;
              fetched := fetched st; turns := turns st + 1;
              saves := saves st |}, Failed)
      | Some url_item =>
          match fetch_post_json up (url url_item) index
                  (jget (source url_item) "unknown"%string) with
          | Some post_data =>
              let st1 :=
                {| db := db st;
                   all_posts_data := all_posts_data st ++ [post_data];
                   total_crawled_count := total_crawled_count st;
                   consecutive_failures := 0;
                   crawled_this_session := crawled_this_session st + 1;
                   current_index := Some index;
                   progress_file := progress_file st;
                   fetched := fetched st ++ [index];
                   turns := turns st + 1;
                   saves := saves st |} in
              fetch_loop up sk url_list rest
                (if len (all_posts_data st1) mod 10 =? 0
                 then save_data sk st1 (Some index) else st1)
          | None =>
              let st1 :=
                {| db := db st; all_posts_data := all_posts_data st;
                   total_crawled_count := total_crawled_count st;
                   consecutive_failures := consecutive_failures st + 1;
                   crawled_this_session := crawled_this_session st;
                   current_index := Some index;
                   progress_file := progress_file st;
                   fetched := fetched st ++ [index];
                   turns := turns st + 1;
                   saves := saves st |} in
              if 5 <=? consecutive_failures st1 then (st1, Broke)
              else fetch_loop up sk url_list rest st1
          end
      end
  end.

(** What a call of [crawl_posts] leaves behind. *)
Record report := Report {
  final : run;
  completed_normally : bool
}.

(** [PostCrawler.crawl_posts].  [None]: the frontier could not be
    loaded, and nothing was touched.  [current_index] starts as the
    [start_index] the crawler was built with. *)
Definition crawl_posts (up : upstream) (sk : sink) (subreddit_name : string)
    (urls_file : option (bool * list url_item))
    (start_index end_index : option Z) (db0 : gmap string row)
    : option report :=
  let current_index := start_index in
  '(url_list, start_index, end_index) ←
    load_url_list urls_file start_index end_index;
  let '(pending_indexes, total_crawled) :=
    load_crawl_progress db0 subreddit_name start_index end_index in
  let st0 := Run db0 [] total_crawled 0 0 current_index None [] 0 0 in
  match pending_indexes with
  | [] => Some (Report st0 false)
  | _ =>
      let '(st, exit) := fetch_loop up sk url_list pending_indexes st0 in
      let completed :=
        match exit with
        | Failed => false
        | _ => (turns st =? len pending_indexes)
               && (consecutive_failures st <? 5)
        end in
      Some (Report (save_data sk st (FetchLoop.current_index st)) completed)
  end.

(** The pending indexes a run starts from. *)
Definition pending_of (subreddit_name : string)
    (urls_file : option (bool * list url_item))
    (start_index end_index : option Z) (db0 : gmap string row)
    : option (list Z) :=
  '(_, start_index, end_index) ← load_url_list urls_file start_index end_index;
  Some (load_crawl_progress db0 subreddit_name start_index end_index).1.

End FetchLoop.

(* ===================================================================== *)
(** * Vocabulary of the statements                                         *)
(* ===================================================================== *)

(** ** Names and quotas *)

Definition str_le (a b : string) : Prop := String.leb a b = true.

Definition sumZ (l : list Z) : Z := fold_right Z.add 0 l.

(** The scenario of the specification. *)
Definition scenario_ratios : list (string * float) :=
  [("new"%string, 0.65%float); ("top"%string, 0.25%float);
   ("best"%string, 0.10%float)].

(** ** Frontiers *)

(** The frontier an outcome holds: the list returned, or the list
    collected so far. *)
Definition browser_frontier
    (o : outcome (list Browser.entry) (list Browser.entry * gset string))
    : list Browser.entry :=
  match o with
  | Returned r _ => r
  | Waiting (c, _) => c
  | Raised (c, _) => c
  end.

(** [acc] is what earlier sources have contributed; the set is shared. *)
Definition browser_inv (l : list Browser.entry) (seen : gset string) : Prop :=
  NoDup (Browser.entry_id <$> l)
  ∧ ∀ e, e ∈ l → ∃ pid, Browser.entry_id e = Some pid ∧ pid ∈ seen.

(** The frontier of the listing-API collector. *)
Definition api_frontier (o : outcome (list Api.entry) Api.state)
    : list Api.entry :=
  match o with
  | Returned r _ => r
  | Waiting st => Api.urls st
  | Raised st => Api.urls st
  end.

Definition api_state (o : outcome (list Api.entry) Api.state) : Api.state :=
  match o with
  | Returned _ st => st
  | Waiting st => st
  | Raised st => st
  end.

(** Every entry derives an id that the seen-set holds, and no two
    entries derive the same id. *)
Definition api_inv (l : list Api.entry) (ids : gset string) : Prop :=
  NoDup (Api.entry_id <$> l)
  ∧ ∀ e, e ∈ l → ∃ pid, Api.entry_id e = Some pid ∧ pid ∈ ids.

(** The invariant of the collection state. *)
Definition frontier_ok (max_posts : Z) (st : Api.state) : Prop :=
  len (Api.urls st) ≤ max_posts ∧ api_inv (Api.urls st) (Api.post_ids st).

(** An item is new for a seen-set when it is well formed, not yet seen
    and not deleted: these are the items that are appended. *)
Definition is_new_item (ids : gset string) (p : Api.post) : bool :=
  match Api.id p, Api.permalink p, jget_none (Api.created_utc p) with
  | Some pid, Some pl, Some cu =>
      PyStr.truthy pid && PyStr.truthy pl && negb (cu =? 0)
      && negb (bool_decide (pid ∈ ids)) && negb (Api.is_deleted_post p)
  | _, _, _ => false
  end.

(** A page that brings nothing new: no item of it is new. *)
Definition stale_page (ids : gset string) (posts : list Api.post) : bool :=
  forallb (λ p, negb (is_new_item ids p)) posts.

(** An item is unseen for a seen-set when it is well formed and its id
    is not in the set: it is appended, or filtered as deleted. *)
Definition is_unseen_item (ids : gset string) (p : Api.post) : bool :=
  match Api.id p, Api.permalink p, jget_none (Api.created_utc p) with
  | Some pid, Some pl, Some cu =>
      PyStr.truthy pid && PyStr.truthy pl && negb (cu =? 0)
      && negb (bool_decide (pid ∈ ids))
  | _, _, _ => false
  end.

(** A page that consists of items already seen (or malformed). *)
Definition seen_page (ids : gset string) (posts : list Api.post) : bool :=
  forallb (λ p, negb (is_unseen_item ids p)) posts.

(** What [_process_api_response] returns for a page, from a state of
    the loop. *)
Definition page_result (max_posts : Z) (st : Api.state)
    (posts : list Api.post) : Api.page_state :=
  Api.process_api_response posts max_posts
    (Api.PageState (Api.urls st) (Api.post_ids st) 0 0 0).

(** The last item of the page has the key [created_utc], from which the
    next request starts. *)
Definition dated (posts : list Api.post) : bool :=
  match last posts with
  | Some p => match Api.created_utc p with Missing => false | _ => true end
  | None => true
  end.

(** A script for the witnesses: a page of two submissions, a page that
    repeats one of them next to a deleted one, then true exhaustion. *)
Definition sample_post (i title : string) : Api.post :=
  Api.Post (Some i) (Some ("/r/dogs/comments/" ++ i ++ "/" ++ title ++ "/")%string)
    (Val 1700000000) (Some "alice"%string) None (Some "hello"%string).

(** An item of the listing of the subreddit that is itself named
    [comments]. *)
Definition comments_post (i : string) : Api.post :=
  Api.Post (Some i) (Some ("/r/comments/comments/" ++ i ++ "/t/")%string)
    (Val 1700000000) (Some "alice"%string) None (Some "hello"%string).

Definition sample_deleted (i : string) : Api.post :=
  Api.Post (Some i) (Some ("/r/dogs/comments/" ++ i ++ "/gone/")%string)
    (Val 1699990000) (Some "[deleted]"%string) None (Some "[removed]"%string).

Definition sample_script : list Api.response :=
  [Api.Page [sample_post "a1" "first"; sample_post "b2" "second"];
   Api.HttpError;
   Api.Page [sample_post "b2" "second"; sample_deleted "c3";
             sample_post "d4" "fourth"];
   Api.Page []].

(** Pages made only of items already seen keep coming: the third one
    ends the collection. *)
Definition stalled_script : list Api.response :=
  [Api.Page [sample_post "a1" "first"];
   Api.Page [sample_post "a1" "first"; sample_post "b2" "second"];
   Api.Page [sample_post "b2" "second"];
   Api.Page [sample_post "a1" "first"];
   Api.HttpError].

(** Three pages, each of one deleted submission not seen before. *)
Definition deleted_script : list Api.response :=
  [Api.Page [sample_deleted "x1"]; Api.Page [sample_deleted "x2"];
   Api.Page [sample_deleted "x3"]].

Definition stalled_state : Api.state :=
  Api.State
    [Api.Entry "https://www.reddit.com/r/dogs/comments/a1/first/" (Some 1700000000);
     Api.Entry "https://www.reddit.com/r/dogs/comments/b2/second/" (Some 1700000000)]
    {["a1"%string; "b2"%string]} (Some 1700000000) 0 0 0 None.

(** ** Comment trees *)

(** [phrase] occurs in [body] when the case of ASCII letters is
    ignored: some substring of [body] lowers to [phrase]. *)
Definition occurs_ignoring_case (phrase : string) (body : option string)
    : Prop :=
  ∃ b pre mid post,
    body = Some b
    ∧ b = String.append pre (String.append mid post)
    ∧ PyStr.lower mid = phrase.

(** A node whose [reply_count] is the length of its [replies]. *)
Definition counted (c : Comments.comment) : Prop :=
  Comments.reply_count c = len (Comments.replies c).

Section FlatVocabulary.

Import Comments.

(** What the second pass does with a comment. *)
Inductive link_target :=
| ToRoot
| ToParent (p : string)
| Dropped.

#[global] Instance link_target_eq_dec : EqDecision link_target.
Proof. solve_decision. Defined.

Definition classify (d : list (string * slot)) (pid : string) : link_target :=
  if PyStr.startswith pid "t3_" then ToRoot
  else if PyStr.startswith pid "t1_" then
    if PyDict.mem (PyStr.drop 3 pid) d then ToParent (PyStr.drop 3 pid)
    else ToRoot
  else Dropped.

(** [None]: the comment is not in the dictionary, or its [parent_id] is
    not a string. *)
Definition target (d : list (string * slot)) (c : string)
    : option link_target :=
  info ← PyDict.get c d;
  pid ← parent_id info;
  Some (classify d pid).

(** What linking and counting leave untouched. *)
Definition skel_slot (s : slot)
    : option string * string * option Z * option Z * option string :=
  (n_author (data s), n_text (data s), n_score (data s),
   n_created_time (data s), parent_id s).

Definition image {A B} (f : A → B) (d : list (string * A)) : list (string * B) :=
  map (λ ks, (ks.1, f ks.2)) d.

Definition slot_of (c : flat) : slot :=
  Slot (Node (f_author c) (f_text c) (f_score c) (f_created_time c) [] 0)
    (f_parent_id c).

(** The key under which the first pass stores a comment, if it does. *)
Definition indexed (c : flat) : option string :=
  match f_comment_id c with
  | Some k => if PyStr.truthy k then Some k else None
  | None => None
  end.

(** What counting leaves untouched: everything but [reply_count]. *)
Definition strip_slot (s : slot) :=
  (skel_slot s, n_replies (data s)).

Definition counted_at (d : list (string * slot)) (k : string) : Prop :=
  ∃ s, PyDict.get k d = Some s
       ∧ n_reply_count (data s) = len (n_replies (data s)).

(** The object [k] and everything below it, down to depth [n], carries
    a correct [reply_count]; nothing lies deeper. *)
Fixpoint deep (n : nat) (d : list (string * slot)) (k : string) : Prop :=
  match n with
  | O => False
  | S n' =>
      ∃ s, PyDict.get k d = Some s
           ∧ n_reply_count (data s) = len (n_replies (data s))
           ∧ Forall (deep n' d) (n_replies (data s))
  end.

Section ForestVocabulary.

Variable d1 : list (string * slot).
Variable ks : list string.
Variable tg : string → option link_target.

(** [ups c l]: [l] lists the ancestors of [c], nearest first, up to a
    root. *)
Inductive ups : string → list string → Prop :=
| ups_root c : tg c = Some ToRoot → ups c []
| ups_child c p l : tg c = Some (ToParent p) → ups p l → ups c (p :: l).

(** A reference that the counting pass can follow with [f] units of
    fuel: it has a chain of ancestors long enough to make up for it. *)
Definition reachable (f : nat) (x : string) : Prop :=
  ∃ l, ups x l ∧ (length ks ≤ f + length l)%nat.

(** The counting pass succeeds on [c] from [d] with [f] units of fuel. *)
Definition counts_from (f : nat) (c : string) (d : list (string * slot))
    : Prop :=
  ∃ d', update_counts f d c = Some d'
        ∧ image strip_slot d' = image strip_slot d1
        ∧ (∀ k, counted_at d k → counted_at d' k)
        ∧ deep f d' c.

End ForestVocabulary.

End FlatVocabulary.

(** The scenario of the specification: B replies to A, and A is written
    by the moderation identity. *)
Definition scenario_a : Comments.raw_comment :=
  Comments.RawComment (Val "AutoModerator"%string)
    (Val "Welcome to the thread"%string) (Val 1)
    (Val 1700000000) (Val "a1"%string)
    (Val "t3_post"%string).

Definition scenario_b : Comments.raw_comment :=
  Comments.RawComment (Val "bob"%string)
    (Val "thanks"%string) (Val 7)
    (Val 1700000050) (Val "b2"%string)
    (Val "t1_a1"%string).

Definition scenario_flat_b : Comments.flat :=
  Comments.Flat (Some "bob"%string) "thanks" (Some 7) (Some 1700000050)
    (Some "b2"%string) (Some "t1_a1"%string).

(** A reply to the post, a comment with an empty parent pointer, and a
    reply to that comment. *)
Definition orphan_flat : list Comments.flat :=
  [Comments.Flat (Some "ann"%string) "first" (Some 3) (Some 1700000000)
     (Some "c1"%string) (Some "t3_post"%string);
   Comments.Flat (Some "bob"%string) "lost" (Some 2) (Some 1700000010)
     (Some "c2"%string) (Some ""%string);
   Comments.Flat (Some "cat"%string) "reply to lost" (Some 1) (Some 1700000020)
     (Some "c3"%string) (Some "t1_c2"%string)].

(** ** The fetch loop *)

Section FetchVocabulary.

Import FetchLoop.

(** What one turn of the loop meets at index [i]: [None] when
    [url_list[i]] raises, otherwise the result of [fetch_post_json]. *)
Definition attempt (up : upstream) (url_list : list url_item) (i : Z)
    : option (option post_data) :=
  item ← py_nth url_list i;
  Some (fetch_post_json up (url item) i (jget (source item) "unknown"%string)).

Definition after_success (sk : sink) (st : run) (i : Z) (pd : post_data)
    : run :=
  let st1 :=
    {| db := db st;
       all_posts_data := all_posts_data st ++ [pd];
       total_crawled_count := total_crawled_count st;
       consecutive_failures := 0;
       crawled_this_session := crawled_this_session st + 1;
       current_index := Some i;
       progress_file := progress_file st;
       fetched := fetched st ++ [i];
       turns := turns st + 1;
       saves := saves st |} in
  if len (all_posts_data st1) mod 10 =? 0 then save_data sk st1 (Some i)
  else st1.

Definition after_failure (st : run) (i : Z) : run :=
  {| db := db st; all_posts_data := all_posts_data st;
     total_crawled_count := total_crawled_count st;
     consecutive_failures := consecutive_failures st + 1;
     crawled_this_session := crawled_this_session st;
     current_index := Some i;
     progress_file := progress_file st;
     fetched := fetched st ++ [i];
     turns := turns st + 1;
     saves := saves st |}.

(** The row that the [n]-th save writes for a post. *)
Definition stamped (sk : sink) (n : Z) (pd : post_data) : row :=
  Row pd (now sk n) None.

(** What the [INSERT] of one post at the [n]-th save does to the table. *)
Definition insert_row (sk : sink) (n : Z) (pd : post_data)
    (db : gmap string row) : gmap string row :=
  if insert_ok sk n pd then <[post_id pd := stamped sk n pd]> db else db.

(** The database as it would stand if the buffer were flushed now. *)
Definition flushed (sk : sink) (st : run) : gmap string row :=
  save_to_sqlite sk (saves st) (all_posts_data st) (db st).

(** Rows are only ever written for indexes that were fetched. *)
Definition rows_from (sk : sink) (db0 : gmap string row) (st : run) : Prop :=
  ∀ k r, flushed sk st !! k = Some r →
         db0 !! k = Some r ∨ index (r_data r) ∈ fetched st.

(** The state a run starts its loop from. *)
Definition initial_run (db0 : gmap string row) (subreddit_name : string)
    (start_index : option Z) (s e : Z) : run :=
  Run db0 [] (load_crawl_progress db0 subreddit_name s e).2 0 0 start_index
    None [] 0 0.

(** The rows that the fetches of the indexes [l] write, one after the
    other, when the buffer holds [b] posts and [n] saves have been
    made: a post that is fetched is written by the save that flushes
    it, the [n]-th, if its [INSERT] goes through, and the tenth post of
    a buffer closes the save. *)
Fixpoint write_rows (up : upstream) (sk : sink) (url_list : list url_item)
    (l : list Z) (b n : Z) (db : gmap string row) : gmap string row :=
  match l with
  | [] => db
  | i :: l' =>
      match attempt up url_list i with
      | Some (Some pd) =>
          if (b + 1) mod 10 =? 0
          then write_rows up sk url_list l' 0 (n + 1) (insert_row sk n pd db)
          else write_rows up sk url_list l' (b + 1) n (insert_row sk n pd db)
      | _ => write_rows up sk url_list l' b n db
      end
  end.

End FetchVocabulary.

Definition wit_url (i : string) : FetchLoop.url_item :=
  FetchLoop.UrlItem ("https://www.reddit.com/r/dogs/comments/" ++ i ++ "/t/")%string
    Missing.

Definition wit_urls : list FetchLoop.url_item :=
  wit_url <$> ["a1"; "b2"; "c3"; "d4"; "e5"; "f6"; "g7"]%string.

(** An upstream that knows one submission only. *)
Definition wit_upstream : FetchLoop.upstream :=
  FetchLoop.Upstream
    (λ pid, if String.eqb pid "a1"
            then Some (FetchLoop.Submission (Val "dogs"%string)
                         (Val "First"%string))
            else None)
    (λ _, None).



(** A post as [fetch_post_json] returns it. *)
Definition sample_row_post : FetchLoop.post_data :=
  FetchLoop.PostData 0 "a1" "https://www.reddit.com/r/dogs/comments/a1/t/"
    (Some "dogs"%string) (Some "unknown"%string) "First" 0 [] true.

(** A database that takes every row, and one that refuses every row. *)
Definition good_sink : FetchLoop.sink :=
  FetchLoop.Sink (λ _, "2025-01-01T00:00:00"%string) (λ _ _, true).

Definition refusing_sink : FetchLoop.sink :=
  FetchLoop.Sink (λ _, "2025-01-01T00:00:00"%string) (λ _ _, false).

(* ===================================================================== *)
(** * Vocabulary of the further properties                                 *)
(* ===================================================================== *)

(** Every character of [s] is an ASCII letter or digit. *)
Fixpoint alnum (s : string) : bool :=
  match s with
  | EmptyString => true
  | String c t => Identity.is_alnum c && alnum t
  end.

(** The errors that the listing collector counts, and the count at which
    each kind ends the collection. *)
Definition is_error (r : Api.response) : bool :=
  match r with
  | Api.HttpError | Api.RequestError | Api.OtherError => true
  | _ => false
  end.

Definition error_threshold (r : Api.response) : Z :=
  match r with
  | Api.RequestError => 5
  | _ => 3
  end.

(** From a counter that stands at [c], every error of the run leaves the
    counter below its own threshold. *)
Fixpoint errors_tolerated (c : Z) (errs : list Api.response) : bool :=
  match errs with
  | [] => true
  | r :: errs' =>
      is_error r && (c + 1 <? error_threshold r) && errors_tolerated (c + 1) errs'
  end.

(** The progress file of a run of the listing collector that started
    with the list [urls0]: either the run has not written it yet and
    has saved nothing beyond [urls0], or the file holds the first
    [last_save_count] urls of the list. *)
Definition progress_inv (max_posts : Z) (urls0 : list Api.entry)
    (st : Api.state) : Prop :=
  match Api.state_file st with
  | None =>
      Api.last_save_count st = len urls0 ∧ urls0 `prefix_of` Api.urls st
  | Some p =>
      Api.saved_urls p = take (Z.to_nat (Api.last_save_count st)) (Api.urls st)
      ∧ 0 ≤ Api.last_save_count st ≤ len (Api.urls st)
      ∧ Api.saved_complete p = (max_posts <=? Api.last_save_count st)
  end.

(** The progress file is up to date: it holds the whole list, or the
    run has not written it and the list is the one it started with. *)
Definition progress_current (max_posts : Z) (urls0 : list Api.entry)
    (st : Api.state) : Prop :=
  match Api.state_file st with
  | None => Api.urls st = urls0
  | Some p =>
      Api.saved_urls p = Api.urls st
      ∧ Api.saved_complete p = (max_posts <=? len (Api.urls st))
  end.

(** A comment of the answer whose [parent_id] is the JSON [null]. *)
Definition null_parent_raw : Comments.raw_comment :=
  Comments.RawComment (Val "carol"%string)
    (Val "first"%string) (Val 3)
    (Val 1700000060) (Val "c3"%string) Null.

(** The number of entries of a frontier that are tagged with the source
    type [t]. *)
Definition tagged (t : string) (l : list Browser.entry) : Z :=
  len (filter (λ e, Browser.source e = t) l).

(** The quota of a source type: its count when the type has a page and
    the count is positive, and nothing otherwise. *)
Definition source_quota (counts : list (string * Z)) (t : string) : Z :=
  match PyDict.get t Browser.source_url_mapping, PyDict.get t counts with
  | Some _, Some c => Z.max 0 c
  | _, _ => 0
  end.

(** A round that brings nothing new: the query fails, or no link of the
    page yields an unseen id. *)
Definition barren (source_type : string) (target_count : Z)
    (collected : list Browser.entry) (seen : gset string)
    (r : Browser.round) : bool :=
  match r with
  | Browser.QueryError => true
  | Browser.Shown links _ =>
      Browser.new_found_count
        (Browser.scan_links source_type target_count links
           (Browser.ScanState collected seen 0)) =? 0
  | Browser.Crash => false
  end.

(** [sampling_ratios or {...}]: the dictionary that the constructor
    checks, the defaults for an absent or empty argument. *)
Definition stored_ratios (arg : option (list (string * float)))
    : list (string * float) :=
  match arg with
  | None | Some [] => Quota.default_ratios
  | Some d => d
  end.

(* ===================================================================== *)
(** * The runs of the listing collectors                                   *)
(* ===================================================================== *)

(** [URLCollector.run] reads the state file, collects, and leaves the
    state file for the next run.  The state file is the record that the
    collector's save writes; [None] is no file. *)
Module Resume.

(** The state file after a collection: what the collection wrote last,
    or the file as it was. *)
Definition file_after (file : option Api.progress) (st : Api.state)
    : option Api.progress :=
  match Api.state_file st with
  | Some p => Some p
  | None => file
  end.

(** ** [stage1_collect_urls.py] *)

(** [load_progress]: the list of the file, whether it reaches the
    target, and the progress record; [([], False, {})] without a file. *)
Definition load_progress (max_posts : Z) (file : option Api.progress)
    : list Api.entry * bool * option Api.progress :=
  match file with
  | Some p => (Api.saved_urls p, max_posts <=? len (Api.saved_urls p), Some p)
  | None => ([], false, None)
  end.

(** [run]: a [KeyboardInterrupt] is caught and [[]] returned. *)
Definition run (subreddit_url : string) (max_posts : Z)
    (before_timestamp : option Z) (file : option Api.progress)
    (script : list Api.response)
    : outcome (list Api.entry) (option Api.progress) :=
  let '(existing_urls, is_collection_complete, collection_progress) :=
    load_progress max_posts file in
  if is_collection_complete then Returned existing_urls file
  else
    match Api.collect_post_urls subreddit_url max_posts before_timestamp
            (Some existing_urls) collection_progress script with
    | Returned url_list st => Returned url_list (file_after file st)
    | Waiting st => Waiting (file_after file st)
    | Raised st => Returned [] (file_after file st)
    end.

(** ** [v3/stage1_collect_urls.py] *)

(** [load_progress]: the list, the timestamp, the scanned ids and the
    completion flag of the file. *)
Definition load_progress_v3 (before_timestamp : option Z)
    (file : option Api.progress)
    : list Api.entry * option Z * gset string * bool :=
  match file with
  | Some p =>
      (Api.saved_urls p, Api.saved_before p,
       list_to_set (Api.saved_post_ids p), Api.saved_complete p)
  | None => ([], before_timestamp, ∅, false)
  end.

(** [_initialize_collection_state]: an empty id set is filled from the
    urls at hand. *)
Definition initialize_collection_state_v3 (collected_urls : list Api.entry)
    (before_timestamp : option Z) (scanned_post_ids : gset string)
    : Api.state :=
  let scanned_post_ids :=
    if bool_decide (scanned_post_ids = ∅)
       && negb (bool_decide (collected_urls = []))
    then list_to_set (omap Api.entry_id collected_urls)
    else scanned_post_ids in
  Api.State collected_urls scanned_post_ids before_timestamp 0 0
    (len collected_urls) None.

(** [collect_post_urls]; [self_before] is [self.before_timestamp]. *)
Definition collect_post_urls_v3 (subreddit_url : string) (max_posts : Z)
    (self_before : option Z) (existing_urls : option (list Api.entry))
    (before_timestamp : option Z) (existing_scanned_ids : option (gset string))
    (script : list Api.response) : outcome (list Api.entry) Api.state :=
  let collected_urls := default [] existing_urls in
  let scanned_post_ids := default ∅ existing_scanned_ids in
  let before :=
    if Api.truthy_num before_timestamp then before_timestamp
    else self_before in
  let st0 :=
    initialize_collection_state_v3 collected_urls before scanned_post_ids in
  if PyStr.contains "/comments/" subreddit_url then
    Returned [Api.Entry subreddit_url None] st0
  else if String.eqb (Api.extract_subreddit_name subreddit_url)
            "unknown_subreddit"
  then Returned [] st0
  else Api.collect_loop Api.v3 max_posts script st0.

(** [run] *)
Definition run_v3 (subreddit_url : string) (max_posts : Z)
    (self_before : option Z) (file : option Api.progress)
    (script : list Api.response)
    : outcome (list Api.entry) (option Api.progress) :=
  let '(collected_urls, before_timestamp, scanned_post_ids, is_complete) :=
    load_progress_v3 self_before file in
  if is_complete then Returned collected_urls file
  else
    match collect_post_urls_v3 subreddit_url max_posts self_before
            (Some collected_urls) before_timestamp (Some scanned_post_ids)
            script with
    | Returned url_list st => Returned url_list (file_after file st)
    | Waiting st => Waiting (file_after file st)
    | Raised st => Returned [] (file_after file st)
    end.

End Resume.

(** The state file an outcome of [run] leaves. *)
Definition run_file (o : outcome (list Api.entry) (option Api.progress))
    : option Api.progress :=
  match o with
  | Returned _ f => f
  | Waiting f => f
  | Raised f => f
  end.

(** A state file is sound when no two of its urls derive the same id
    and its id list holds the id of each. *)
Definition file_ok (file : option Api.progress) : Prop :=
  match file with
  | Some p => api_inv (Api.saved_urls p) (list_to_set (Api.saved_post_ids p))
  | None => True
  end.

(** The urls of a state file. *)
Definition file_urls (file : option Api.progress) : list Api.entry :=
  match file with
  | Some p => Api.saved_urls p
  | None => []
  end.

(** What a run that started from the list [urls0] keeps: its list
    extends [urls0] without a repeated id, and so does the list of the
    state file once the run has written it. *)
Definition resume_inv (urls0 : list Api.entry) (st : Api.state) : Prop :=
  api_inv (Api.urls st) (Api.post_ids st)
  ∧ urls0 `prefix_of` Api.urls st
  ∧ match Api.state_file st with
    | Some p =>
        api_inv (Api.saved_urls p) (list_to_set (Api.saved_post_ids p))
        ∧ urls0 `prefix_of` Api.saved_urls p
    | None => True
    end.

(** The completion flag of a state file agrees with the target: the
    file was written by a run with the same [max_posts]. *)
Definition file_coherent (max_posts : Z) (file : option Api.progress) : Prop :=
  match file with
  | Some p => Api.saved_complete p = (max_posts <=? len (Api.saved_urls p))
  | None => True
  end.

(** The state file that a run with the target 1 leaves on the sample
    upstream. *)
Definition wit_entry : Api.entry :=
  Api.Entry "https://www.reddit.com/r/dogs/comments/a1/first/"
    (Some 1700000000).

Definition wit_file : Api.progress :=
  Api.Progress [wit_entry] ["a1"%string] (Some 1700000000) true.

(* ===================================================================== *)
(** * Facts about strings and dictionaries                                 *)
(* ===================================================================== *)

Lemma insert_sorted_perm k l : Permutation (PyStr.insert_sorted k l) (k :: l).
Proof.
  induction l as [|h t IH]; simpl; [done|].
  destruct (String.leb k h); [done|].
  rewrite IH. apply perm_swap.
Qed.

Lemma sorted_perm l : Permutation (PyStr.sorted l) l.
Proof.
  induction l as [|h t IH]; simpl; [done|].
  rewrite insert_sorted_perm. by constructor.
Qed.

Lemma str_le_trans a b c : str_le a b → str_le b c → str_le a c.
Proof.
  unfold str_le, String.leb. revert b c.
  induction a as [|x a IH]; intros [|y b] [|z c]; simpl; try done.
  unfold Ascii.compare.
  destruct (N.compare_spec (N_of_ascii x) (N_of_ascii y)),
    (N.compare_spec (N_of_ascii y) (N_of_ascii z)),
    (N.compare_spec (N_of_ascii x) (N_of_ascii z));
    try done; try lia.
  apply IH.
Qed.

Lemma insert_sorted_ordered k l :
  StronglySorted str_le l → StronglySorted str_le (PyStr.insert_sorted k l).
Proof.
  induction 1 as [|h t Hs IH Hall]; simpl.
  - repeat constructor.
  - destruct (String.leb k h) eqn:E.
    + constructor; [by constructor|].
      constructor; [done|].
      eapply Forall_impl; [exact Hall|]. intros x Hx.
      by apply str_le_trans with h.
    + constructor; [done|].
      rewrite insert_sorted_perm. constructor; [|done].
      unfold str_le. destruct (String.leb_total k h) as [H|H]; [congruence|done].
Qed.

Lemma sorted_ordered l : StronglySorted str_le (PyStr.sorted l).
Proof.
  induction l; simpl; [constructor|by apply insert_sorted_ordered].
Qed.

Lemma dict_get_Some {V} k (d : list (string * V)) v :
  PyDict.get k d = Some v → (k, v) ∈ d.
Proof.
  induction d as [|[k' v'] t IH]; simpl; [done|].
  destruct (String.eqb k' k) eqn:E.
  - apply String.eqb_eq in E as ->. intros [= ->]. left.
  - intros H. right. auto.
Qed.

Lemma dict_get_None {V} k (d : list (string * V)) :
  PyDict.get k d = None ↔ k ∉ PyDict.keys d.
Proof.
  induction d as [|[k' v'] t IH]; simpl.
  - split; [intros _; apply not_elem_of_nil|done].
  - destruct (String.eqb k' k) eqn:E.
    + apply String.eqb_eq in E as ->. split; [done|]. intros []. left.
    + apply String.eqb_neq in E. rewrite IH, not_elem_of_cons.
      split; [by intros ?|by intros [_ ?]].
Qed.

Lemma dict_get_is_Some {V} k (d : list (string * V)) :
  is_Some (PyDict.get k d) ↔ k ∈ PyDict.keys d.
Proof.
  rewrite <-not_eq_None_Some, dict_get_None.
  destruct (decide (k ∈ PyDict.keys d)); naive_solver.
Qed.

Lemma dict_get_In {V} k v (d : list (string * V)) :
  NoDup (PyDict.keys d) → (k, v) ∈ d → PyDict.get k d = Some v.
Proof.
  induction d as [|[k' v'] t IH]; simpl; [by intros _ ?%not_elem_of_nil|].
  rewrite NoDup_cons. intros [Hk Hnd] [[= -> ->]|Hin]%elem_of_cons.
  - by rewrite String.eqb_refl.
  - destruct (String.eqb k' k) eqn:E; [|auto].
    apply String.eqb_eq in E as ->. destruct Hk.
    apply (list_elem_of_fmap_2 fst) in Hin. done.
Qed.

Lemma dict_set_fresh {V} k (v : V) d :
  k ∉ PyDict.keys d → PyDict.set k v d = d ++ [(k, v)].
Proof.
  induction d as [|[k' v'] t IH]; simpl; [done|].
  rewrite not_elem_of_cons. intros [Hne Hk].
  destruct (String.eqb k' k) eqn:E.
  - apply String.eqb_eq in E. congruence.
  - by rewrite IH.
Qed.

Lemma dict_keys_set {V} k (v : V) d :
  k ∈ PyDict.keys d → PyDict.keys (PyDict.set k v d) = PyDict.keys d.
Proof.
  induction d as [|[k' v'] t IH]; simpl; [by intros ?%not_elem_of_nil|].
  destruct (String.eqb k' k) eqn:E.
  - apply String.eqb_eq in E as ->. done.
  - apply String.eqb_neq in E. intros [?|?]%elem_of_cons; [congruence|].
    simpl. f_equal. auto.
Qed.

Lemma dict_get_set {V} k k' (v : V) d :
  PyDict.get k' (PyDict.set k v d)
  = if String.eqb k k' then Some v else PyDict.get k' d.
Proof.
  induction d as [|[k0 v0] t IH]; simpl.
  - done.
  - destruct (String.eqb_spec k0 k) as [->|Hne]; simpl.
    + by destruct (String.eqb k k').
    + rewrite IH. destruct (String.eqb_spec k0 k') as [->|]; [|done].
      by destruct (String.eqb_spec k k').
Qed.

Lemma dict_set_length {V} k (v : V) d :
  k ∈ PyDict.keys d → length (PyDict.set k v d) = length d.
Proof.
  intros H. apply dict_keys_set with (v := v) in H.
  unfold PyDict.keys in H. apply (f_equal length) in H.
  by rewrite !length_map in H.
Qed.

(* ===================================================================== *)
(** * C1: the quota partition                                              *)
(* ===================================================================== *)

Lemma total_app d1 d2 : Quota.total (d1 ++ d2) = Quota.total d1 + Quota.total d2.
Proof.
  unfold Quota.total, PyDict.values. rewrite map_app.
  induction (map snd d1) as [|x l IH]; simpl; lia.
Qed.

Lemma total_zip (ks : list string) qs :
  length ks = length qs → Quota.total (zip ks qs) = sumZ qs.
Proof.
  revert qs. induction ks as [|k ks IH]; intros [|q qs]; simpl; try done.
  intros [= H]. unfold Quota.total in *. simpl. by rewrite IH.
Qed.

Lemma partition_loop_spec max_posts ratios types :
  types ≠ [] →
  NoDup types →
  (∀ k, k ∈ types →
     ∃ r, PyDict.get k ratios = Some r ∧ is_Some (Quota.quota max_posts r)) →
  ∀ remaining counts,
  (∀ k, k ∈ types → k ∉ PyDict.keys counts) →
  ∃ init last qs,
    types = init ++ [last]
    ∧ Forall2 (λ k q, ∃ r, PyDict.get k ratios = Some r
                            ∧ Quota.quota max_posts r = Some q) init qs
    ∧ Quota.partition_loop max_posts ratios types remaining counts
      = Some (counts ++ zip init qs ++ [(last, remaining - sumZ qs)]).
Proof.
  induction types as [|k [|k2 rest] IH]; intros Hne Hnd Hq remaining counts Hfresh.
  - done.
  - exists [], k, []. simpl. split; [done|]. split; [constructor|].
    rewrite dict_set_fresh; [|apply Hfresh; left].
    unfold sumZ. simpl. by rewrite Z.sub_0_r.
  - destruct (Hq k ltac:(left)) as (r & Hr & [q Hqk]).
    apply NoDup_cons in Hnd as [Hk Hnd].
    assert (∀ k', k' ∈ k2 :: rest →
              ∃ r, PyDict.get k' ratios = Some r
                   ∧ is_Some (Quota.quota max_posts r)) as Hq'.
    { intros k' Hk'. apply Hq. by right. }
    assert (∀ k', k' ∈ k2 :: rest → k' ∉ PyDict.keys (counts ++ [(k, q)]))
      as Hfresh'.
    { intros k' Hk'. unfold PyDict.keys. rewrite map_app, elem_of_app.
      intros [Hc|Hc].
      - eapply Hfresh; [right; exact Hk'|done].
      - simpl in Hc. apply list_elem_of_singleton in Hc as ->. done. }
    destruct (IH ltac:(done) Hnd Hq' (remaining - q) (counts ++ [(k, q)]) Hfresh')
      as (init & last & qs & Hty & Hall & Hrun).
    exists (k :: init), last, (q :: qs). split; [by rewrite Hty|].
    split; [constructor; eauto|].
    change (Quota.partition_loop max_posts ratios (k :: k2 :: rest) remaining counts)
      with (ratio ← PyDict.get k ratios;
            count ← Quota.quota max_posts ratio;
            Quota.partition_loop max_posts ratios (k2 :: rest) (remaining - count)
              (PyDict.set k count counts)).
    rewrite Hr. cbn [mbind option_bind]. rewrite Hqk. cbn [mbind option_bind].
    rewrite (dict_set_fresh k q counts) by (apply Hfresh; left).
    rewrite Hrun. rewrite <-!app_assoc. simpl.
    by replace (remaining - q - sumZ qs) with (remaining - (q + sumZ qs)) by lia.
Qed.

Lemma normalize_length total_ratio d d' :
  Quota.normalize total_ratio d = Some d' → length d' = length d.
Proof.
  revert d'. induction d as [|[k r] d IH]; intros d'; simpl.
  - by intros [= <-].
  - destruct (Quota.py_div r total_ratio); [|done]. simpl.
    destruct (Quota.normalize total_ratio d) as [t|]; [|done]. simpl.
    intros [= <-]. simpl. f_equal. by apply IH.
Qed.

(** The constructor never leaves an empty dictionary of ratios. *)
Lemma init_sampling_ratios_nonempty arg d :
  Quota.init_sampling_ratios arg = Some d → d ≠ [].
Proof.
  unfold Quota.init_sampling_ratios.
  set (d0 := match arg with None | Some [] => _ | Some d => d end).
  assert (d0 ≠ []) as Hne by (by destruct arg as [[|]|]).
  destruct (Quota.needs_normalizing d0).
  - intros H%normalize_length ->. by destruct d0.
  - by intros [= <-].
Qed.

(** C1 (quota partition exactness).  For every stored
    [sampling_ratios] dictionary (non-empty, as the constructor leaves
    it) and every [max_posts] for which the products
    [max_posts * ratio] are numbers that [int] accepts, the partition of
    [collect_post_urls] returns; its sources are the sorted source
    names, a permutation of the dictionary's keys in ascending order;
    every source but the last receives [int(max_posts * ratio)]; the
    last receives what remains; and the quotas sum to exactly
    [max_posts].  This holds for every such
    dictionary, in particular for those whose weights sum to 1.0 within
    the tolerance.  On the scenario [max_posts = 100],
    [{new: 0.65, top: 0.25, best: 0.10}] the quotas are
    [{best: 10, new: 65, top: 25}]. *)
Theorem quota_partition_exact :
  (∀ (max_posts : Z) (sampling_ratios : list (string * float)),
     sampling_ratios ≠ [] →
     NoDup (PyDict.keys sampling_ratios) →
     (∀ k r, (k, r) ∈ sampling_ratios → is_Some (Quota.quota max_posts r)) →
     ∃ init last qs,
       PyStr.sorted (PyDict.keys sampling_ratios) = init ++ [last]
       ∧ StronglySorted str_le (init ++ [last])
       ∧ Permutation (init ++ [last]) (PyDict.keys sampling_ratios)
       ∧ Forall2 (λ k q, ∃ r, PyDict.get k sampling_ratios = Some r
                               ∧ Quota.quota max_posts r = Some q) init qs
       ∧ Quota.sampling_counts max_posts sampling_ratios
         = Some (zip init qs ++ [(last, max_posts - sumZ qs)])
       ∧ Quota.total (zip init qs ++ [(last, max_posts - sumZ qs)]) = max_posts)
  ∧ Quota.needs_normalizing scenario_ratios = false
  ∧ Quota.sampling_counts 100 scenario_ratios
    = Some [("best"%string, 10); ("new"%string, 65); ("top"%string, 25)].
Proof.
  split; [|by vm_compute].
  intros max_posts ratios Hne Hnd Hq.
  destruct (partition_loop_spec max_posts ratios
              (PyStr.sorted (PyDict.keys ratios))) with
    (remaining := max_posts) (counts := @nil (string * Z))
    as (init & last & qs & Hty & Hall & Hrun).
  - intros Hs. pose proof (sorted_perm (PyDict.keys ratios)) as P.
    rewrite Hs in P. apply Permutation_nil in P.
    destruct ratios; [done|discriminate].
  - by rewrite sorted_perm.
  - intros k Hk. rewrite sorted_perm in Hk.
    apply dict_get_is_Some in Hk as [r Hr]. exists r. split; [done|].
    eapply Hq, dict_get_Some, Hr.
  - intros k _. apply not_elem_of_nil.
  - exists init, last, qs. split; [done|].
    split; [rewrite <-Hty; apply sorted_ordered|].
    split; [rewrite <-Hty; apply sorted_perm|].
    split; [done|]. split; [exact Hrun|].
    rewrite total_app, total_zip by (by eapply Forall2_length).
    unfold Quota.total. simpl. lia.
Qed.

Lemma quota_partition_exact_witness :
  ∃ init last qs,
    PyStr.sorted (PyDict.keys scenario_ratios) = init ++ [last]
    ∧ StronglySorted str_le (init ++ [last])
    ∧ Permutation (init ++ [last]) (PyDict.keys scenario_ratios)
    ∧ Forall2 (λ k q, ∃ r, PyDict.get k scenario_ratios = Some r
                            ∧ Quota.quota 100 r = Some q) init qs
    ∧ Quota.sampling_counts 100 scenario_ratios
      = Some (zip init qs ++ [(last, 100 - sumZ qs)])
    ∧ Quota.total (zip init qs ++ [(last, 100 - sumZ qs)]) = 100.
Proof.
  apply (proj1 quota_partition_exact 100 scenario_ratios).
  - discriminate.
  - unfold scenario_ratios, PyDict.keys. simpl.
    repeat (apply NoDup_cons_2; [set_solver|]). apply NoDup_nil_2.
  - intros k r Hin. unfold scenario_ratios in Hin.
    repeat (apply elem_of_cons in Hin as [[= -> ->]|Hin]; [by vm_compute; eexists|]).
    by apply not_elem_of_nil in Hin.
Defined.

(* ===================================================================== *)
(** * C2: the dedup invariant                                              *)
(* ===================================================================== *)

Lemma py_take_sublist {A} n (l : list A) : py_take n l `sublist_of` l.
Proof. unfold py_take. destruct (0 <=? n); apply sublist_take. Qed.

Lemma py_take_length {A} n (l : list A) : 0 ≤ n → len (py_take n l) ≤ n.
Proof.
  intros Hn. unfold py_take, len.
  destruct (Z.leb_spec 0 n); [|lia]. rewrite length_take. lia.
Qed.

Section BrowserDedup.

Lemma browser_inv_snoc l seen href src pid :
  browser_inv l seen →
  Identity.extract_post_id href = Some pid →
  pid ∉ seen →
  browser_inv (l ++ [Browser.Entry href src]) ({[pid]} ∪ seen).
Proof.
  intros [Hnd Hin] Hid Hfresh. split.
  - rewrite fmap_app. simpl. apply NoDup_app. split; [done|].
    split; [|apply NoDup_singleton].
    intros x Hx ->%list_elem_of_singleton.
    apply list_elem_of_fmap in Hx as (e & He & Hel).
    destruct (Hin e Hel) as (pid' & Hp & Hs).
    unfold Browser.entry_id in *. simpl in He. congruence.
  - intros e [He|He]%elem_of_app.
    + destruct (Hin e He) as (pid' & ? & ?). exists pid'. set_solver.
    + apply list_elem_of_singleton in He as ->. exists pid. set_solver.
Qed.

Lemma browser_inv_sublist l l' seen :
  l' `sublist_of` l → browser_inv l seen → browser_inv l' seen.
Proof.
  intros Hsub [Hnd Hin]. split.
  - eapply sublist_NoDup; [exact Hnd|by apply fmap_sublist].
  - intros e He. apply Hin. eapply elem_of_sublist; done.
Qed.

Lemma scan_links_inv acc src target links st :
  browser_inv (acc ++ Browser.collected_urls st) (Browser.seen_post_ids st) →
  browser_inv
    (acc ++ Browser.collected_urls (Browser.scan_links src target links st))
    (Browser.seen_post_ids (Browser.scan_links src target links st)).
Proof.
  revert st. induction links as [|[[href|]|] rest IH]; intros st Hinv; simpl; auto.
  destruct (PyStr.truthy href && negb (PyStr.contains "/user/" href)); [|auto].
  set (h := if PyStr.startswith href "/" then _ else _).
  destruct (Identity.extract_post_id h) as [pid|] eqn:Hid; [|auto].
  destruct (PyStr.truthy pid); simpl; [|auto].
  case_bool_decide as Hseen; simpl; [auto|].
  assert (browser_inv
            (acc ++ Browser.collected_urls st ++ [Browser.Entry h src])
            ({[pid]} ∪ Browser.seen_post_ids st)) as Hinv'.
  { rewrite app_assoc. by apply browser_inv_snoc. }
  destruct (target <=? _); [done|]. by apply IH.
Qed.

Lemma collect_loop_inv acc src target rs collected seen n :
  browser_inv (acc ++ collected) seen →
  match Browser.collect_loop src target rs collected seen n with
  | Returned r (c, s) => r `sublist_of` c ∧ browser_inv (acc ++ c) s
  | Waiting (c, s) => browser_inv (acc ++ c) s
  | Raised (c, s) => browser_inv (acc ++ c) s
  end.
Proof.
  revert collected seen n.
  induction rs as [|r rs IH]; intros collected seen n Hinv; simpl.
  - destruct (_ && _); [done|]. split; [apply py_take_sublist|done].
  - destruct (_ && _); [|split; [apply py_take_sublist|done]].
    destruct r as [links scroll_ok| |].
    + pose proof (scan_links_inv acc src target links
                    (Browser.ScanState collected seen 0) Hinv) as Hs.
      destruct (target <=? _).
      * split; [apply py_take_sublist|done].
      * by apply IH.
    + by apply IH.
    + done.
Qed.

Lemma collect_sources_inv browser configs acc seen :
  browser_inv acc seen →
  NoDup (Browser.entry_id <$>
           browser_frontier (Browser.collect_sources browser configs acc seen)).
Proof.
  revert acc seen.
  induction configs as [|[[src suffix] target] rest IH]; intros acc seen Hinv;
    simpl.
  - apply Hinv.
  - destruct (target <=? 0); [by apply IH|].
    unfold Browser.collect_from_single_source.
    destruct (Browser.goto_ok (browser src)).
    + pose proof (collect_loop_inv acc src target
                    (Browser.rounds (browser src)) [] seen 0) as H.
      rewrite app_nil_r in H. specialize (H Hinv).
      destruct (Browser.collect_loop _ _ _ _ _ _) as [r [c s]|[c s]|[c s]].
      * destruct H as [Hsub Hi]. apply IH.
        eapply browser_inv_sublist; [|exact Hi].
        by apply sublist_app.
      * apply H.
      * apply H.
    + apply IH. by rewrite app_nil_r.
Qed.

End BrowserDedup.

Section ApiInvariants.

Lemma api_inv_mono l ids ids' : ids ⊆ ids' → api_inv l ids → api_inv l ids'.
Proof.
  intros Hsub [Hnd Hin]. split; [done|].
  intros e He. destruct (Hin e He) as (pid & ? & ?). exists pid. set_solver.
Qed.

Lemma api_inv_snoc l ids pl cu pid :
  api_inv l ids →
  Identity.extract_post_id ("https://www.reddit.com" ++ pl) = Some pid →
  pid ∉ ids →
  api_inv (l ++ [Api.Entry ("https://www.reddit.com" ++ pl) cu]) ({[pid]} ∪ ids).
Proof.
  intros [Hnd Hin] Hid Hfresh. split.
  - rewrite fmap_app. simpl. apply NoDup_app. split; [done|].
    split; [|apply NoDup_singleton].
    intros x Hx ->%list_elem_of_singleton.
    apply list_elem_of_fmap in Hx as (e & He & Hel).
    destruct (Hin e Hel) as (pid' & Hp & Hs).
    rewrite Hp in He. unfold Api.entry_id in He. cbn [Api.url] in He.
    rewrite Hid in He. congruence.
  - intros e [He|He]%elem_of_app.
    + destruct (Hin e He) as (pid' & ? & ?). exists pid'. set_solver.
    + apply list_elem_of_singleton in He as ->. exists pid. set_solver.
Qed.

Lemma process_api_response_inv posts max_posts st :
  forallb Api.consistent posts = true →
  api_inv (Api.collected_urls st) (Api.collected_post_ids st) →
  api_inv (Api.collected_urls (Api.process_api_response posts max_posts st))
    (Api.collected_post_ids (Api.process_api_response posts max_posts st)).
Proof.
  revert st. induction posts as [|p rest IH]; intros st Hc Hinv; simpl; [done|].
  simpl in Hc. apply andb_prop in Hc as [Hp Hrest].
  destruct (max_posts <=? _); [done|].
  unfold Api.consistent in Hp.
  destruct (Api.id p) as [pid|]; [|by apply IH].
  destruct (Api.permalink p) as [pl|]; [|by apply IH].
  apply bool_decide_eq_true in Hp.
  destruct (jget_none (Api.created_utc p)) as [cu|]; [|by apply IH].
  destruct (_ && _); [|by apply IH].
  case_bool_decide as Hseen; [by apply IH|].
  destruct (Api.is_deleted_post p); apply IH; try done; simpl.
  - eapply api_inv_mono; [|exact Hinv]. set_solver.
  - by apply api_inv_snoc.
Qed.

Lemma process_api_response_bound posts max_posts st :
  len (Api.collected_urls st) ≤ max_posts →
  len (Api.collected_urls (Api.process_api_response posts max_posts st))
  ≤ max_posts.
Proof.
  revert st. induction posts as [|p rest IH]; intros st Hb; simpl; [done|].
  destruct (Z.leb_spec max_posts (len (Api.collected_urls st))); [done|].
  destruct (Api.id p) as [pid|]; [|by apply IH].
  destruct (Api.permalink p) as [pl|]; [|by apply IH].
  destruct (jget_none (Api.created_utc p)) as [cu|]; [|by apply IH].
  destruct (_ && _); [|by apply IH].
  case_bool_decide; [by apply IH|].
  destruct (Api.is_deleted_post p); apply IH; simpl; try done.
  unfold len in *. rewrite length_app. simpl. lia.
Qed.

Lemma process_api_response_full posts max_posts st :
  max_posts ≤ len (Api.collected_urls st) →
  Api.process_api_response posts max_posts st = st.
Proof.
  intros Hfull. destruct posts as [|p rest]; simpl; [done|].
  by destruct (Z.leb_spec max_posts (len (Api.collected_urls st))); [|lia].
Qed.

Lemma finish_ok v max_posts st :
  ∃ st', Api.finish v max_posts st
         = Returned (py_take max_posts (Api.urls st)) st'
         ∧ Api.urls st' = Api.urls st ∧ Api.post_ids st' = Api.post_ids st
         ∧ Api.consecutive_zero_new st' = Api.consecutive_zero_new st.
Proof.
  unfold Api.finish. destruct (_ || _); eauto.
Qed.

Lemma collect_loop_ok v max_posts script st :
  forallb Api.consistent_response script = true →
  frontier_ok max_posts st →
  frontier_ok max_posts (api_state (Api.collect_loop v max_posts script st))
  ∧ api_frontier (Api.collect_loop v max_posts script st)
    `sublist_of` Api.urls (api_state (Api.collect_loop v max_posts script st)).
Proof.
  assert (∀ st, frontier_ok max_posts st →
            frontier_ok max_posts (api_state (Api.finish v max_posts st))
            ∧ api_frontier (Api.finish v max_posts st)
              `sublist_of` Api.urls (api_state (Api.finish v max_posts st)))
    as Hfin.
  { intros s Hs. destruct (finish_ok v max_posts s) as (s' & -> & Hu & Hi & _).
    simpl. unfold frontier_ok. rewrite Hu, Hi.
    split; [done|apply py_take_sublist]. }
  revert st. induction script as [|r script IH]; intros st Hc Hok; simpl.
  - destruct (_ <? _); [done|by apply Hfin].
  - simpl in Hc. apply andb_prop in Hc as [Hr Hc].
    destruct (_ <? _); [|by apply Hfin].
    destruct r as [| | |posts|]; simpl.
    + destruct (3 <=? _); [by apply Hfin|by apply IH].
    + destruct (5 <=? _); [by apply Hfin|by apply IH].
    + destruct (3 <=? _); [by apply Hfin|by apply IH].
    + destruct posts as [|p posts]; [by apply Hfin|].
      set (ps := Api.process_api_response (p :: posts) max_posts _).
      assert (len (Api.collected_urls ps) ≤ max_posts
              ∧ api_inv (Api.collected_urls ps) (Api.collected_post_ids ps))
        as Hps.
      { destruct Hok. split.
        - by apply process_api_response_bound.
        - by apply process_api_response_inv. }
      destruct (Api.zero_new v ps && _); [by apply Hfin|].
      destruct (Api.next_before _ _) as [b|].
      * apply IH; [done|]. by destruct (_ || _).
      * destruct (3 <=? _); [by apply Hfin|by apply IH].
    + done.
Qed.

Lemma collect_loop_bound v max_posts script st :
  len (Api.urls st) ≤ max_posts →
  len (Api.urls (api_state (Api.collect_loop v max_posts script st)))
  ≤ max_posts.
Proof.
  assert (∀ s, len (Api.urls s) ≤ max_posts →
               len (Api.urls (api_state (Api.finish v max_posts s)))
               ≤ max_posts) as Hfin.
  { intros s Hs. unfold Api.finish. by destruct (_ || _). }
  revert st. induction script as [|r script IH]; intros st Hb.
  - cbn [Api.collect_loop]. destruct (_ <? _); [done|by apply Hfin].
  - cbn [Api.collect_loop]. destruct (_ <? _); [|by apply Hfin].
    destruct r as [| | |posts|].
    + destruct (3 <=? _); [by apply Hfin|by apply IH].
    + destruct (5 <=? _); [by apply Hfin|by apply IH].
    + destruct (3 <=? _); [by apply Hfin|by apply IH].
    + destruct posts as [|p posts]; [by apply Hfin|].
      pose proof (process_api_response_bound (p :: posts) max_posts
                    (Api.PageState (Api.urls st) (Api.post_ids st) 0 0 0) Hb)
        as Hps.
      set (ps := Api.process_api_response (p :: posts) max_posts _) in *.
      clearbody ps. cbv zeta.
      destruct (Api.zero_new v ps && _); [by apply Hfin|].
      destruct (Api.next_before _ _) as [b|].
      * apply IH. by destruct (_ || _).
      * destruct (3 <=? _); [by apply Hfin|by apply IH].
    + done.
Qed.

Lemma collect_loop_frontier_sublist v max_posts script st :
  api_frontier (Api.collect_loop v max_posts script st)
  `sublist_of` Api.urls (api_state (Api.collect_loop v max_posts script st)).
Proof.
  assert (∀ s, api_frontier (Api.finish v max_posts s)
               `sublist_of` Api.urls (api_state (Api.finish v max_posts s)))
    as Hfin.
  { intros s. destruct (finish_ok v max_posts s) as (s' & -> & Hu & _).
    cbn. rewrite Hu. apply py_take_sublist. }
  revert st. induction script as [|r script IH]; intros st.
  - cbn [Api.collect_loop]. destruct (_ <? _); [done|apply Hfin].
  - cbn [Api.collect_loop]. destruct (_ <? _); [|apply Hfin].
    destruct r as [| | |posts|].
    + destruct (3 <=? _); [apply Hfin|apply IH].
    + destruct (5 <=? _); [apply Hfin|apply IH].
    + destruct (3 <=? _); [apply Hfin|apply IH].
    + destruct posts as [|p posts]; [apply Hfin|]. cbv zeta.
      destruct (Api.zero_new v _ && _); [apply Hfin|].
      destruct (Api.next_before _ _) as [b|]; [apply IH|].
      destruct (3 <=? _); [apply Hfin|apply IH].
    + done.
Qed.

Lemma collect_loop_api_inv v max_posts script st :
  forallb Api.consistent_response script = true →
  api_inv (Api.urls st) (Api.post_ids st) →
  api_inv (Api.urls (api_state (Api.collect_loop v max_posts script st)))
    (Api.post_ids (api_state (Api.collect_loop v max_posts script st))).
Proof.
  assert (∀ s, api_inv (Api.urls s) (Api.post_ids s) →
               api_inv (Api.urls (api_state (Api.finish v max_posts s)))
                 (Api.post_ids (api_state (Api.finish v max_posts s))))
    as Hfin.
  { intros s Hs. unfold Api.finish. by destruct (_ || _). }
  revert st. induction script as [|r script IH]; intros st Hc Hinv.
  - cbn [Api.collect_loop]. destruct (_ <? _); [done|by apply Hfin].
  - cbn [forallb] in Hc. apply andb_prop in Hc as [Hr Hc].
    cbn [Api.collect_loop]. destruct (_ <? _); [|by apply Hfin].
    destruct r as [| | |posts|].
    + destruct (3 <=? _); [by apply Hfin|by apply IH].
    + destruct (5 <=? _); [by apply Hfin|by apply IH].
    + destruct (3 <=? _); [by apply Hfin|by apply IH].
    + destruct posts as [|p posts]; [by apply Hfin|].
      pose proof (process_api_response_inv (p :: posts) max_posts
                    (Api.PageState (Api.urls st) (Api.post_ids st) 0 0 0)
                    Hr Hinv) as Hps.
      set (ps := Api.process_api_response (p :: posts) max_posts _) in *.
      clearbody ps. cbv zeta.
      destruct (Api.zero_new v ps && _); [by apply Hfin|].
      destruct (Api.next_before _ _) as [b|].
      * apply IH; [done|]. by destruct (_ || _).
      * destruct (3 <=? _); [by apply Hfin|by apply IH].
    + done.
Qed.

End ApiInvariants.

Lemma initialize_fresh_ok max_posts bt :
  0 ≤ max_posts →
  frontier_ok max_posts (Api.initialize_collection_state bt None None).
Proof.
  intros H. split; [done|]. split; [constructor|]. by intros e ?%not_elem_of_nil.
Qed.

(** C2, as amended (dedup invariant).  Browser collector ([crawler.py]): for every
    configuration, every target and every behaviour of the pages of
    every source -- whatever links they show, repeated or not, within a
    source or across sources -- the frontier that [collect_post_urls]
    returns, or holds when it is cut short, has no two entries whose
    references derive the same ItemID.  Listing-API collector
    ([stage1_collect_urls.py]), which keys its seen-set on the [id]
    field of each item: for every script of responses whose items carry
    their own id in their permalink, started afresh, the frontier has no
    two entries whose references derive the same ItemID. *)
Theorem frontier_dedup :
  (∀ (max_posts : Z) (sampling_ratios : list (string * float))
     (browser : string → Browser.session) (target_url : string),
     NoDup (Browser.entry_id <$>
              browser_frontier
                (Browser.collect_post_urls max_posts sampling_ratios browser
                   target_url)))
  ∧ (∀ (subreddit_url : string) (max_posts : Z) (before_timestamp : option Z)
       (script : list Api.response),
       forallb Api.consistent_response script = true →
       NoDup (Api.entry_id <$>
                api_frontier
                  (Api.collect_post_urls subreddit_url max_posts
                     before_timestamp None None script))).
Proof.
  split.
  - intros max_posts ratios browser target_url.
    unfold Browser.collect_post_urls.
    destruct (PyStr.contains "/comments/" target_url); [apply NoDup_singleton|].
    destruct (Quota.sampling_counts max_posts ratios) as [counts|];
      [|constructor].
    destruct (Browser.plan_ok max_posts counts); [|constructor].
    apply collect_sources_inv. split; [constructor|].
    by intros e ?%not_elem_of_nil.
  - intros url max_posts bt script Hc.
    unfold Api.collect_post_urls.
    destruct (PyStr.contains "/comments/" url); [apply NoDup_singleton|].
    destruct (String.eqb _ _); [constructor|].
    assert (api_inv [] ∅) as H0.
    { split; [constructor|]. by intros e ?%not_elem_of_nil. }
    set (st0 := Api.initialize_collection_state bt None None).
    assert (api_inv (Api.urls st0) (Api.post_ids st0)) as Hinv by exact H0.
    clearbody st0. clear H0.
    revert st0 Hinv. induction script as [|r script IH]; intros st Hinv; simpl.
    + destruct (_ <? _); [apply Hinv|].
      unfold Api.finish. destruct (_ || _); simpl;
        (eapply sublist_NoDup; [apply Hinv|apply fmap_sublist, py_take_sublist]).
    + simpl in Hc. apply andb_prop in Hc as [Hr Hc]. specialize (IH Hc).
      assert (∀ s, api_inv (Api.urls s) (Api.post_ids s) →
                NoDup (Api.entry_id <$>
                         api_frontier (Api.finish Api.stage1 max_posts s)))
        as Hfin.
      { intros s Hs. unfold Api.finish. destruct (_ || _); simpl;
          (eapply sublist_NoDup; [apply Hs|apply fmap_sublist, py_take_sublist]). }
      destruct (_ <? _); [|by apply Hfin].
      destruct r as [| | |posts|]; simpl.
      * destruct (3 <=? _); [by apply Hfin|by apply IH].
      * destruct (5 <=? _); [by apply Hfin|by apply IH].
      * destruct (3 <=? _); [by apply Hfin|by apply IH].
      * destruct posts as [|p posts]; [by apply Hfin|].
        set (ps := Api.process_api_response (p :: posts) max_posts _).
        assert (api_inv (Api.collected_urls ps) (Api.collected_post_ids ps))
          as Hps by (by apply process_api_response_inv).
        destruct (Api.zero_new_stage1 ps && _); [by apply Hfin|].
        destruct (Api.next_before _ _) as [b|].
        -- apply IH. by destruct (_ || _).
        -- destruct (3 <=? _); [by apply Hfin|by apply IH].
      * apply Hinv.
Qed.

Lemma frontier_dedup_witness :
  NoDup (Api.entry_id <$>
           api_frontier
             (Api.collect_post_urls "https://www.reddit.com/r/dogs/" 10
                (Some 1700000001) None None sample_script)).
Proof.
  apply (proj2 frontier_dedup). vm_compute. reflexivity.
Defined.

(** C2 as stated fails on [stage1_collect_urls.py], which keys its
    seen-set on the [id] field of an item and not on the id that the
    item's url derives: in the listing of the subreddit [comments] the
    items [abc] and [def] are both appended, and the urls of both
    derive the id [comments]. *)
Lemma frontier_repeats_derived_id :
  Api.entry_id <$>
    api_frontier
      (Api.collect_post_urls "https://www.reddit.com/r/comments" 10 None None
         None [Api.Page [comments_post "abc"; comments_post "def"]])
  = [Some "comments"%string; Some "comments"%string]
  ∧ ¬ NoDup (Api.entry_id <$>
               api_frontier
                 (Api.collect_post_urls "https://www.reddit.com/r/comments" 10
                    None None None
                    [Api.Page [comments_post "abc"; comments_post "def"]])).
Proof.
  assert (Api.entry_id <$>
            api_frontier
              (Api.collect_post_urls "https://www.reddit.com/r/comments" 10
                 None None None
                 [Api.Page [comments_post "abc"; comments_post "def"]])
          = [Some "comments"%string; Some "comments"%string]) as E
    by (by vm_compute).
  split; [exact E|]. rewrite E. intros [Hnot _]%NoDup_cons. apply Hnot. left.
Qed.

(* ===================================================================== *)
(** * C3: the frontier is bounded and covered by the seen-set              *)
(* ===================================================================== *)

Lemma process_deleted p pid pl cu max_posts st :
  Api.id p = Some pid → Api.permalink p = Some pl → Api.created_utc p = Val cu →
  PyStr.truthy pid = true → PyStr.truthy pl = true → cu ≠ 0 →
  pid ∉ Api.collected_post_ids st →
  Api.is_deleted_post p = true →
  len (Api.collected_urls st) < max_posts →
  Api.collected_urls (Api.process_api_response [p] max_posts st)
  = Api.collected_urls st
  ∧ Api.collected_post_ids (Api.process_api_response [p] max_posts st)
    = {[pid]} ∪ Api.collected_post_ids st.
Proof.
  intros Hid Hpl Hcu Hti Htp Hcu0 Hfresh Hdel Hlt. simpl.
  destruct (Z.leb_spec max_posts (len (Api.collected_urls st))); [lia|].
  rewrite Hid, Hpl, Hcu, Hti, Htp. simpl.
  destruct (Z.eqb_spec cu 0); [done|]. simpl.
  rewrite bool_decide_eq_false_2 by done. by rewrite Hdel.
Qed.

(** C3, as amended (bounded frontier).  In [stage1_collect_urls.py]:
    - once the sequence has [max_posts] entries, processing a page
      changes nothing, so no entry is appended;
    - for every script of responses, from every starting sequence of at
      most [max_posts] entries (a fresh start with a target that is not
      negative is one), the state the collector has reached -- when it
      returns, when it is interrupted, and at every request in between,
      each of which is the end of a shorter script -- holds a sequence
      of at most [max_posts] entries; and for a listing url the list
      returned has at most [max_posts] entries;
    - for a detail-page url the list returned is that one url, whatever
      [max_posts] is;
    - when the items carry their own id in their permalink, every entry
      of the sequence derives an id that belongs to the seen-id set, in
      every state the collector reaches from a state where this holds;
    - an unseen item that is deleted is added to the seen-id set and
      leaves the sequence as it was, so the set may hold ids of no
      entry. *)
Theorem frontier_bounded :
  (∀ (posts : list Api.post) (max_posts : Z) (st : Api.page_state),
     max_posts ≤ len (Api.collected_urls st) →
     Api.process_api_response posts max_posts st = st)
  ∧ (∀ (subreddit_url : string) (max_posts : Z) (before_timestamp : option Z)
       (existing_urls : option (list Api.entry))
       (collection_progress : option Api.progress) (script : list Api.response),
       len (Api.urls (Api.initialize_collection_state before_timestamp
                        existing_urls collection_progress)) ≤ max_posts →
       len (Api.urls
              (api_state (Api.collect_post_urls subreddit_url max_posts
                            before_timestamp existing_urls collection_progress
                            script))) ≤ max_posts
       ∧ (PyStr.contains "/comments/" subreddit_url = false →
          len (api_frontier
                 (Api.collect_post_urls subreddit_url max_posts before_timestamp
                    existing_urls collection_progress script)) ≤ max_posts))
  ∧ (∀ (subreddit_url : string) (max_posts : Z) (before_timestamp : option Z)
       (existing_urls : option (list Api.entry))
       (collection_progress : option Api.progress) (script : list Api.response),
       PyStr.contains "/comments/" subreddit_url = true →
       api_frontier
         (Api.collect_post_urls subreddit_url max_posts before_timestamp
            existing_urls collection_progress script)
       = [Api.Entry subreddit_url None])
  ∧ (∀ (subreddit_url : string) (max_posts : Z) (before_timestamp : option Z)
       (existing_urls : option (list Api.entry))
       (collection_progress : option Api.progress) (script : list Api.response),
       forallb Api.consistent_response script = true →
       api_inv
         (Api.urls (Api.initialize_collection_state before_timestamp
                      existing_urls collection_progress))
         (Api.post_ids (Api.initialize_collection_state before_timestamp
                          existing_urls collection_progress)) →
       api_inv
         (Api.urls
            (api_state (Api.collect_post_urls subreddit_url max_posts
                          before_timestamp existing_urls collection_progress
                          script)))
         (Api.post_ids
            (api_state (Api.collect_post_urls subreddit_url max_posts
                          before_timestamp existing_urls collection_progress
                          script))))
  ∧ (∀ (p : Api.post) (pid pl : string) (cu max_posts : Z) (st : Api.page_state),
       Api.id p = Some pid → Api.permalink p = Some pl →
       Api.created_utc p = Val cu →
       PyStr.truthy pid = true → PyStr.truthy pl = true → cu ≠ 0 →
       pid ∉ Api.collected_post_ids st →
       Api.is_deleted_post p = true →
       len (Api.collected_urls st) < max_posts →
       Api.collected_urls (Api.process_api_response [p] max_posts st)
       = Api.collected_urls st
       ∧ pid ∈ Api.collected_post_ids (Api.process_api_response [p] max_posts st)).
Proof.
  split; [exact process_api_response_full|]. split; [|split; [|split]].
  - intros url max_posts bt existing progress script Hlen.
    unfold Api.collect_post_urls.
    set (st0 := Api.initialize_collection_state bt existing progress) in *.
    assert (0 ≤ max_posts) as Hmax by (unfold len in Hlen; lia).
    destruct (PyStr.contains "/comments/" url);
      [cbn [api_state]; by split|].
    destruct (String.eqb _ _);
      [cbn [api_state api_frontier]; split; [done|intros _; exact Hmax]|].
    pose proof (collect_loop_bound Api.stage1 max_posts script st0 Hlen) as Hb.
    split; [done|]. intros _.
    pose proof (collect_loop_frontier_sublist Api.stage1 max_posts script st0)
      as Hsub.
    apply sublist_length in Hsub. unfold len in *. lia.
  - intros url max_posts bt existing progress script Hsingle.
    unfold Api.collect_post_urls. by rewrite Hsingle.
  - intros url max_posts bt existing progress script Hc Hinv.
    unfold Api.collect_post_urls.
    destruct (PyStr.contains "/comments/" url); [done|].
    destruct (String.eqb _ _); [done|].
    by apply collect_loop_api_inv.
  - intros p pid pl cu max_posts st Hid Hpl Hcu Hti Htp Hcu0 Hfresh Hdel Hlt.
    destruct (process_deleted p pid pl cu max_posts st) as [-> ->]; try done.
    split; [done|set_solver].
Qed.

Lemma frontier_bounded_witness :
  len (Api.urls
         (api_state (Api.collect_post_urls "https://www.reddit.com/r/dogs/" 3
                       (Some 1700000001) None None sample_script))) ≤ 3
  ∧ (PyStr.contains "/comments/" "https://www.reddit.com/r/dogs/" = false →
     len (api_frontier
            (Api.collect_post_urls "https://www.reddit.com/r/dogs/" 3
               (Some 1700000001) None None sample_script)) ≤ 3).
Proof.
  apply (proj1 (proj2 frontier_bounded)). by vm_compute.
Defined.

(** C3 as stated fails for a detail-page url: [collect_post_urls]
    returns the url as a list of one entry before it looks at
    [max_posts], so with the target 0 the list returned is longer than
    the target. *)
Lemma frontier_exceeds_zero_target :
  api_frontier
    (Api.collect_post_urls "https://www.reddit.com/r/dogs/comments/a1/first/"
       0 None None None [])
  = [Api.Entry "https://www.reddit.com/r/dogs/comments/a1/first/" None]
  ∧ ¬ (len (api_frontier
              (Api.collect_post_urls
                 "https://www.reddit.com/r/dogs/comments/a1/first/"
                 0 None None None [])) ≤ 0).
Proof.
  split; [by vm_compute|]. by vm_compute.
Qed.

(* ===================================================================== *)
(** * C7: stalled pagination                                               *)
(* ===================================================================== *)

Lemma is_new_item_mono ids ids' p :
  ids ⊆ ids' → is_new_item ids p = false → is_new_item ids' p = false.
Proof.
  unfold is_new_item. intros Hsub.
  destruct (Api.id p) as [pid|]; [|done].
  destruct (Api.permalink p); [|done].
  destruct (jget_none (Api.created_utc p)); [|done].
  destruct (PyStr.truthy pid && _ && _); [|done]. simpl.
  destruct (Api.is_deleted_post p); [by rewrite !andb_false_r|].
  rewrite !andb_true_r. intros H%negb_false_iff%bool_decide_eq_true.
  apply negb_false_iff, bool_decide_eq_true. set_solver.
Qed.

Lemma process_stale posts max_posts ids st :
  stale_page ids posts = true →
  ids ⊆ Api.collected_post_ids st →
  Api.collected_urls (Api.process_api_response posts max_posts st)
  = Api.collected_urls st
  ∧ Api.new_count (Api.process_api_response posts max_posts st)
    = Api.new_count st
  ∧ ids ⊆ Api.collected_post_ids (Api.process_api_response posts max_posts st).
Proof.
  revert st. induction posts as [|p rest IH]; intros st Hstale Hsub; simpl;
    [done|].
  simpl in Hstale. apply andb_prop in Hstale as [Hp Hrest].
  apply negb_true_iff in Hp.
  apply (is_new_item_mono _ _ _ Hsub) in Hp. unfold is_new_item in Hp.
  destruct (max_posts <=? _); [done|].
  destruct (Api.id p) as [pid|]; [|by apply IH].
  destruct (Api.permalink p) as [pl|]; [|by apply IH].
  destruct (jget_none (Api.created_utc p)) as [cu|]; [|by apply IH].
  destruct (PyStr.truthy pid && _ && _); [|by apply IH]. simpl in Hp.
  case_bool_decide; simpl in Hp.
  - match goal with
    | |- context [Api.process_api_response rest max_posts ?s] =>
        destruct (IH s) as (? & ? & ?); [done|done|done]
    end.
  - destruct (Api.is_deleted_post p); [|done].
    match goal with
    | |- context [Api.process_api_response rest max_posts ?s] =>
        destruct (IH s) as (? & ? & ?); [done|simpl; set_solver|done]
    end.
Qed.

Lemma process_new_count posts max_posts st :
  Api.new_count (Api.process_api_response posts max_posts st) - Api.new_count st
  = len (Api.collected_urls (Api.process_api_response posts max_posts st))
    - len (Api.collected_urls st).
Proof.
  revert st. induction posts as [|p rest IH]; intros st; simpl; [lia|].
  destruct (max_posts <=? _); [lia|].
  destruct (Api.id p) as [pid|]; [|by apply IH].
  destruct (Api.permalink p) as [pl|]; [|by apply IH].
  destruct (jget_none (Api.created_utc p)) as [cu|]; [|by apply IH].
  destruct (_ && _); [|by apply IH].
  case_bool_decide; [|destruct (Api.is_deleted_post p)];
    match goal with
    | |- context [Api.process_api_response rest max_posts ?s] =>
        pose proof (IH s) as Hs; simpl in Hs
    end; try lia.
  unfold len in *. rewrite length_app in Hs. simpl in Hs. lia.
Qed.

Lemma next_before_dated b posts :
  dated posts = true → ∃ b', Api.next_before b posts = Some b'.
Proof.
  unfold dated, Api.next_before. destruct (last posts) as [p|]; [|by eauto].
  destruct (Api.created_utc p); [done|by eauto|by eauto].
Qed.

Lemma is_unseen_item_mono ids ids' p :
  ids ⊆ ids' → is_unseen_item ids p = false → is_unseen_item ids' p = false.
Proof.
  unfold is_unseen_item. intros Hsub.
  destruct (Api.id p) as [pid|]; [|done].
  destruct (Api.permalink p); [|done].
  destruct (jget_none (Api.created_utc p)); [|done].
  destruct (PyStr.truthy pid && _ && _); [|done]. simpl.
  intros H%negb_false_iff%bool_decide_eq_true.
  apply negb_false_iff, bool_decide_eq_true. set_solver.
Qed.

Lemma stale_page_mono ids ids' posts :
  ids ⊆ ids' → stale_page ids posts = true → stale_page ids' posts = true.
Proof.
  intros Hsub. unfold stale_page. rewrite !forallb_forall.
  intros H x Hx. apply negb_true_iff. eapply is_new_item_mono; [exact Hsub|].
  apply negb_true_iff. by apply H.
Qed.

Lemma seen_page_mono ids ids' posts :
  ids ⊆ ids' → seen_page ids posts = true → seen_page ids' posts = true.
Proof.
  intros Hsub. unfold seen_page. rewrite !forallb_forall.
  intros H x Hx. apply negb_true_iff. eapply is_unseen_item_mono; [exact Hsub|].
  apply negb_true_iff. by apply H.
Qed.

(** A page of items already seen changes none of the counters that the
    [v3] test reads. *)
Lemma process_seen posts max_posts ids st :
  seen_page ids posts = true →
  ids ⊆ Api.collected_post_ids st →
  Api.collected_urls (Api.process_api_response posts max_posts st)
  = Api.collected_urls st
  ∧ Api.new_count (Api.process_api_response posts max_posts st)
    = Api.new_count st
  ∧ Api.deleted_count (Api.process_api_response posts max_posts st)
    = Api.deleted_count st
  ∧ ids ⊆ Api.collected_post_ids (Api.process_api_response posts max_posts st).
Proof.
  revert st. induction posts as [|p rest IH]; intros st Hseen Hsub; simpl;
    [done|].
  simpl in Hseen. apply andb_prop in Hseen as [Hp Hrest].
  apply negb_true_iff in Hp.
  apply (is_unseen_item_mono _ _ _ Hsub) in Hp. unfold is_unseen_item in Hp.
  destruct (max_posts <=? _); [done|].
  destruct (Api.id p) as [pid|]; [|by apply IH].
  destruct (Api.permalink p) as [pl|]; [|by apply IH].
  destruct (jget_none (Api.created_utc p)) as [cu|]; [|by apply IH].
  destruct (PyStr.truthy pid && _ && _); [|by apply IH]. simpl in Hp.
  case_bool_decide; [|done].
  match goal with
  | |- context [Api.process_api_response rest max_posts ?s] =>
      destruct (IH s) as (? & ? & ? & ?); [done|done|done]
  end.
Qed.

(** One turn of the loop on a non-empty page that counts as having
    brought nothing new; on the third such page in a row the loop ends
    before it looks at the last item's timestamp. *)
Lemma zero_turn v max_posts p posts rest st :
  len (Api.urls st) < max_posts →
  Api.zero_new v (page_result max_posts st (p :: posts)) = true →
  (3 <=? Api.consecutive_zero_new st + 1) = true ∨ dated (p :: posts) = true →
  ∃ st',
    Api.urls st' = Api.collected_urls (page_result max_posts st (p :: posts))
    ∧ Api.post_ids st'
      = Api.collected_post_ids (page_result max_posts st (p :: posts))
    ∧ Api.consecutive_zero_new st' = Api.consecutive_zero_new st + 1
    ∧ Api.collect_loop v max_posts (Api.Page (p :: posts) :: rest) st
      = if 3 <=? Api.consecutive_zero_new st + 1
        then Api.finish v max_posts st'
        else Api.collect_loop v max_posts rest st'.
Proof.
  intros Hlt Hzn Hdated. unfold page_result in *. cbn [Api.collect_loop].
  destruct (Z.ltb_spec (len (Api.urls st)) max_posts); [|lia].
  set (ps := Api.process_api_response (p :: posts) max_posts _) in *.
  rewrite !Hzn. cbn [andb].
  destruct (3 <=? Api.consecutive_zero_new st + 1).
  - eexists. split; [|split; [|split; [|reflexivity]]]; done.
  - destruct Hdated as [|Hdated]; [done|].
    destruct (next_before_dated (Api.before st) _ Hdated) as [b ->].
    destruct (_ || _); eexists; (split; [|split; [|split; [|reflexivity]]]); done.
Qed.

(** One turn of the loop on a page that does not count as such: the
    counter goes back to 0 and the next page is asked for. *)
Lemma reset_turn v max_posts posts rest st :
  len (Api.urls st) < max_posts →
  posts ≠ [] →
  Api.zero_new v (page_result max_posts st posts) = false →
  dated posts = true →
  ∃ st',
    Api.collect_loop v max_posts (Api.Page posts :: rest) st
    = Api.collect_loop v max_posts rest st'
    ∧ Api.consecutive_zero_new st' = 0.
Proof.
  intros Hlt Hne Hzn Hdated. destruct posts as [|p posts]; [done|].
  unfold page_result in *. cbn [Api.collect_loop].
  destruct (Z.ltb_spec (len (Api.urls st)) max_posts); [|lia].
  set (ps := Api.process_api_response (p :: posts) max_posts _) in *.
  rewrite !Hzn. cbn [andb].
  destruct (next_before_dated (Api.before st) _ Hdated) as [b ->].
  destruct (_ || _); eexists; (split; [reflexivity|done]).
Qed.

Section ThreePages.

(** A collector, and a class of pages that it counts as having brought
    nothing new. *)
Variable v : Api.variant.
Variable stale : gset string → list Api.post → bool.

Hypothesis stale_mono :
  ∀ ids ids' posts, ids ⊆ ids' → stale ids posts = true → stale ids' posts = true.
Hypothesis stale_zero :
  ∀ max_posts st posts,
    stale (Api.post_ids st) posts = true →
    Api.collected_urls (page_result max_posts st posts) = Api.urls st
    ∧ Api.post_ids st ⊆ Api.collected_post_ids (page_result max_posts st posts)
    ∧ Api.zero_new v (page_result max_posts st posts) = true.

Lemma stale_turn max_posts p posts rest st :
  len (Api.urls st) < max_posts →
  stale (Api.post_ids st) (p :: posts) = true →
  (3 <=? Api.consecutive_zero_new st + 1) = true ∨ dated (p :: posts) = true →
  ∃ st',
    Api.urls st' = Api.urls st
    ∧ Api.post_ids st ⊆ Api.post_ids st'
    ∧ Api.consecutive_zero_new st' = Api.consecutive_zero_new st + 1
    ∧ Api.collect_loop v max_posts (Api.Page (p :: posts) :: rest) st
      = if 3 <=? Api.consecutive_zero_new st + 1
        then Api.finish v max_posts st'
        else Api.collect_loop v max_posts rest st'.
Proof.
  intros Hlt Hstale Hdated.
  destruct (stale_zero max_posts st (p :: posts) Hstale) as (Hu & Hi & Hzn).
  destruct (zero_turn v max_posts p posts rest st Hlt Hzn Hdated)
    as (st' & Hu' & Hi' & Hc & Hrun).
  exists st'. rewrite Hu', Hi'. by repeat split.
Qed.

Lemma three_stale_pages max_posts st p1 p2 p3 rest :
  len (Api.urls st) < max_posts →
  Api.consecutive_zero_new st = 0 →
  p1 ≠ [] → p2 ≠ [] → p3 ≠ [] →
  stale (Api.post_ids st) p1 = true →
  stale (Api.post_ids st) p2 = true →
  stale (Api.post_ids st) p3 = true →
  dated p1 = true → dated p2 = true →
  (∃ st2,
     Api.collect_loop v max_posts [Api.Page p1; Api.Page p2] st = Waiting st2
     ∧ Api.consecutive_zero_new st2 = 2)
  ∧ ∃ st3,
      Api.collect_loop v max_posts
        (Api.Page p1 :: Api.Page p2 :: Api.Page p3 :: rest) st
      = Returned (py_take max_posts (Api.urls st)) st3
      ∧ Api.urls st3 = Api.urls st
      ∧ Api.consecutive_zero_new st3 = 3.
Proof.
  destruct p1 as [|a1 p1], p2 as [|a2 p2], p3 as [|a3 p3];
    intros Hlt Hz ? ? ? H1 H2 H3 Hd1 Hd2; try done.
  assert (∀ tail, ∃ st2,
            Api.urls st2 = Api.urls st
            ∧ Api.post_ids st ⊆ Api.post_ids st2
            ∧ Api.consecutive_zero_new st2 = 2
            ∧ Api.collect_loop v max_posts
                (Api.Page (a1 :: p1) :: Api.Page (a2 :: p2) :: tail) st
              = Api.collect_loop v max_posts tail st2)
    as Htwo.
  { intros tail.
    destruct (stale_turn max_posts a1 p1 (Api.Page (a2 :: p2) :: tail) st Hlt H1)
      as (s1 & Hu1 & Hi1 & Hc1 & ->); [by right|].
    rewrite Hz. simpl (3 <=? 0 + 1).
    destruct (stale_turn max_posts a2 p2 tail s1) as (s2 & Hu2 & Hi2 & Hc2 & ->).
    { by rewrite Hu1. }
    { by eapply stale_mono. }
    { by right. }
    rewrite Hc1, Hz. simpl (3 <=? 0 + 1 + 1).
    exists s2. split; [congruence|]. split; [set_solver|]. split; [lia|done]. }
  split.
  - destruct (Htwo []) as (s2 & Hu & _ & Hc & ->). exists s2. split; [|done].
    simpl. rewrite Hu.
    by destruct (Z.ltb_spec (len (Api.urls st)) max_posts); [|lia].
  - destruct (Htwo (Api.Page (a3 :: p3) :: rest)) as (s2 & Hu & Hi & Hc & ->).
    destruct (stale_turn max_posts a3 p3 rest s2) as (s3 & Hu3 & Hi3 & Hc3 & ->).
    { by rewrite Hu. }
    { by eapply stale_mono. }
    { left. by rewrite Hc. }
    rewrite Hc. simpl (3 <=? 2 + 1).
    destruct (finish_ok v max_posts s3) as (s4 & -> & Hu4 & _ & Hc4).
    exists s4. rewrite Hu3, Hu. split; [done|]. split; [congruence|lia].
Qed.

End ThreePages.

Lemma stale_page_zero max_posts st posts :
  stale_page (Api.post_ids st) posts = true →
  Api.collected_urls (page_result max_posts st posts) = Api.urls st
  ∧ Api.post_ids st ⊆ Api.collected_post_ids (page_result max_posts st posts)
  ∧ Api.zero_new Api.stage1 (page_result max_posts st posts) = true.
Proof.
  intros Hstale. unfold page_result.
  destruct (process_stale posts max_posts (Api.post_ids st)
              (Api.PageState (Api.urls st) (Api.post_ids st) 0 0 0) Hstale)
    as (Hu & Hn & Hi); [done|].
  split; [done|]. split; [done|].
  cbn [Api.zero_new Api.stage1]. unfold Api.zero_new_stage1. by rewrite Hn.
Qed.

Lemma seen_page_zero max_posts st posts :
  seen_page (Api.post_ids st) posts = true →
  Api.collected_urls (page_result max_posts st posts) = Api.urls st
  ∧ Api.post_ids st ⊆ Api.collected_post_ids (page_result max_posts st posts)
  ∧ Api.zero_new Api.v3 (page_result max_posts st posts) = true.
Proof.
  intros Hseen. unfold page_result.
  destruct (process_seen posts max_posts (Api.post_ids st)
              (Api.PageState (Api.urls st) (Api.post_ids st) 0 0 0) Hseen)
    as (Hu & Hn & Hd & Hi); [done|].
  split; [done|]. split; [done|].
  cbn [Api.zero_new Api.v3]. unfold Api.zero_new_v3. by rewrite Hn, Hd.
Qed.

(** C7, as amended (stalled pagination).  From a state below the target
    whose stall counter stands at 0, and for pages of which the first
    two end in an item that has a [created_utc]:

    - [stage1_collect_urls.py]: after two consecutive non-empty pages
      none of whose items is new (each item is malformed, already seen,
      or deleted) the collector asks for the next page; after a third
      page with no new item it returns, with the sequence as it was and
      the counter at 3, whatever the upstream would have answered next.
      A page that appends at least one entry sets the counter to 0 and
      the loop continues.
    - [v3/stage1_collect_urls.py]: the same holds for pages that consist
      of already seen (or malformed) items only.  There a page that
      appends an entry or filters an unseen deleted item sets the
      counter to 0 and the loop continues. *)
Theorem stall_after_three_pages :
  (∀ (max_posts : Z) (st : Api.state) (p1 p2 p3 : list Api.post)
     (rest : list Api.response),
     len (Api.urls st) < max_posts →
     Api.consecutive_zero_new st = 0 →
     p1 ≠ [] → p2 ≠ [] → p3 ≠ [] →
     stale_page (Api.post_ids st) p1 = true →
     stale_page (Api.post_ids st) p2 = true →
     stale_page (Api.post_ids st) p3 = true →
     dated p1 = true → dated p2 = true →
     (∃ st2,
        Api.collect_loop Api.stage1 max_posts [Api.Page p1; Api.Page p2] st
        = Waiting st2
        ∧ Api.consecutive_zero_new st2 = 2)
     ∧ ∃ st3,
         Api.collect_loop Api.stage1 max_posts
           (Api.Page p1 :: Api.Page p2 :: Api.Page p3 :: rest) st
         = Returned (py_take max_posts (Api.urls st)) st3
         ∧ Api.urls st3 = Api.urls st
         ∧ Api.consecutive_zero_new st3 = 3)
  ∧ (∀ (max_posts : Z) (st : Api.state) (p : list Api.post)
       (rest : list Api.response),
       len (Api.urls st) < max_posts →
       len (Api.urls st) < len (Api.collected_urls (page_result max_posts st p)) →
       dated p = true →
       ∃ st',
         Api.collect_loop Api.stage1 max_posts (Api.Page p :: rest) st
         = Api.collect_loop Api.stage1 max_posts rest st'
         ∧ Api.consecutive_zero_new st' = 0)
  ∧ (∀ (max_posts : Z) (st : Api.state) (p1 p2 p3 : list Api.post)
       (rest : list Api.response),
       len (Api.urls st) < max_posts →
       Api.consecutive_zero_new st = 0 →
       p1 ≠ [] → p2 ≠ [] → p3 ≠ [] →
       seen_page (Api.post_ids st) p1 = true →
       seen_page (Api.post_ids st) p2 = true →
       seen_page (Api.post_ids st) p3 = true →
       dated p1 = true → dated p2 = true →
       (∃ st2,
          Api.collect_loop_v3 max_posts [Api.Page p1; Api.Page p2] st
          = Waiting st2
          ∧ Api.consecutive_zero_new st2 = 2)
       ∧ ∃ st3,
           Api.collect_loop_v3 max_posts
             (Api.Page p1 :: Api.Page p2 :: Api.Page p3 :: rest) st
           = Returned (py_take max_posts (Api.urls st)) st3
           ∧ Api.urls st3 = Api.urls st
           ∧ Api.consecutive_zero_new st3 = 3)
  ∧ (∀ (max_posts : Z) (st : Api.state) (p : list Api.post)
       (rest : list Api.response),
       len (Api.urls st) < max_posts →
       len (Api.urls st) < len (Api.collected_urls (page_result max_posts st p))
       ∨ 0 < Api.deleted_count (page_result max_posts st p) →
       dated p = true →
       ∃ st',
         Api.collect_loop_v3 max_posts (Api.Page p :: rest) st
         = Api.collect_loop_v3 max_posts rest st'
         ∧ Api.consecutive_zero_new st' = 0).
Proof.
  assert (∀ max_posts st p,
            len (Api.urls st) < len (Api.collected_urls (page_result max_posts st p)) →
            p ≠ [] ∧ Api.new_count (page_result max_posts st p) ≠ 0) as Hgrow.
  { intros max_posts st p Hlen.
    pose proof (process_new_count p max_posts
                  (Api.PageState (Api.urls st) (Api.post_ids st) 0 0 0)) as Hn.
    unfold page_result in *. simpl in Hn.
    split; [|lia]. intros ->. simpl in Hlen. lia. }
  split; [|split; [|split]].
  - intros max_posts st p1 p2 p3 rest.
    apply (three_stale_pages Api.stage1 stale_page stale_page_mono
             stale_page_zero).
  - intros max_posts st p rest Hlt Hlen Hdated.
    destruct (Hgrow _ _ _ Hlen) as [Hne Hn].
    apply reset_turn; try done.
    cbn [Api.zero_new Api.stage1]. by apply Z.eqb_neq.
  - intros max_posts st p1 p2 p3 rest.
    apply (three_stale_pages Api.v3 seen_page seen_page_mono seen_page_zero).
  - intros max_posts st p rest Hlt Hpage Hdated.
    unfold Api.collect_loop_v3. apply reset_turn; try done.
    + intros ->. destruct Hpage as [Hlen|Hdel].
      * by destruct (Hgrow _ _ _ Hlen).
      * unfold page_result in Hdel. simpl in Hdel. lia.
    + cbn [Api.zero_new Api.v3]. unfold Api.zero_new_v3.
      destruct Hpage as [Hlen|Hdel].
      * destruct (Hgrow _ _ _ Hlen) as [_ Hn].
        apply Z.eqb_neq in Hn. by rewrite Hn.
      * assert (Api.deleted_count (page_result max_posts st p) ≠ 0) as Hd by lia.
        apply Z.eqb_neq in Hd. by rewrite Hd, andb_false_r.
Qed.

Lemma stall_after_three_pages_witness :
  (∃ st2,
     Api.collect_loop Api.stage1 100
       [Api.Page [sample_post "a1" "first"];
        Api.Page [sample_post "a1" "first"; sample_post "b2" "second"]]
       stalled_state = Waiting st2
     ∧ Api.consecutive_zero_new st2 = 2)
  ∧ ∃ st3,
      Api.collect_loop Api.stage1 100 stalled_script stalled_state
      = Returned (py_take 100 (Api.urls stalled_state)) st3
      ∧ Api.urls st3 = Api.urls stalled_state
      ∧ Api.consecutive_zero_new st3 = 3.
Proof.
  apply (proj1 stall_after_three_pages 100 stalled_state); try done.
Defined.

(** C7 as stated fails on [v3/stage1_collect_urls.py]: three consecutive
    pages, each of one unseen deleted item, yield no new item, and the
    collector asks for a fourth page with its counter at 0.  The
    collector of [stage1_collect_urls.py] stops on the same pages. *)
Lemma stall_missed_on_deleted_pages :
  Forall (λ r, ∃ p, r = Api.Page p ∧ p ≠ []
                    ∧ stale_page (Api.post_ids stalled_state) p = true)
    deleted_script
  ∧ (∃ st', Api.collect_loop_v3 100 deleted_script stalled_state = Waiting st'
            ∧ Api.urls st' = Api.urls stalled_state
            ∧ Api.consecutive_zero_new st' = 0)
  ∧ ∃ st', Api.collect_loop Api.stage1 100 deleted_script stalled_state
           = Returned (Api.urls stalled_state) st'.
Proof.
  split; [|split].
  - repeat constructor; eexists; (split; [reflexivity|]); split; done.
  - eexists. split; [vm_compute; reflexivity|]. split; reflexivity.
  - eexists. vm_compute. reflexivity.
Qed.

(* ===================================================================== *)
(** * C6: the comment filter                                               *)
(* ===================================================================== *)

Lemma str_app_cons c a b :
  String.append (String c a) b = String c (String.append a b).
Proof. reflexivity. Qed.

Lemma str_app_nil b : String.append EmptyString b = b.
Proof. reflexivity. Qed.

Ltac str_app := rewrite ?str_app_cons, ?str_app_nil in *.

Lemma prefix_spec p s :
  String.prefix p s = true ↔ ∃ t, s = String.append p t.
Proof.
  revert s. induction p as [|c p IH]; intros s; simpl.
  - destruct s; split; eauto.
  - destruct s as [|d s]; simpl.
    + split; [done|by intros [t ?]].
    + destruct (Ascii.ascii_dec c d) as [->|Hne].
      * rewrite IH. split; intros [t Ht]; exists t; str_app; congruence.
      * split; [done|]. intros [t Ht]. str_app. congruence.
Qed.

Lemma contains_spec needle hay :
  PyStr.contains needle hay = true
  ↔ ∃ pre post, hay = String.append pre (String.append needle post).
Proof.
  induction hay as [|c hay IH]; cbn [PyStr.contains].
  - rewrite orb_false_r, prefix_spec. split.
    + intros [t Ht]. by exists EmptyString, t.
    + intros ([|? pre] & post & H); str_app; [by exists post|done].
  - rewrite orb_true_iff, prefix_spec, IH. split.
    + intros [[t Ht]|(pre & post & Ht)].
      * by exists EmptyString, t.
      * exists (String c pre), post. str_app. by rewrite Ht.
    + intros ([|d pre] & post & H); str_app.
      * left. by exists post.
      * right. exists pre, post. congruence.
Qed.

Lemma lower_app a b :
  PyStr.lower (String.append a b)
  = String.append (PyStr.lower a) (PyStr.lower b).
Proof.
  induction a as [|c a IH]; str_app; simpl; str_app; [done|by rewrite IH].
Qed.

Lemma lower_app_inv s x y :
  PyStr.lower s = String.append x y →
  ∃ s1 s2, s = String.append s1 s2 ∧ PyStr.lower s1 = x ∧ PyStr.lower s2 = y.
Proof.
  revert s. induction x as [|c x IH]; intros s H; str_app.
  - by exists EmptyString, s.
  - destruct s as [|d s]; [done|]. simpl in H. injection H as Hc Hs.
    destruct (IH s Hs) as (s1 & s2 & -> & H1 & H2).
    exists (String d s1), s2. str_app. simpl. by rewrite Hc, H1.
Qed.

Lemma contains_body_lower phrase body :
  phrase ≠ EmptyString →
  PyStr.contains phrase (Comments.body_lower body) = true
  ↔ occurs_ignoring_case phrase body.
Proof.
  intros Hne. rewrite contains_spec. unfold Comments.body_lower. split.
  - intros (pre & post & H). destruct body as [b|].
    + assert (PyStr.lower b = String.append pre (String.append phrase post))
        as Hb.
      { by destruct b. }
      apply lower_app_inv in Hb as (s1 & s2 & -> & H1 & H2).
      apply lower_app_inv in H2 as (s3 & s4 & -> & H3 & H4).
      by exists (String.append s1 (String.append s3 s4)), s1, s3, s4.
    + destruct pre, phrase; done.
  - intros (b & pre & mid & post & -> & -> & <-).
    exists (PyStr.lower pre), (PyStr.lower post).
    destruct (PyStr.truthy _) eqn:E.
    + by rewrite !lower_app.
    + destruct pre; [|done]. destruct mid; [|done]. done.
Qed.

Lemma is_str_spec (v : option string) (s : string) :
  Comments.is_str v s = true ↔ v = Some s.
Proof.
  destruct v as [a|]; simpl; [|done].
  rewrite String.eqb_eq. split; congruence.
Qed.

(** C6, as amended (the filter).
    [_is_bot_or_mod_comment_or_deleted(author, body)], the filter of the
    flat-payload crawler, returns true exactly when [author] is the
    moderation identity ["AutoModerator"], or [author] is the deletion
    sentinel ["[deleted]"], or the lowered [body] contains one of
    ["i am a bot"], ["moderator"] and ["[deleted]"].
    [_is_bot_or_mod_comment(author, body)], the filter of the
    nested-payload crawler, has no deletion sentinel: it returns true
    exactly when [author] is ["AutoModerator"] or the lowered [body]
    contains one of ["i am a bot"] and ["moderator"].  Each returns
    false for every other pair. *)
Theorem should_filter_exact :
  (∀ author body : option string,
     Comments.is_bot_or_mod_comment_or_deleted author body = true
     ↔ author = Some "AutoModerator"%string
       ∨ author = Some "[deleted]"%string
       ∨ occurs_ignoring_case "i am a bot" body
       ∨ occurs_ignoring_case "moderator" body
       ∨ occurs_ignoring_case "[deleted]" body)
  ∧ (∀ author body : option string,
       Comments.is_bot_or_mod_comment author body = true
       ↔ author = Some "AutoModerator"%string
         ∨ occurs_ignoring_case "i am a bot" body
         ∨ occurs_ignoring_case "moderator" body).
Proof.
  split; intros author body.
  - unfold Comments.is_bot_or_mod_comment_or_deleted.
    rewrite <-!contains_body_lower by done.
    pose proof (is_str_spec author) as Ha.
    destruct (Comments.is_str author "AutoModerator") eqn:E1.
    { split; [intros _; left; by apply Ha|done]. }
    destruct (Comments.is_str author "[deleted]") eqn:E2.
    { split; [intros _; right; left; by apply Ha|done]. }
    simpl.
    destruct (PyStr.contains "i am a bot" _), (PyStr.contains "moderator" _),
      (PyStr.contains "[deleted]" _); simpl; split; auto 6;
      intros [H|[H|[H|[H|H]]]]; try done; apply Ha in H; congruence.
  - unfold Comments.is_bot_or_mod_comment.
    rewrite <-!contains_body_lower by done.
    pose proof (is_str_spec author "AutoModerator") as Ha.
    destruct (Comments.is_str author "AutoModerator").
    + split; [intros _; left; by apply Ha|done].
    + destruct (PyStr.contains "i am a bot" _), (PyStr.contains "moderator" _);
        simpl; split; auto; intros [H|[H|H]]; try done; by apply Ha in H.
Qed.

(** C6 as stated fails on [stage2_crawl_posts.py]: its filter keeps a
    comment whose author is the deletion sentinel, and one whose body
    is the sentinel; the filter of [stage2_crawl_posts_pullpush.py]
    removes both. *)
Lemma filter_keeps_deleted_author :
  Comments.is_bot_or_mod_comment (Some "[deleted]"%string) (Some "hello"%string)
  = false
  ∧ Comments.is_bot_or_mod_comment (Some "alice"%string)
      (Some "[deleted]"%string) = false
  ∧ Comments.is_bot_or_mod_comment_or_deleted (Some "[deleted]"%string)
      (Some "hello"%string) = true
  ∧ Comments.is_bot_or_mod_comment_or_deleted (Some "alice"%string)
      (Some "[deleted]"%string) = true.
Proof. repeat split; vm_compute; reflexivity. Qed.

(* ===================================================================== *)
(** * C4: counting and reply counts                                        *)
(* ===================================================================== *)

Lemma comment_rect' (P : Comments.comment → Prop) :
  (∀ a t s ct rs n, Forall P rs → P (Comments.Comment a t s ct rs n)) →
  ∀ c, P c.
Proof.
  intros H. fix IH 1. intros [a t s ct rs n]. apply H.
  induction rs as [|r rs IHrs]; constructor; [apply IH|exact IHrs].
Qed.

Lemma raw_node_rect' (P : Comments.raw_node → Prop) :
  (∀ k a b s cu, P (Comments.RawNode k a b s cu None)) →
  (∀ k a b s cu children,
     Forall P children → P (Comments.RawNode k a b s cu (Some children))) →
  ∀ c, P c.
Proof.
  intros H0 H. fix IH 1. intros [k a b s cu [children|]]; [|apply H0].
  apply H. induction children as [|r rs IHrs]; constructor; [apply IH|exact IHrs].
Qed.

Lemma nodes_unfold c :
  Comments.nodes c = c :: Comments.forest_nodes (Comments.replies c).
Proof.
  by destruct c.
Qed.

Lemma count_comments_from comments count :
  fold_left (λ count c, count + Comments.count_comment c) comments count
  = count + Comments.count_comments comments.
Proof.
  unfold Comments.count_comments. revert count.
  induction comments as [|c cs IH]; intros count; simpl; [lia|].
  rewrite IH, (IH (0 + _)). lia.
Qed.

Lemma count_comment_unfold c :
  Comments.count_comment c = 1 + Comments.count_comments (Comments.replies c).
Proof.
  destruct c as [a t s ct rs n]. simpl. by destruct rs.
Qed.

Lemma count_comments_cons c cs :
  Comments.count_comments (c :: cs)
  = Comments.count_comment c + Comments.count_comments cs.
Proof.
  unfold Comments.count_comments at 1. simpl. rewrite count_comments_from. lia.
Qed.

Lemma count_comment_nodes c :
  Comments.count_comment c = len (Comments.nodes c).
Proof.
  induction c as [a t s ct rs n IH] using comment_rect'.
  rewrite count_comment_unfold, nodes_unfold. simpl Comments.replies.
  unfold len. simpl length. rewrite Nat2Z.inj_succ.
  enough (Comments.count_comments rs
          = Z.of_nat (length (Comments.forest_nodes rs))) by lia.
  induction IH as [|r rs Hr _ IHrs]; [done|].
  rewrite count_comments_cons, Hr, IHrs.
  unfold Comments.forest_nodes, len. simpl. rewrite length_app. lia.
Qed.

Lemma count_comments_nodes comments :
  Comments.count_comments comments = len (Comments.forest_nodes comments).
Proof.
  induction comments as [|c cs IH]; [done|].
  rewrite count_comments_cons, IH, count_comment_nodes.
  unfold Comments.forest_nodes, len. simpl. rewrite length_app. lia.
Qed.

Lemma forest_counted comments :
  Forall (λ c, Forall counted (Comments.nodes c)) comments →
  Forall counted (Comments.forest_nodes comments).
Proof.
  induction 1 as [|c cs Hc _ IH]; [constructor|].
  unfold Comments.forest_nodes. simpl. by apply Forall_app.
Qed.

Lemma Forall_omap {A B} (f : A → option B) (P : A → Prop) (Q : B → Prop) l :
  Forall P l → (∀ a b, P a → f a = Some b → Q b) → Forall Q (omap f l).
Proof.
  intros Hl HPQ. induction Hl as [|a l Ha _ IH]; simpl; [constructor|].
  destruct (f a) eqn:E; [constructor; eauto|done].
Qed.

Lemma parse_comment_counted raw c :
  Comments.parse_comment raw = Some c → Forall counted (Comments.nodes c).
Proof.
  revert c. induction raw as [k a b s cu|k a b s cu children IH]
    using raw_node_rect'; intros c; simpl.
  - destruct (Comments.is_str k "more"); [done|].
    destruct (Comments.is_bot_or_mod_comment _ _); [done|].
    intros [= <-]. rewrite nodes_unfold. simpl. by repeat constructor.
  - destruct (Comments.is_str k "more"); [done|].
    destruct (Comments.is_bot_or_mod_comment _ _); [done|].
    intros [= <-]. rewrite nodes_unfold. simpl. constructor; [done|].
    apply forest_counted.
    eapply Forall_omap; [exact IH|]. intros r c' Hr. apply Hr.
Qed.

Lemma parse_comments_counted comments_tree :
  Forall counted (Comments.forest_nodes (Comments.parse_comments comments_tree)).
Proof.
  apply forest_counted. unfold Comments.parse_comments.
  eapply (Forall_omap _ (λ _, True)); [by apply Forall_true|].
  intros r c _. apply parse_comment_counted.
Qed.

(** ** The flat builder: where each comment is linked *)

Section FlatBuilder.

Import Comments.

Lemma image_get {A B} (f : A → B) d k :
  PyDict.get k (image f d) = f <$> PyDict.get k d.
Proof.
  induction d as [|[k' s] d IH]; simpl; [done|].
  by destruct (String.eqb k' k).
Qed.

Lemma image_keys {A B} (f : A → B) d :
  PyDict.keys (image f d) = PyDict.keys d.
Proof.
  unfold PyDict.keys, image. rewrite map_map. by apply map_ext.
Qed.

Lemma image_set {A B} (f : A → B) d k s s' :
  PyDict.get k d = Some s → f s' = f s →
  image f (PyDict.set k s' d) = image f d.
Proof.
  induction d as [|[k0 s0] d IH]; simpl; [done|].
  destruct (String.eqb_spec k0 k) as [->|Hne]; simpl.
  - intros [= ->] Hf. by rewrite Hf.
  - intros Hg Hf. by rewrite IH.
Qed.

Lemma image_length {A B} (f : A → B) d : length (image f d) = length d.
Proof. unfold image. by rewrite length_map. Qed.

Lemma mem_keys {A} k (d : list (string * A)) :
  PyDict.mem k d = true ↔ k ∈ PyDict.keys d.
Proof.
  unfold PyDict.mem. rewrite <-dict_get_is_Some.
  destruct (PyDict.get k d).
  - split; [by eexists|done].
  - split; [done|by intros [? ?]].
Qed.

Lemma mem_image {A B} (f : A → B) d k :
  PyDict.mem k (image f d) = PyDict.mem k d.
Proof.
  unfold PyDict.mem. rewrite image_get. by destruct (PyDict.get k d).
Qed.

Lemma target_skel d d' c :
  image skel_slot d = image skel_slot d' → target d c = target d' c.
Proof.
  intros H. unfold target.
  pose proof (image_get skel_slot d c) as H1.
  pose proof (image_get skel_slot d' c) as H2.
  rewrite H in H1. rewrite H1 in H2.
  assert (∀ k, PyDict.mem k d = PyDict.mem k d') as Hmem.
  { intros k. by rewrite <-(mem_image skel_slot d), H, mem_image. }
  destruct (PyDict.get c d) as [s|], (PyDict.get c d') as [s'|];
    simpl in *; try done.
  injection H2 as _ _ _ _ Hp. rewrite Hp.
  destruct (parent_id s'); simpl; [|done].
  unfold classify. by rewrite Hmem.
Qed.

Lemma filter_target_ext d d2 t (l : list string) :
  (∀ c, target d2 c = target d c) →
  filter (λ c, target d2 c = Some t) l = filter (λ c, target d c = Some t) l.
Proof. intros H. apply list_filter_iff. intros c. by rewrite H. Qed.

Lemma link_loop_spec items d roots :
  (∀ c, c ∈ items → is_Some (target d c)) →
  ∃ d',
    link_loop items d roots
    = Some (d', roots ++ filter (λ c, target d c = Some ToRoot) items)
    ∧ image skel_slot d' = image skel_slot d
    ∧ ∀ k s, PyDict.get k d = Some s →
        ∃ s', PyDict.get k d' = Some s'
              ∧ n_replies (data s')
                = n_replies (data s)
                  ++ filter (λ c, target d c = Some (ToParent k)) items
              ∧ n_reply_count (data s') = n_reply_count (data s).
Proof.
  revert d roots. induction items as [|c rest IH]; intros d roots Hall.
  - exists d. simpl. rewrite app_nil_r. split; [done|]. split; [done|].
    intros k s Hk. exists s. by rewrite app_nil_r.
  - destruct (Hall c ltac:(left)) as [tgt Htgt].
    assert (∀ c', c' ∈ rest → is_Some (target d c')) as Hrest.
    { intros c' Hc'. apply Hall. by right. }
    pose proof Htgt as Htgt'. unfold target in Htgt'.
    destruct (PyDict.get c d) as [info|] eqn:Hinfo; simpl in Htgt'; [|done].
    destruct (parent_id info) as [pid|] eqn:Hpid; simpl in Htgt'; [|done].
    injection Htgt' as Hcls.
    cbn [link_loop]. rewrite Hinfo. cbn [mbind option_bind]. rewrite Hpid.
    cbn [mbind option_bind].
    unfold classify in Hcls.
    destruct (PyStr.startswith pid "t3_") eqn:E3.
    { subst tgt. destruct (IH d (roots ++ [c]) Hrest) as (d' & -> & Hsk & Hrep).
      exists d'. rewrite filter_cons_True by done.
      rewrite <-app_assoc. split; [done|]. split; [done|].
      intros k s Hk. destruct (Hrep k s Hk) as (s' & ? & ? & ?).
      exists s'. by rewrite filter_cons_False by (rewrite Htgt; congruence). }
    destruct (PyStr.startswith pid "t1_") eqn:E1.
    2:{ subst tgt. destruct (IH d roots Hrest) as (d' & -> & Hsk & Hrep).
        exists d'. rewrite filter_cons_False by (rewrite Htgt; congruence).
        split; [done|]. split; [done|].
        intros k s Hk. destruct (Hrep k s Hk) as (s' & ? & ? & ?).
        exists s'. by rewrite filter_cons_False by (rewrite Htgt; congruence). }
    unfold PyDict.mem in Hcls.
    destruct (PyDict.get (PyStr.drop 3 pid) d) as [parent|] eqn:Hparent.
    2:{ subst tgt. destruct (IH d (roots ++ [c]) Hrest) as (d' & -> & Hsk & Hrep).
        exists d'. rewrite filter_cons_True by done.
        rewrite <-app_assoc. split; [done|]. split; [done|].
        intros k s Hk. destruct (Hrep k s Hk) as (s' & ? & ? & ?).
        exists s'. by rewrite filter_cons_False by (rewrite Htgt; congruence). }
    subst tgt. set (p := PyStr.drop 3 pid) in *.
    set (d2 := PyDict.set p (append_reply parent c) d).
    assert (image skel_slot d2 = image skel_slot d) as Hsk2.
    { by apply image_set with parent. }
    assert (∀ c', target d2 c' = target d c') as Ht2.
    { intros c'. by apply target_skel. }
    destruct (IH d2 roots) as (d' & -> & Hsk & Hrep).
    { intros c' Hc'. rewrite Ht2. by apply Hrest. }
    exists d'. rewrite filter_cons_False by (rewrite Htgt; congruence).
    split; [by rewrite (filter_target_ext d d2)|].
    split; [congruence|].
    intros k s Hk.
    destruct (String.eqb_spec p k) as [<-|Hne].
    + destruct (Hrep p (append_reply parent c)) as (s' & Hs' & Hr & Hn).
      { unfold d2. by rewrite dict_get_set, String.eqb_refl. }
      exists s'. split; [done|]. rewrite Hk in Hparent. injection Hparent as ->.
      rewrite Hr, Hn. simpl. rewrite filter_cons_True by done.
      rewrite <-app_assoc. split; [|done]. simpl.
      by rewrite (filter_target_ext d d2).
    + destruct (Hrep k s) as (s' & Hs' & Hr & Hn).
      { unfold d2. rewrite dict_get_set.
        by destruct (String.eqb_spec p k). }
      exists s'. split; [done|]. rewrite Hr, Hn.
      rewrite filter_cons_False by (rewrite Htgt; congruence).
      split; [|done]. by rewrite (filter_target_ext d d2).
Qed.

(** ** The flat builder: what the first pass stores *)

Lemma index_loop_get flat_comments d k :
  PyDict.get k (index_loop flat_comments d)
  = match last (filter (λ c, indexed c = Some k) flat_comments) with
    | Some c => Some (slot_of c)
    | None => PyDict.get k d
    end.
Proof.
  revert d. induction flat_comments as [|c rest IH]; intros d; [done|].
  cbn [index_loop].
  destruct (f_comment_id c) as [kc|] eqn:Hid.
  2:{ rewrite IH, filter_cons_False; [done|]. unfold indexed. by rewrite Hid. }
  destruct (PyStr.truthy kc) eqn:Ht.
  2:{ rewrite IH, filter_cons_False; [done|]. unfold indexed. by rewrite Hid, Ht. }
  rewrite IH, dict_get_set. fold (slot_of c).
  destruct (String.eqb_spec kc k) as [->|Hne].
  - rewrite filter_cons_True by (unfold indexed; by rewrite Hid, Ht).
    destruct (filter _ rest) as [|f l]; [done|].
    change (last (c :: f :: l)) with (last (f :: l)).
    destruct (last (f :: l)) eqn:E; [done|]. by apply last_None in E.
  - rewrite filter_cons_False; [done|]. unfold indexed. rewrite Hid, Ht. congruence.
Qed.

Lemma dict_set_keys_NoDup {V} k (v : V) d :
  NoDup (PyDict.keys d) → NoDup (PyDict.keys (PyDict.set k v d)).
Proof.
  intros Hnd. destruct (decide (k ∈ PyDict.keys d)) as [Hin|Hout].
  - by rewrite dict_keys_set.
  - rewrite dict_set_fresh by done. unfold PyDict.keys in *.
    rewrite map_app. simpl. apply NoDup_app. split; [done|].
    split; [|apply NoDup_singleton].
    by intros x Hx ->%list_elem_of_singleton.
Qed.

Lemma index_loop_NoDup flat_comments d :
  NoDup (PyDict.keys d) → NoDup (PyDict.keys (index_loop flat_comments d)).
Proof.
  revert d. induction flat_comments as [|c rest IH]; intros d Hd; simpl; [done|].
  destruct (f_comment_id c) as [kc|]; [|by apply IH].
  destruct (PyStr.truthy kc); apply IH; [|done].
  by apply dict_set_keys_NoDup.
Qed.

Lemma last_filter_Some {A} (P : A → Prop) `{∀ x, Decision (P x)} l x :
  last (filter P l) = Some x → x ∈ l ∧ P x.
Proof.
  intros Hl. apply last_Some_elem_of in Hl. by apply list_elem_of_filter in Hl as [? ?].
Qed.

Lemma index_loop_slot flat_comments k s :
  PyDict.get k (index_loop flat_comments []) = Some s →
  ∃ c, c ∈ flat_comments ∧ indexed c = Some k ∧ s = slot_of c.
Proof.
  rewrite index_loop_get.
  destruct (last _) as [c|] eqn:Hl; [|done].
  intros [= <-]. apply last_filter_Some in Hl as [? ?]. by exists c.
Qed.

Lemma index_loop_absent flat_comments k :
  (∀ c, c ∈ flat_comments → indexed c ≠ Some k) →
  PyDict.get k (index_loop flat_comments []) = None.
Proof.
  intros H. rewrite index_loop_get.
  destruct (last _) as [c|] eqn:Hl; [|done].
  apply last_filter_Some in Hl as [? ?]. by destruct (H c).
Qed.

Lemma index_loop_present flat_comments k b :
  b ∈ flat_comments → indexed b = Some k →
  (∀ c, c ∈ flat_comments → indexed c = Some k → c = b) →
  PyDict.get k (index_loop flat_comments []) = Some (slot_of b).
Proof.
  intros Hb Hk Huniq. rewrite index_loop_get.
  destruct (last _) as [c|] eqn:Hl.
  - apply last_filter_Some in Hl as [? ?]. by rewrite (Huniq c).
  - apply last_None in Hl.
    assert (b ∈ filter (λ c, indexed c = Some k) flat_comments) as Hin
      by (by apply list_elem_of_filter).
    rewrite Hl in Hin. by apply not_elem_of_nil in Hin.
Qed.

(** ** The flat builder: the linked store is a forest *)

Lemma strip_replies s s' :
  strip_slot s' = strip_slot s → n_replies (data s') = n_replies (data s).
Proof. intros H. by apply (f_equal snd) in H. Qed.

Lemma strip_skel s s' :
  strip_slot s' = strip_slot s → skel_slot s' = skel_slot s.
Proof. intros H. by apply (f_equal fst) in H. Qed.

Lemma strip_get d d' k s :
  image strip_slot d = image strip_slot d' →
  PyDict.get k d = Some s →
  ∃ s', PyDict.get k d' = Some s' ∧ strip_slot s' = strip_slot s.
Proof.
  intros H Hk. pose proof (image_get strip_slot d k) as H1.
  rewrite H, image_get, Hk in H1.
  destruct (PyDict.get k d') as [s'|]; [|done].
  exists s'. split; [done|]. simpl in H1. congruence.
Qed.

Lemma deep_mono n d d' k :
  image strip_slot d = image strip_slot d' →
  (∀ k, counted_at d k → counted_at d' k) →
  deep n d k → deep n d' k.
Proof.
  intros Hs Hc. revert k. induction n as [|n IH]; intros k; simpl; [done|].
  intros (s & Hk & Hn & Hall).
  destruct (Hc k) as (s' & Hk' & Hn'); [by exists s|].
  destruct (strip_get d d' k s Hs Hk) as (s'' & Hk'' & Hst).
  rewrite Hk' in Hk''. injection Hk'' as <-.
  exists s'. split; [done|]. split; [done|].
  rewrite (strip_replies _ _ Hst). eapply Forall_impl; [exact Hall|]. auto.
Qed.

Section Forest.

Variable d1 : list (string * slot).
Variable ks : list string.
Variable tg : string → option link_target.

Hypothesis Hks : PyDict.keys d1 = ks.
Hypothesis Htg_in : ∀ c t, tg c = Some t → c ∈ ks.
Hypothesis Htg_parent : ∀ c p, tg c = Some (ToParent p) → p ∈ ks.
Hypothesis Hrep :
  ∀ k s, PyDict.get k d1 = Some s →
    n_replies (data s) = filter (λ c, tg c = Some (ToParent k)) ks.

Local Abbreviation ups := (ups tg).
Local Abbreviation reachable := (reachable ks tg).
Local Abbreviation counts_from := (counts_from d1).

Lemma ups_unique c l l' : ups c l → ups c l' → l = l'.
Proof.
  intros H. revert l'. induction H as [c Hc|c p l Hc Hp IH]; intros l' H'.
  - inversion H'; [done|congruence].
  - inversion H' as [|c' p' l'' Hc' Hp']; subst; [congruence|].
    assert (p' = p) as -> by congruence. f_equal. by apply IH.
Qed.

Lemma ups_ancestor c l x :
  ups c l → x ∈ l → ∃ l', ups x l' ∧ (length l' < length l)%nat.
Proof.
  induction 1 as [c Hc|c p l Hc Hp IH]; [by intros ?%not_elem_of_nil|].
  intros [->|Hx]%elem_of_cons.
  - exists l. split; [done|simpl; lia].
  - destruct (IH Hx) as (l' & ? & ?). exists l'. split; [done|simpl; lia].
Qed.

Lemma ups_NoDup c l : ups c l → NoDup (c :: l).
Proof.
  induction 1 as [c Hc|c p l Hc Hp IH]; [apply NoDup_singleton|].
  apply NoDup_cons. split; [|done].
  intros Hin.
  destruct (ups_ancestor c (p :: l) c) as (l' & Hl' & Hlen);
    [by econstructor|done|].
  assert (l' = p :: l) as -> by (eapply ups_unique; [done|by econstructor]).
  lia.
Qed.

Lemma ups_keys c l : ups c l → ∀ x, x ∈ c :: l → x ∈ ks.
Proof.
  induction 1 as [c Hc|c p l Hc Hp IH]; intros x.
  - intros ->%list_elem_of_singleton. by eapply Htg_in.
  - intros [->|Hx]%elem_of_cons; [by eapply Htg_in|by apply IH].
Qed.

Lemma ups_length c l : ups c l → (S (length l) ≤ length ks)%nat.
Proof.
  intros H. change (S (length l)) with (length (c :: l)).
  apply submseteq_length, NoDup_submseteq; [by apply ups_NoDup|].
  by apply ups_keys.
Qed.

Lemma set_count_counted d c s :
  PyDict.get c d = Some s →
  image strip_slot (PyDict.set c (set_count s) d) = image strip_slot d
  ∧ counted_at (PyDict.set c (set_count s) d) c
  ∧ ∀ k, counted_at d k → counted_at (PyDict.set c (set_count s) d) k.
Proof.
  intros Hc. split; [by apply image_set with s|]. split.
  - exists (set_count s). by rewrite dict_get_set, String.eqb_refl.
  - intros k (s' & Hk & Hn). unfold counted_at. rewrite dict_get_set.
    destruct (String.eqb_spec c k) as [->|]; [|by exists s'].
    by exists (set_count s).
Qed.

Lemma fold_counts_ok f :
  (∀ c d, reachable f c → image strip_slot d = image strip_slot d1 →
     counts_from f c d) →
  ∀ cs d, Forall (reachable f) cs →
    image strip_slot d = image strip_slot d1 →
    ∃ d', fold_opt (update_counts f) cs d = Some d'
          ∧ image strip_slot d' = image strip_slot d1
          ∧ (∀ k, counted_at d k → counted_at d' k)
          ∧ Forall (deep f d') cs.
Proof.
  intros Hstep cs. induction cs as [|x cs IHcs]; intros d Hcs Hd.
  - exists d. by repeat split.
  - apply Forall_cons in Hcs as [Hx Hcs].
    destruct (Hstep x d Hx Hd) as (d2 & Hu & Hd2 & Hm2 & Hdeep).
    destruct (IHcs d2 Hcs Hd2) as (d3 & Hf & Hd3 & Hm3 & Hall).
    exists d3. simpl. rewrite Hu. split; [done|]. split; [done|].
    split; [auto|]. constructor; [|done].
    eapply deep_mono; [|exact Hm3|exact Hdeep]. congruence.
Qed.

Lemma update_counts_ok fuel :
  ∀ c d, reachable fuel c →
    image strip_slot d = image strip_slot d1 →
    counts_from fuel c d.
Proof.
  induction fuel as [|f IH]; intros c d (l & Hl & Hlen) Hd.
  { apply ups_length in Hl. simpl in Hlen. lia. }
  assert (c ∈ ks) as Hc by (eapply ups_keys; [done|left]).
  rewrite <-Hks in Hc. apply dict_get_is_Some in Hc as [s1 Hs1].
  symmetry in Hd.
  destruct (strip_get d1 d c s1 Hd Hs1) as (s & Hs & Hst). symmetry in Hd.
  unfold counts_from. cbn [update_counts]. rewrite Hs. cbn [mbind option_bind].
  destruct (set_count_counted d c s Hs) as (HdA & HcA & HmA).
  set (dA := PyDict.set c (set_count s) d) in *.
  assert (Forall (reachable f) (n_replies (data s))) as Hkids.
  { rewrite (strip_replies _ _ Hst), (Hrep c s1 Hs1).
    apply Forall_forall. intros x [Hx _]%list_elem_of_filter.
    exists (c :: l). split; [by econstructor|simpl; lia]. }
  destruct (fold_counts_ok f IH (n_replies (data s)) dA Hkids)
    as (d' & Hf & Hd' & Hm & Hall).
  { congruence. }
  exists d'. split; [done|]. split; [done|]. split; [auto|].
  destruct (Hm c HcA) as (s' & Hs' & Hn').
  assert (image strip_slot dA = image strip_slot d') as HAd by congruence.
  destruct (strip_get dA d' c (set_count s) HAd) as (s'' & Hs'' & Hst'').
  { unfold dA. by rewrite dict_get_set, String.eqb_refl. }
  rewrite Hs' in Hs''. injection Hs'' as <-.
  exists s'. split; [done|]. split; [done|].
  by rewrite (strip_replies _ _ Hst'').
Qed.

End Forest.

(** ** The flat builder: the value returned *)

Lemma reify_fields n d k t :
  reify n d k = Some t →
  ∃ s, PyDict.get k d = Some s
       ∧ author t = n_author (data s) ∧ text t = n_text (data s)
       ∧ score t = n_score (data s)
       ∧ created_time t = n_created_time (data s).
Proof.
  destruct n as [|n]; [done|]. cbn [reify].
  destruct (PyDict.get k d) as [s|]; [|done]. cbn [mbind option_bind].
  destruct (mapM _ _) as [rs|]; [|done]. cbn [mbind option_bind].
  intros [= <-]. by exists s.
Qed.

Lemma reify_ok n d k :
  deep n d k → ∃ t, reify n d k = Some t ∧ Forall counted (nodes t).
Proof.
  revert k. induction n as [|n IH]; intros k; [done|].
  intros (s & Hk & Hn & Hall). cbn [reify]. rewrite Hk. cbn [mbind option_bind].
  assert (∀ l, Forall (deep n d) l →
            ∃ ts, mapM (reify n d) l = Some ts
                  ∧ length ts = length l
                  ∧ Forall (λ t, Forall counted (nodes t)) ts) as Hkids.
  { intros l Hl. induction Hl as [|x xs Hx _ IHxs].
    - exists []. by repeat split.
    - destruct (IH x Hx) as (t & Ht & Hc).
      destruct IHxs as (ts & Hts & Hlen & Hcs).
      exists (t :: ts). rewrite mapM_Some in Hts |- *.
      split; [by constructor|]. split; [simpl; lia|by constructor]. }
  destruct (Hkids _ Hall) as (ts & -> & Hlen & Hts).
  cbn [mbind option_bind]. eexists. split; [done|].
  rewrite nodes_unfold. constructor.
  - unfold counted, len. simpl. rewrite Hn, Hlen. done.
  - by apply forest_counted.
Qed.

Lemma link_loop_Some_inv items d roots r :
  link_loop items d roots = Some r → ∀ c, c ∈ items → is_Some (target d c).
Proof.
  revert d roots. induction items as [|c rest IH]; intros d roots Hr x;
    [by intros ?%not_elem_of_nil|].
  cbn [link_loop] in Hr.
  destruct (PyDict.get c d) as [info|] eqn:Hinfo; [|done].
  cbn [mbind option_bind] in Hr.
  destruct (parent_id info) as [pid|] eqn:Hpid; [|done].
  cbn [mbind option_bind] in Hr.
  intros [->|Hx]%elem_of_cons.
  { unfold target. rewrite Hinfo. simpl. rewrite Hpid. by eexists. }
  destruct (PyStr.startswith pid "t3_"); [by eapply IH|].
  destruct (PyStr.startswith pid "t1_"); [|by eapply IH].
  destruct (PyDict.get (PyStr.drop 3 pid) d) as [parent|] eqn:Hparent;
    [|by eapply IH].
  rewrite <-(target_skel
               (PyDict.set (PyStr.drop 3 pid) (append_reply parent c) d) d);
    [by eapply IH|].
  by apply image_set with parent.
Qed.

Lemma payload_targets flat_comments :
  Forall (λ c, is_Some (f_parent_id c)) flat_comments →
  ∀ c, c ∈ PyDict.keys (index_loop flat_comments []) →
       is_Some (target (index_loop flat_comments []) c).
Proof.
  intros Hall c Hc. apply dict_get_is_Some in Hc as [s Hs].
  unfold target. rewrite Hs. simpl.
  apply index_loop_slot in Hs as (fc & Hfc & _ & ->).
  rewrite Forall_forall in Hall. destruct (Hall fc Hfc) as [pid Hpid].
  simpl. rewrite Hpid. by eexists.
Qed.

(** The store and the roots that the three passes produce. *)
Lemma build_store_spec flat_comments :
  (∀ c, c ∈ PyDict.keys (index_loop flat_comments []) →
        is_Some (target (index_loop flat_comments []) c)) →
  ∃ d2,
    build_store flat_comments
    = Some (d2, filter (λ c, target (index_loop flat_comments []) c = Some ToRoot)
                  (PyDict.keys (index_loop flat_comments [])))
    ∧ image skel_slot d2 = image skel_slot (index_loop flat_comments [])
    ∧ (∀ k s, PyDict.get k d2 = Some s →
         n_replies (data s)
         = filter (λ c, target (index_loop flat_comments []) c
                        = Some (ToParent k))
             (PyDict.keys (index_loop flat_comments [])))
    ∧ Forall (deep (S (length d2)) d2)
        (filter (λ c, target (index_loop flat_comments []) c = Some ToRoot)
           (PyDict.keys (index_loop flat_comments []))).
Proof.
  set (d0 := index_loop flat_comments []). intros Htargets.
  destruct (link_loop_spec (PyDict.keys d0) d0 [] Htargets)
    as (d1 & Hlink & Hsk1 & Hrep1).
  rewrite app_nil_l in Hlink.
  set (roots := filter (λ c, target d0 c = Some ToRoot) (PyDict.keys d0)) in *.
  assert (PyDict.keys d1 = PyDict.keys d0) as Hks.
  { by rewrite <-(image_keys skel_slot d1), Hsk1, image_keys. }
  assert (∀ c t, target d0 c = Some t → c ∈ PyDict.keys d0) as Htg_in.
  { intros c t Ht. apply dict_get_is_Some. unfold target in Ht.
    by destruct (PyDict.get c d0). }
  assert (∀ c p, target d0 c = Some (ToParent p) → p ∈ PyDict.keys d0)
    as Htg_parent.
  { intros c p Ht. unfold target in Ht.
    destruct (PyDict.get c d0) as [s|]; [|done]. simpl in Ht.
    destruct (parent_id s) as [pid|]; [|done]. simpl in Ht.
    injection Ht as Ht. unfold classify in Ht.
    destruct (PyStr.startswith pid "t3_"); [done|].
    destruct (PyStr.startswith pid "t1_"); [|done].
    destruct (PyDict.mem (PyStr.drop 3 pid) d0) eqn:Hm; [|done].
    injection Ht as <-. by apply mem_keys. }
  assert (∀ k s, PyDict.get k d1 = Some s →
            n_replies (data s)
            = filter (λ c, target d0 c = Some (ToParent k)) (PyDict.keys d0))
    as Hrep.
  { intros k s Hk.
    assert (k ∈ PyDict.keys d0) as Hin.
    { rewrite <-Hks. apply dict_get_is_Some. by eexists. }
    apply dict_get_is_Some in Hin as [s0 Hs0].
    destruct (Hrep1 k s0 Hs0) as (s' & Hs' & Hr & _).
    rewrite Hk in Hs'. injection Hs' as <-. rewrite Hr.
    apply index_loop_slot in Hs0 as (fc & _ & _ & ->). done. }
  assert (length (PyDict.keys d0) = length d1) as Hlen.
  { rewrite <-Hks. unfold PyDict.keys. by rewrite length_map. }
  assert (Forall (reachable (PyDict.keys d0) (target d0) (S (length d1))) roots)
    as Hroots.
  { apply Forall_forall. intros r [Hr _]%list_elem_of_filter.
    exists []. split; [by constructor|]. simpl. lia. }
  destruct (fold_counts_ok d1 (PyDict.keys d0) (target d0) (S (length d1))
              (update_counts_ok d1 (PyDict.keys d0) (target d0)
                 Hks Htg_in Htg_parent Hrep (S (length d1)))
              roots d1 Hroots eq_refl)
    as (d2 & Hfold & Hst2 & _ & Hdeep).
  assert (length d2 = length d1) as Hlen2.
  { by rewrite <-(image_length strip_slot d2), Hst2, image_length. }
  exists d2. unfold build_store. fold d0. rewrite Hlink.
  cbn [mbind option_bind]. rewrite Hfold. cbn [mbind option_bind].
  split; [done|]. split.
  { rewrite <-Hsk1. unfold image in *.
    apply (f_equal (map (λ ks : string * _, (ks.1, ks.2.1)))) in Hst2.
    by rewrite !map_map in Hst2. }
  split.
  { intros k s Hk. symmetry in Hst2.
    destruct (strip_get d2 d1 k s) as (s1 & Hs1 & Hst); [done|done|].
    rewrite <-(strip_replies _ _ Hst). by apply Hrep. }
  by rewrite Hlen2.
Qed.

Lemma build_comment_tree_spec flat_comments :
  (∀ c, c ∈ PyDict.keys (index_loop flat_comments []) →
        is_Some (target (index_loop flat_comments []) c)) →
  ∃ d2 forest,
    build_store flat_comments
    = Some (d2, filter (λ c, target (index_loop flat_comments []) c = Some ToRoot)
                  (PyDict.keys (index_loop flat_comments [])))
    ∧ build_comment_tree flat_comments = Some forest
    ∧ Forall2 (λ r t, reify (S (length d2)) d2 r = Some t)
        (filter (λ c, target (index_loop flat_comments []) c = Some ToRoot)
           (PyDict.keys (index_loop flat_comments [])))
        forest
    ∧ Forall counted (forest_nodes forest).
Proof.
  intros Htargets.
  destruct (build_store_spec flat_comments Htargets)
    as (d2 & Hstore & _ & _ & Hdeep).
  set (roots := filter _ _) in *.
  assert (∀ l, Forall (deep (S (length d2)) d2) l →
            ∃ forest, Forall2 (λ r t, reify (S (length d2)) d2 r = Some t) l forest
                      ∧ Forall (λ t, Forall counted (nodes t)) forest)
    as Hall.
  { intros l Hl. induction Hl as [|r rs Hr _ IH].
    - exists []. split; constructor.
    - destruct (reify_ok _ _ _ Hr) as (t & Ht & Hc).
      destruct IH as (ts & ? & ?). exists (t :: ts). split; by constructor. }
  destruct (Hall roots Hdeep) as (forest & Hf2 & Hcounted).
  exists d2, forest. split; [done|]. split.
  { unfold build_comment_tree. rewrite Hstore. cbn [mbind option_bind].
    by apply mapM_Some. }
  split; [done|]. by apply forest_counted.
Qed.

End FlatBuilder.

(** C4 (comment count consistency).
    - For every forest, [_count_comments] returns the number of its
      nodes, each node of every depth counted once.
    - Every node of the forest that [_parse_comment] builds from a
      nested payload has [reply_count == len(replies)].
    - [_build_comment_tree] returns a forest for every flat list whose
      [parent_id]s are strings, and whenever it returns one, every node
      of it has [reply_count == len(replies)]; so has every node of
      what [_fetch_all_comments_from_pullpush] returns. *)
Theorem comment_count_consistent :
  (∀ comments : list Comments.comment,
     Comments.count_comments comments = len (Comments.forest_nodes comments))
  ∧ (∀ comments_tree : list Comments.raw_node,
       Forall counted
         (Comments.forest_nodes (Comments.parse_comments comments_tree)))
  ∧ (∀ flat_comments : list Comments.flat,
       Forall (λ c, is_Some (Comments.f_parent_id c)) flat_comments →
       is_Some (Comments.build_comment_tree flat_comments))
  ∧ (∀ (flat_comments : list Comments.flat) (forest : list Comments.comment),
       Comments.build_comment_tree flat_comments = Some forest →
       Forall counted (Comments.forest_nodes forest))
  ∧ (∀ data : option (list Comments.raw_comment),
       Forall counted
         (Comments.forest_nodes (Comments.fetch_all_comments data))).
Proof.
  assert (∀ flat forest, Comments.build_comment_tree flat = Some forest →
            Forall counted (Comments.forest_nodes forest)) as Hpartial.
  { intros flat forest Hb.
    assert (∃ r, Comments.link_loop
                   (PyDict.keys (Comments.index_loop flat []))
                   (Comments.index_loop flat []) [] = Some r) as [r Hr].
    { unfold Comments.build_comment_tree, Comments.build_store in Hb.
      destruct (Comments.link_loop _ _ _) as [r|]; [by exists r|done]. }
    destruct (build_comment_tree_spec flat (link_loop_Some_inv _ _ _ _ Hr))
      as (d2 & forest' & _ & Hb' & _ & Hc).
    congruence. }
  split; [exact count_comments_nodes|].
  split; [exact parse_comments_counted|].
  split.
  { intros flat Hall.
    destruct (build_comment_tree_spec flat (payload_targets flat Hall))
      as (d2 & forest & _ & -> & _). by eexists. }
  split; [exact Hpartial|].
  intros [[|c data]|]; try constructor.
  unfold Comments.fetch_all_comments.
  destruct (Comments.build_comment_tree _) as [forest|] eqn:Hb; [|constructor].
  simpl. by eapply Hpartial.
Qed.

(* ===================================================================== *)
(** * C5 and C10: promotion to the root list, and dropped comments         *)
(* ===================================================================== *)

Lemma target_of_slot flat_comments k c :
  PyDict.get k (Comments.index_loop flat_comments []) = Some (slot_of c) →
  target (Comments.index_loop flat_comments []) k
  = (λ pid, classify (Comments.index_loop flat_comments []) pid)
      <$> Comments.f_parent_id c.
Proof.
  intros H. unfold target. rewrite H. simpl.
  by destruct (Comments.f_parent_id c).
Qed.

(** C5, as amended (filtered-parent promotion).  Let [data] be a flat payload in
    which a comment B is kept by the filter, has a non-empty id of its
    own, and points with ["t1_" + ka] to a parent of which no record is
    kept (the parent A was filtered out); let the kept records have
    strings as parent pointers.  Then [_build_comment_tree] returns, the
    object of B is in its root list, and the forest that
    [_fetch_all_comments_from_pullpush] returns has B at root level,
    with the author, text, score and time of B. *)
Theorem filtered_parent_promoted
    (data : list Comments.raw_comment) (b : Comments.raw_comment)
    (fb : Comments.flat) (ka kb : string) :
  b ∈ data →
  Comments.parse_pullpush_comment b = Some fb →
  indexed fb = Some kb →
  Comments.f_parent_id fb = Some ("t1_" ++ ka)%string →
  (∀ c fc, c ∈ data → Comments.parse_pullpush_comment c = Some fc →
           Comments.f_comment_id fc ≠ Some ka) →
  (∀ c fc, c ∈ data → Comments.parse_pullpush_comment c = Some fc →
           indexed fc = Some kb → fc = fb) →
  (∀ c fc, c ∈ data → Comments.parse_pullpush_comment c = Some fc →
           is_Some (Comments.f_parent_id fc)) →
  ∃ d roots forest t,
    Comments.build_store (omap Comments.parse_pullpush_comment data)
    = Some (d, roots)
    ∧ kb ∈ roots
    ∧ Comments.build_comment_tree (omap Comments.parse_pullpush_comment data)
      = Some forest
    ∧ Comments.fetch_all_comments (Some data) = forest
    ∧ t ∈ forest
    ∧ Comments.author t = Comments.f_author fb
    ∧ Comments.text t = Comments.f_text fb
    ∧ Comments.score t = Comments.f_score fb
    ∧ Comments.created_time t = Comments.f_created_time fb.
Proof.
  intros Hb Hfb Hkb Hparent Hgone Hown Hstr.
  set (kept := omap Comments.parse_pullpush_comment data).
  assert (∀ fc, fc ∈ kept →
            ∃ c, c ∈ data ∧ Comments.parse_pullpush_comment c = Some fc) as Hkept.
  { intros fc Hfc. by apply list_elem_of_omap in Hfc. }
  assert (fb ∈ kept) as Hin by (apply list_elem_of_omap; eauto).
  assert (Forall (λ c, is_Some (Comments.f_parent_id c)) kept) as Hall.
  { apply Forall_forall. intros fc (c & Hc & Hp)%Hkept. eauto. }
  destruct (build_comment_tree_spec kept (payload_targets kept Hall))
    as (d2 & forest & Hstore & Hbuild & Hf2 & _).
  destruct (build_store_spec kept (payload_targets kept Hall))
    as (d2' & Hstore' & Hsk & _).
  rewrite Hstore in Hstore'. injection Hstore' as <-.
  set (roots := filter _ _) in *.
  assert (PyDict.get kb (Comments.index_loop kept []) = Some (slot_of fb)) as Hslot.
  { apply index_loop_present; [done|done|].
    intros fc (c & Hc & Hp)%Hkept Hi. eauto. }
  assert (PyDict.get ka (Comments.index_loop kept []) = None) as Hka.
  { apply index_loop_absent. intros fc (c & Hc & Hp)%Hkept Hi.
    apply (Hgone c fc Hc Hp). unfold indexed in Hi.
    destruct (Comments.f_comment_id fc) as [k|]; [|done].
    by destruct (PyStr.truthy k); [injection Hi as ->|]. }
  assert (kb ∈ roots) as Hroot.
  { apply list_elem_of_filter. split.
    - assert (PyStr.startswith ("t1_" ++ ka)%string "t3_" = false) as E3
        by reflexivity.
      assert (PyStr.startswith ("t1_" ++ ka)%string "t1_" = true) as E1
        by (apply prefix_spec; by exists ka).
      rewrite (target_of_slot kept kb fb Hslot), Hparent.
      cbn [fmap option_fmap option_map]. f_equal.
      unfold classify. rewrite E3, E1.
      change (PyStr.drop 3 ("t1_" ++ ka)%string) with ka.
      unfold PyDict.mem. by rewrite Hka.
    - apply dict_get_is_Some. by eexists. }
  apply list_elem_of_lookup in Hroot as [i Hi].
  destruct (Forall2_lookup_l _ _ _ _ _ Hf2 Hi) as (t & Ht & Hreify).
  apply reify_fields in Hreify as (s & Hs & Ha & Htx & Hsc & Hct).
  assert (skel_slot s = skel_slot (slot_of fb)) as Hskel.
  { pose proof (image_get skel_slot d2 kb) as H1.
    rewrite Hsk, image_get, Hs, Hslot in H1. simpl in H1. congruence. }
  exists d2, roots, forest, t. split; [done|]. split.
  { apply list_elem_of_lookup. eauto. }
  split; [done|]. split.
  { unfold Comments.fetch_all_comments. fold kept. rewrite Hbuild.
    destruct data; [by apply not_elem_of_nil in Hb|done]. }
  split; [apply list_elem_of_lookup; eauto|].
  unfold skel_slot in Hskel. simpl in Hskel.
  injection Hskel as H1 H2 H3 H4. by rewrite Ha, Htx, Hsc, Hct.
Qed.

Lemma filtered_parent_promoted_witness :
  ∃ d roots forest t,
    Comments.build_store
      (omap Comments.parse_pullpush_comment [scenario_a; scenario_b])
    = Some (d, roots)
    ∧ "b2"%string ∈ roots
    ∧ Comments.build_comment_tree
        (omap Comments.parse_pullpush_comment [scenario_a; scenario_b])
      = Some forest
    ∧ Comments.fetch_all_comments (Some [scenario_a; scenario_b]) = forest
    ∧ t ∈ forest
    ∧ Comments.author t = Some "bob"%string
    ∧ Comments.text t = "thanks"%string
    ∧ Comments.score t = Some 7
    ∧ Comments.created_time t = Some 1700000050.
Proof.
  apply (filtered_parent_promoted [scenario_a; scenario_b] scenario_b
           scenario_flat_b "a1" "b2").
  - right. left.
  - reflexivity.
  - reflexivity.
  - reflexivity.
  - intros c fc Hc.
    apply elem_of_cons in Hc as [->|Hc]; [by vm_compute|].
    apply list_elem_of_singleton in Hc as ->. vm_compute. by intros [= <-].
  - intros c fc Hc.
    apply elem_of_cons in Hc as [->|Hc]; [by vm_compute|].
    apply list_elem_of_singleton in Hc as ->. vm_compute. by intros [= <-].
  - intros c fc Hc.
    apply elem_of_cons in Hc as [->|Hc]; [by vm_compute|].
    apply list_elem_of_singleton in Hc as ->. vm_compute. intros [= <-].
    by eexists.
Defined.

(** C5 as stated fails when another kept comment of the payload has a
    null [parent_id]: with A filtered, B kept and replying to A, and a
    third kept comment whose [parent_id] is null, [startswith] is
    called on [None], [_build_comment_tree] raises, and
    [_fetch_all_comments_from_pullpush] returns the empty list, so B is
    at no level of the result. *)
Lemma promotion_lost_on_null_parent :
  Comments.parse_pullpush_comment scenario_a = None
  ∧ Comments.parse_pullpush_comment scenario_b = Some scenario_flat_b
  ∧ Comments.f_parent_id scenario_flat_b = Some "t1_a1"%string
  ∧ Comments.build_comment_tree
      (omap Comments.parse_pullpush_comment
         [scenario_a; scenario_b; null_parent_raw]) = None
  ∧ Comments.fetch_all_comments
      (Some [scenario_a; scenario_b; null_parent_raw]) = [].
Proof. repeat split; vm_compute; reflexivity. Qed.

(** C10 (dropped comments).  Let a kept comment with a non-empty id
    have a [parent_id] that starts with neither ["t3_"] nor ["t1_"] (an
    empty or malformed pointer), every record stored under its id
    carrying that pointer, and let the parent pointers of the list be
    strings.  Then [_build_comment_tree] returns, and the object of the
    comment is in the store but neither in the root list nor in the
    [replies] list of any node. *)
Theorem malformed_parent_dropped
    (flat_comments : list Comments.flat) (x : Comments.flat)
    (kx pid : string) :
  x ∈ flat_comments →
  indexed x = Some kx →
  Comments.f_parent_id x = Some pid →
  PyStr.startswith pid "t3_" = false →
  PyStr.startswith pid "t1_" = false →
  (∀ c, c ∈ flat_comments → indexed c = Some kx →
        Comments.f_parent_id c = Some pid) →
  Forall (λ c, is_Some (Comments.f_parent_id c)) flat_comments →
  ∃ d roots forest,
    Comments.build_store flat_comments = Some (d, roots)
    ∧ Comments.build_comment_tree flat_comments = Some forest
    ∧ is_Some (PyDict.get kx d)
    ∧ (kx ∉ roots)
    ∧ (∀ k s, PyDict.get k d = Some s →
              kx ∉ Comments.n_replies (Comments.data s)).
Proof.
  intros Hx Hkx Hpid H3 H1 Hsame Hall.
  destruct (build_comment_tree_spec flat_comments
              (payload_targets flat_comments Hall))
    as (d2 & forest & Hstore & Hbuild & _ & _).
  destruct (build_store_spec flat_comments (payload_targets flat_comments Hall))
    as (d2' & Hstore' & Hsk & Hrep & _).
  rewrite Hstore in Hstore'. injection Hstore' as <-.
  assert (target (Comments.index_loop flat_comments []) kx = Some Dropped) as Htarget.
  { assert (is_Some (PyDict.get kx (Comments.index_loop flat_comments []))) as [s Hs].
    { rewrite index_loop_get.
      destruct (last _) as [c|] eqn:Hl; [by eexists|].
      apply last_None in Hl.
      assert (x ∈ filter (λ c, indexed c = Some kx) flat_comments) as Hin
        by (by apply list_elem_of_filter).
      rewrite Hl in Hin. by apply not_elem_of_nil in Hin. }
    pose proof Hs as Hs'. apply index_loop_slot in Hs' as (c & Hc & Hi & ->).
    rewrite (target_of_slot flat_comments kx c Hs), (Hsame c Hc Hi). simpl.
    unfold classify. by rewrite H3, H1. }
  exists d2,
    (filter (λ c, target (Comments.index_loop flat_comments []) c = Some ToRoot)
       (PyDict.keys (Comments.index_loop flat_comments []))),
    forest.
  split; [done|]. split; [done|]. split.
  { apply dict_get_is_Some.
    rewrite <-(image_keys skel_slot d2), Hsk, image_keys.
    apply dict_get_is_Some. unfold target in Htarget.
    by destruct (PyDict.get kx (Comments.index_loop flat_comments [])). }
  split.
  - intros [Ht _]%list_elem_of_filter. congruence.
  - intros k s Hk. rewrite (Hrep k s Hk).
    intros [Ht _]%list_elem_of_filter. congruence.
Qed.

Lemma malformed_parent_dropped_witness :
  ∃ d roots forest,
    Comments.build_store orphan_flat = Some (d, roots)
    ∧ Comments.build_comment_tree orphan_flat = Some forest
    ∧ is_Some (PyDict.get "c2" d)
    ∧ ("c2"%string ∉ roots)
    ∧ (∀ k s, PyDict.get k d = Some s
              → "c2"%string ∉ Comments.n_replies (Comments.data s)).
Proof.
  apply (malformed_parent_dropped orphan_flat
           (Comments.Flat (Some "bob"%string) "lost" (Some 2) (Some 1700000010)
              (Some "c2"%string) (Some ""%string)) "c2" "").
  - right. left.
  - reflexivity.
  - reflexivity.
  - reflexivity.
  - reflexivity.
  - intros c Hc. unfold orphan_flat in Hc.
    repeat (apply elem_of_cons in Hc as [->|Hc]; [by vm_compute|]).
    by apply not_elem_of_nil in Hc.
  - unfold orphan_flat. repeat (constructor; [by eexists|]). constructor.
Defined.

(* ===================================================================== *)
(** * C8 and C9: the fetch loop                                            *)
(* ===================================================================== *)

Section FetchLoopFacts.

Import FetchLoop.

Lemma fetch_loop_cons up sk url_list i rest st :
  fetch_loop up sk url_list (i :: rest) st
  = match attempt up url_list i with
    | None =>
        ({| db := db st; all_posts_data := all_posts_data st;
            total_crawled_count := total_crawled_count st;
            consecutive_failures := consecutive_failures st;
            crawled_this_session := crawled_this_session st;
            current_index := current_index st;
            progress_file := progress_file st;
            fetched := fetched st; turns := turns st + 1;
            saves := saves st |}, Failed)
    | Some (Some pd) =>
        fetch_loop up sk url_list rest (after_success sk st i pd)
    | Some None =>
        if 5 <=? consecutive_failures (after_failure st i)
        then (after_failure st i, Broke)
        else fetch_loop up sk url_list rest (after_failure st i)
    end.
Proof.
  cbn [fetch_loop]. unfold attempt.
  destruct (py_nth url_list i) as [item|]; [|done]. cbn [mbind option_bind].
  by destruct (fetch_post_json _ _ _ _).
Qed.

Lemma fetch_loop_app up sk url_list l1 l2 st :
  fetch_loop up sk url_list (l1 ++ l2) st
  = match fetch_loop up sk url_list l1 st with
    | (st1, Exhausted) => fetch_loop up sk url_list l2 st1
    | other => other
    end.
Proof.
  revert st. induction l1 as [|i l1 IH]; intros st; [done|].
  rewrite <-app_comm_cons, !fetch_loop_cons.
  destruct (attempt up url_list i) as [[pd|]|]; [apply IH| |done].
  destruct (5 <=? _); [done|apply IH].
Qed.

Lemma save_to_sqlite_app sk n l1 l2 db :
  save_to_sqlite sk n (l1 ++ l2) db
  = save_to_sqlite sk n l2 (save_to_sqlite sk n l1 db).
Proof. unfold save_to_sqlite. by rewrite fold_left_app. Qed.

Lemma save_to_sqlite_snoc sk n l pd db :
  save_to_sqlite sk n (l ++ [pd]) db
  = insert_row sk n pd (save_to_sqlite sk n l db).
Proof. by rewrite save_to_sqlite_app. Qed.

Lemma save_data_fields sk st i :
  flushed sk (save_data sk st i) = flushed sk st
  ∧ db (save_data sk st i) = flushed sk st
  ∧ all_posts_data (save_data sk st i) = []
  ∧ fetched (save_data sk st i) = fetched st
  ∧ consecutive_failures (save_data sk st i) = consecutive_failures st
  ∧ turns (save_data sk st i) = turns st.
Proof.
  unfold save_data, flushed. destruct (all_posts_data st) eqn:E; simpl.
  - by rewrite E.
  - done.
Qed.

Lemma after_success_fields sk st i pd :
  flushed sk (after_success sk st i pd)
  = insert_row sk (saves st) pd (flushed sk st)
  ∧ fetched (after_success sk st i pd) = fetched st ++ [i]
  ∧ consecutive_failures (after_success sk st i pd) = 0
  ∧ turns (after_success sk st i pd) = turns st + 1.
Proof.
  unfold after_success. destruct (_ =? 0).
  - destruct (save_data_fields sk
                {| db := db st; all_posts_data := all_posts_data st ++ [pd];
                   total_crawled_count := total_crawled_count st;
                   consecutive_failures := 0;
                   crawled_this_session := crawled_this_session st + 1;
                   current_index := Some i; progress_file := progress_file st;
                   fetched := fetched st ++ [i]; turns := turns st + 1;
                   saves := saves st |}
                (Some i))
      as (-> & _ & _ & -> & -> & ->).
    unfold flushed. simpl. by rewrite save_to_sqlite_snoc.
  - unfold flushed. simpl. by rewrite save_to_sqlite_snoc.
Qed.

(** The buffer and the count of saves after a fetch that succeeded. *)
Lemma after_success_buffer_saves sk st i pd :
  len (all_posts_data st) < 10 →
  (len (all_posts_data (after_success sk st i pd)),
   saves (after_success sk st i pd))
  = if (len (all_posts_data st) + 1) mod 10 =? 0
    then (0, saves st + 1)
    else (len (all_posts_data st) + 1, saves st).
Proof.
  intros Hlt. unfold after_success. cbn [all_posts_data].
  assert (len (all_posts_data st ++ [pd]) = len (all_posts_data st) + 1) as ->.
  { unfold len. rewrite length_app. simpl. lia. }
  destruct (_ =? 0); [|cbn; f_equal; unfold len; rewrite length_app; simpl; lia].
  unfold save_data. cbn [all_posts_data].
  destruct (all_posts_data st ++ [pd]) eqn:E; [by destruct (all_posts_data st)|].
  done.
Qed.

Lemma lookup_insert_row sk n pd db k :
  insert_row sk n pd db !! k
  = if insert_ok sk n pd && bool_decide (post_id pd = k)
    then Some (stamped sk n pd) else db !! k.
Proof.
  unfold insert_row. destruct (insert_ok sk n pd); [|done]. cbn [andb].
  case_bool_decide as Hk.
  - subst k. apply lookup_insert_eq.
  - by apply lookup_insert_ne.
Qed.

Lemma fetch_post_json_fields up u i src pd :
  fetch_post_json up u i src = Some pd →
  index pd = i ∧ Identity.extract_post_id u = Some (post_id pd).
Proof.
  unfold fetch_post_json.
  destruct (Identity.extract_post_id u) as [pid|]; [|done].
  cbn [mbind option_bind].
  destruct (submission_of up pid) as [post_info|]; [|done].
  cbn [mbind option_bind].
  destruct (jget (s_title post_info) "N/A"%string) as [t|];
    cbn [mbind option_bind]; [|done].
  by intros [= <-].
Qed.

(** A run of failures, from a counter that stands at [c]. *)
Lemma failures_run up sk url_list fs rest st :
  (∀ i, i ∈ fs → attempt up url_list i = Some None) →
  consecutive_failures st + len fs = 5 →
  fs ≠ [] →
  ∃ st', fetch_loop up sk url_list (fs ++ rest) st = (st', Broke)
         ∧ fetched st' = fetched st ++ fs
         ∧ consecutive_failures st' = 5
         ∧ db st' = db st
         ∧ all_posts_data st' = all_posts_data st
         ∧ turns st' = turns st + len fs.
Proof.
  revert st. induction fs as [|i fs IH]; intros st Hfail Hc Hne; [done|].
  rewrite <-app_comm_cons, fetch_loop_cons, (Hfail i) by left.
  unfold len in Hc. simpl length in Hc.
  destruct fs as [|j fs].
  - simpl in Hc.
    destruct (Z.leb_spec 5 (consecutive_failures (after_failure st i)));
      [|simpl in *; lia].
    eexists. split; [done|]. simpl. unfold len. simpl. repeat split; lia.
  - destruct (Z.leb_spec 5 (consecutive_failures (after_failure st i))).
    { simpl in *. lia. }
    destruct (IH (after_failure st i)) as (st' & -> & Hf & Hcf & Hdb & Hb & Ht).
    + intros k Hk. apply Hfail. by right.
    + simpl in *. unfold len. simpl. lia.
    + done.
    + exists st'. split; [done|]. rewrite Hf, Hcf, Hdb, Hb, Ht. simpl.
      rewrite <-app_assoc. unfold len. simpl. repeat split; lia.
Qed.

Lemma fetch_loop_exhausted up sk url_list l st st1 :
  fetch_loop up sk url_list l st = (st1, Exhausted) →
  fetched st1 = fetched st ++ l ∧ turns st1 = turns st + len l.
Proof.
  revert st. induction l as [|i l IH]; intros st.
  - intros [= <-]. rewrite app_nil_r. unfold len. simpl. split; [done|lia].
  - rewrite fetch_loop_cons.
    destruct (attempt up url_list i) as [[pd|]|]; [| |done].
    + intros [Hf Ht]%IH.
      destruct (after_success_fields sk st i pd) as (_ & Hf' & _ & Ht').
      rewrite Hf, Ht, Hf', Ht'. rewrite <-app_assoc. unfold len. simpl.
      split; [done|lia].
    + destruct (5 <=? _); [done|]. intros [Hf Ht]%IH.
      rewrite Hf, Ht. simpl. rewrite <-app_assoc. unfold len. simpl.
      split; [done|lia].
Qed.

Lemma fetch_loop_rows up sk url_list db0 l st :
  rows_from sk db0 st →
  rows_from sk db0 (fetch_loop up sk url_list l st).1.
Proof.
  revert st. induction l as [|i l IH]; intros st Hst; [done|].
  rewrite fetch_loop_cons. unfold attempt.
  destruct (py_nth url_list i) as [item|]; [|done]. cbn [mbind option_bind].
  destruct (fetch_post_json _ _ _ _) as [pd|] eqn:Hpd.
  - apply IH. intros k r.
    destruct (after_success_fields sk st i pd) as (-> & -> & _).
    apply fetch_post_json_fields in Hpd as [Hi _].
    rewrite lookup_insert_row. destruct (_ && _).
    + intros [= <-]. right. cbn. rewrite Hi. set_solver.
    + intros [?|?]%Hst; [by left|right; set_solver].
  - assert (rows_from sk db0 (after_failure st i)) as Hst'.
    { intros k r Hk. destruct (Hst k r Hk); [by left|right; simpl; set_solver]. }
    destruct (5 <=? _); [done|by apply IH].
Qed.

Lemma elem_of_crawled db name s e i :
  i ∈ get_crawled_indexes_from_db db name s e
  ↔ ∃ k r, db !! k = Some r ∧ in_scope name s e r = true
           ∧ index (r_data r) = i.
Proof.
  unfold get_crawled_indexes_from_db.
  rewrite elem_of_list_to_set, list_elem_of_omap. split.
  - intros ([k r] & Hkr%elem_of_map_to_list & H). simpl in H.
    destruct (in_scope name s e r) eqn:E; [|done]. injection H as <-. eauto.
  - intros (k & r & Hkr & Hs & <-). exists (k, r). simpl. rewrite Hs.
    split; [by apply elem_of_map_to_list|done].
Qed.

Lemma elem_of_pending db name s e i :
  i ∈ (load_crawl_progress db name s e).1
  ↔ s ≤ i ≤ e ∧ i ∉ get_crawled_indexes_from_db db name s e.
Proof.
  unfold load_crawl_progress. simpl.
  rewrite list_elem_of_filter, elem_of_seqZ. split; intros [? ?]; split;
    try done; lia.
Qed.

Lemma pending_NoDup db name s e : NoDup (load_crawl_progress db name s e).1.
Proof.
  unfold load_crawl_progress. simpl. apply NoDup_filter, NoDup_seqZ.
Qed.

End FetchLoopFacts.

Section FetchLoopClaims.

Import FetchLoop.

Lemma crawl_posts_unfold up sk name urls_file start_index end_index db0
    url_list s e :
  load_url_list urls_file start_index end_index = Some (url_list, s, e) →
  crawl_posts up sk name urls_file start_index end_index db0
  = match (load_crawl_progress db0 name s e).1 with
    | [] => Some (Report (initial_run db0 name start_index s e) false)
    | pending =>
        let '(st, exit) :=
          fetch_loop up sk url_list pending
            (initial_run db0 name start_index s e) in
        Some (Report (save_data sk st (current_index st))
                match exit with
                | Failed => false
                | _ => (turns st =? len pending) && (consecutive_failures st <? 5)
                end)
    end.
Proof.
  intros Hload. unfold crawl_posts. rewrite Hload. cbn [mbind option_bind].
  unfold initial_run.
  by destruct (load_crawl_progress db0 name s e) as [[|i p] t].
Qed.

Lemma pending_of_unfold name urls_file start_index end_index db0 url_list s e :
  load_url_list urls_file start_index end_index = Some (url_list, s, e) →
  pending_of name urls_file start_index end_index db0
  = Some (load_crawl_progress db0 name s e).1.
Proof. intros Hload. unfold pending_of. by rewrite Hload. Qed.

(** C8 (circuit breaker).  Let a run of [crawl_posts] have the pending
    indexes [done ++ fs ++ rest], where the loop gets through [done]
    with its failure counter back at 0 and each of the five indexes of
    [fs] fails to fetch.  Then, whatever the database does with the
    rows, the loop stops at the fifth failure: the fetches made are
    exactly those of [done ++ fs], none is made for an index of [rest],
    the counter stands at 5, the run is not reported as completed, and
    every index of [rest] is pending again when the next run computes
    its work from the table.  Any successful fetch continues the loop
    with the counter at 0. *)
Theorem breaker_stops_after_five :
  (∀ (up : upstream) (sk : sink) (subreddit_name : string)
     (urls_file : option (bool * list url_item))
     (start_index end_index : option Z) (db0 : gmap string row)
     (url_list : list url_item) (s e : Z) (done fs rest : list Z) (st1 : run),
     load_url_list urls_file start_index end_index = Some (url_list, s, e) →
     (load_crawl_progress db0 subreddit_name s e).1 = done ++ fs ++ rest →
     fetch_loop up sk url_list done
       (initial_run db0 subreddit_name start_index s e)
     = (st1, Exhausted) →
     consecutive_failures st1 = 0 →
     length fs = 5%nat →
     (∀ i, i ∈ fs → attempt up url_list i = Some None) →
     ∃ report,
       crawl_posts up sk subreddit_name urls_file start_index end_index db0
       = Some report
       ∧ fetched (final report) = done ++ fs
       ∧ consecutive_failures (final report) = 5
       ∧ completed_normally report = false
       ∧ (∀ i, i ∈ rest → i ∉ fetched (final report))
       ∧ (∀ i, i ∈ rest →
            ∃ pending,
              pending_of subreddit_name urls_file start_index end_index
                (db (final report)) = Some pending
              ∧ i ∈ pending))
  ∧ (∀ (up : upstream) (sk : sink) (url_list : list url_item) (i : Z)
       (rest : list Z) (st : run) (pd : post_data),
       attempt up url_list i = Some (Some pd) →
       fetch_loop up sk url_list (i :: rest) st
       = fetch_loop up sk url_list rest (after_success sk st i pd)
       ∧ consecutive_failures (after_success sk st i pd) = 0).
Proof.
  split.
  - intros up sk name urls_file start_index end_index db0 url_list s e done fs
      rest st1 Hload Hpending Hdone Hzero Hfive Hfail.
    assert (fs ≠ []) as Hne by (by destruct fs).
    destruct (failures_run up sk url_list fs rest st1 Hfail)
      as (st2 & Hrun & Hfetched & Hcf & Hdb & Hbuf & Hturns);
      [unfold len; lia|done|].
    destruct (fetch_loop_exhausted _ _ _ _ _ _ Hdone) as [Hf1 _].
    simpl in Hf1.
    assert (fetch_loop up sk url_list (done ++ fs ++ rest)
              (initial_run db0 name start_index s e) = (st2, Broke)) as Hloop.
    { by rewrite fetch_loop_app, Hdone. }
    pose proof (pending_NoDup db0 name s e) as Hnd. rewrite Hpending in Hnd.
    assert (rows_from sk db0 st2) as Hrows.
    { pose proof (fetch_loop_rows up sk url_list db0 (done ++ fs ++ rest)
                    (initial_run db0 name start_index s e)) as H.
      rewrite Hloop in H. apply H. intros k r Hk. by left. }
    destruct (save_data_fields sk st2 (current_index st2))
      as (Hfl & Hdbf & _ & Hff & Hcff & _).
    exists (Report (save_data sk st2 (current_index st2)) false).
    split.
    { rewrite (crawl_posts_unfold _ _ _ _ _ _ _ _ _ _ Hload), Hpending.
      destruct (done ++ fs ++ rest) eqn:E.
      { destruct done; [by destruct fs|done]. }
      cbn beta iota zeta. rewrite Hloop. cbn beta iota. do 2 f_equal.
      rewrite Hcf. by rewrite andb_false_r. }
    cbn [final completed_normally]. rewrite Hff, Hcff, Hfetched, Hf1.
    split; [done|]. split; [done|]. split; [done|].
    assert (∀ i, i ∈ rest → i ∉ done ++ fs) as Hapart.
    { intros i Hi Hin. rewrite app_assoc in Hnd.
      apply NoDup_app in Hnd as (_ & Hd & _). by apply (Hd i). }
    split; [done|].
    intros i Hi. eexists.
    split; [exact (pending_of_unfold _ _ _ _ _ _ _ _ Hload)|].
    assert (i ∈ (load_crawl_progress db0 name s e).1) as Hin.
    { rewrite Hpending. set_solver. }
    apply elem_of_pending in Hin as [Hrange Hnot].
    apply elem_of_pending. split; [done|].
    intros (k & r & Hk & Hscope & Hidx)%elem_of_crawled.
    rewrite Hdbf in Hk. destruct (Hrows k r Hk) as [H0|Hf].
    + apply Hnot, elem_of_crawled. eauto.
    + rewrite Hidx, Hfetched, Hf1 in Hf. by apply (Hapart i).
  - intros up sk url_list i rest st pd Ha. rewrite fetch_loop_cons, Ha.
    split; [done|].
    by destruct (after_success_fields sk st i pd) as (_ & _ & ? & _).
Qed.

(** ** The resumption *)



Lemma write_rows_cons up sk url_list i l b n db :
  write_rows up sk url_list (i :: l) b n db
  = match attempt up url_list i with
    | Some (Some pd) =>
        if (b + 1) mod 10 =? 0
        then write_rows up sk url_list l 0 (n + 1) (insert_row sk n pd db)
        else write_rows up sk url_list l (b + 1) n (insert_row sk n pd db)
    | _ => write_rows up sk url_list l b n db
    end.
Proof. reflexivity. Qed.

(** What the loop has fetched is a prefix of its work list, and what it
    has written, flushed or not, are the rows of the fetches that
    succeeded; the buffer never holds ten posts. *)
Lemma fetch_loop_writes up sk url_list l st :
  len (all_posts_data st) < 10 →
  ∃ done rest,
    l = done ++ rest
    ∧ fetched (fetch_loop up sk url_list l st).1 = fetched st ++ done
    ∧ flushed sk (fetch_loop up sk url_list l st).1
      = write_rows up sk url_list done (len (all_posts_data st)) (saves st)
          (flushed sk st)
    ∧ len (all_posts_data (fetch_loop up sk url_list l st).1) < 10
    ∧ ((fetch_loop up sk url_list l st).2 = Exhausted → rest = []).
Proof.
  revert st. induction l as [|i l IH]; intros st Hlt.
  - exists [], []. cbn [fetch_loop fst snd write_rows].
    by rewrite (app_nil_r (fetched st)).
  - rewrite fetch_loop_cons.
    destruct (attempt up url_list i) as [[pd|]|] eqn:E.
    + pose proof (after_success_buffer_saves sk st i pd Hlt) as Hbs.
      assert (0 ≤ len (all_posts_data st)) as H0 by (unfold len; lia).
      assert (len (all_posts_data (after_success sk st i pd)) < 10) as Hlt'.
      { destruct (Z.eqb_spec ((len (all_posts_data st) + 1) mod 10) 0) as [Hz|Hnz];
          injection Hbs as -> _; [lia|].
        destruct (Z.eq_dec (len (all_posts_data st) + 1) 10) as [E10|]; [|lia].
        by rewrite E10 in Hnz. }
      destruct (IH (after_success sk st i pd) Hlt')
        as (done & rest & -> & Hf & Hw & Hb & Hex).
      destruct (after_success_fields sk st i pd) as (Hfl & Hfe & _).
      exists (i :: done), rest. split; [done|]. rewrite Hf, Hw, Hfe, Hfl.
      split; [by rewrite <-app_assoc|]. split; [|by split].
      rewrite write_rows_cons, E.
      by destruct (_ =? 0); injection Hbs as -> ->.
    + assert (write_rows up sk url_list [i] (len (all_posts_data st))
                (saves st) (flushed sk st) = flushed sk st) as Hone.
      { by rewrite write_rows_cons, E. }
      destruct (5 <=? _).
      * exists [i], l. cbn [fst snd]. by rewrite Hone.
      * destruct (IH (after_failure st i) Hlt)
          as (done & rest & -> & Hf & Hw & Hb & Hex).
        exists (i :: done), rest. split; [done|]. rewrite Hf, Hw.
        split; [by cbn; rewrite <-app_assoc|]. split; [|by split].
        by rewrite write_rows_cons, E.
    + exists [], (i :: l). cbn [fst snd fetched all_posts_data write_rows].
      by rewrite (app_nil_r (fetched st)).
Qed.





End FetchLoopClaims.

(** ** Runs on a small frontier *)

Lemma breaker_stops_after_five_witness :
  ∃ report,
    FetchLoop.crawl_posts wit_upstream good_sink "dogs"
      (Some (true, wit_urls)) None None ∅
    = Some report
    ∧ FetchLoop.fetched (FetchLoop.final report) = [0] ++ [1; 2; 3; 4; 5]
    ∧ FetchLoop.consecutive_failures (FetchLoop.final report) = 5
    ∧ FetchLoop.completed_normally report = false
    ∧ (∀ i, i ∈ [6] → i ∉ FetchLoop.fetched (FetchLoop.final report))
    ∧ (∀ i, i ∈ [6] →
         ∃ pending,
           FetchLoop.pending_of "dogs" (Some (true, wit_urls)) None None
             (FetchLoop.db (FetchLoop.final report)) = Some pending
           ∧ i ∈ pending).
Proof.
  eapply (proj1 breaker_stops_after_five wit_upstream good_sink "dogs"
            (Some (true, wit_urls)) None None ∅ wit_urls 0 6
            [0] [1; 2; 3; 4; 5] [6]).
  - reflexivity.
  - vm_compute. reflexivity.
  - vm_compute. reflexivity.
  - reflexivity.
  - reflexivity.
  - intros i Hi.
    repeat (apply elem_of_cons in Hi as [->|Hi]; [by vm_compute|]).
    by apply not_elem_of_nil in Hi.
Defined.



(* ===================================================================== *)
(** * Further properties: identity utilities                               *)
(* ===================================================================== *)

Lemma span_alnum_spec s a r :
  Identity.span_alnum s = (a, r) → s = String.append a r ∧ alnum a = true.
Proof.
  revert a r. induction s as [|c t IH]; intros a r; simpl.
  - by intros [= <- <-].
  - destruct (Identity.is_alnum c) eqn:Ec.
    + destruct (Identity.span_alnum t) as [a' r'].
      intros [= <- <-]. destruct (IH a' r' eq_refl) as [-> Ha].
      str_app. simpl. by rewrite Ec.
    + by intros [= <- <-].
Qed.

Lemma span_alnum_app a c r :
  alnum a = true → Identity.is_alnum c = false →
  Identity.span_alnum (String.append a (String c r)) = (a, String c r).
Proof.
  intros Ha Hc. induction a as [|x a IH]; str_app; simpl.
  - by rewrite Hc.
  - simpl in Ha. apply andb_prop in Ha as [-> Ha]. by rewrite IH.
Qed.

Lemma str_app_assoc a b c :
  String.append (String.append a b) c = String.append a (String.append b c).
Proof. induction a as [|x a IH]; str_app; [done|]. by rewrite IH. Qed.

Lemma match_here_Some s pid :
  Identity.match_here s = Some pid →
  pid ≠ EmptyString ∧ alnum pid = true
  ∧ ∃ post, s = ("/comments/" ++ pid ++ "/" ++ post)%string.
Proof.
  unfold Identity.match_here.
  destruct (String.prefix "/comments/" s) eqn:E; [|done].
  apply prefix_spec in E as [t ->].
  change (PyStr.drop 10 (String.append "/comments/" t)) with t.
  destruct (Identity.span_alnum t) as [a r] eqn:Es.
  destruct (PyStr.truthy a && String.prefix "/" r) eqn:E2; [|done].
  intros [= <-]. apply andb_prop in E2 as [Ht Hp].
  apply prefix_spec in Hp as [post ->].
  apply span_alnum_spec in Es as [-> Ha].
  split; [by destruct a|]. split; [done|]. by exists post.
Qed.

Lemma match_here_hit pid rest :
  alnum pid = true → pid ≠ EmptyString →
  Identity.match_here ("/comments/" ++ pid ++ "/" ++ rest)%string = Some pid.
Proof.
  intros Ha Hne. unfold Identity.match_here.
  rewrite (proj2 (prefix_spec _ _)) by (by eexists).
  change (PyStr.drop 10 ("/comments/" ++ pid ++ "/" ++ rest)%string)
    with (pid ++ "/" ++ rest)%string.
  str_app. rewrite span_alnum_app by done.
  rewrite (proj2 (prefix_spec "/" _)) by (by exists rest).
  by destruct pid.
Qed.

(** X1.  The id that [extract_post_id] returns is a non-empty run of
    ASCII letters and digits that stands in the url between
    ["/comments/"] and a ["/"]. *)
Theorem extract_post_id_sound (url pid : string) :
  Identity.extract_post_id url = Some pid →
  pid ≠ EmptyString
  ∧ alnum pid = true
  ∧ ∃ pre post, url = (pre ++ "/comments/" ++ pid ++ "/" ++ post)%string.
Proof.
  induction url as [|c t IH].
  - by vm_compute.
  - cbn [Identity.extract_post_id].
    destruct (Identity.match_here (String c t)) as [p|] eqn:E.
    + intros [= ->]. apply match_here_Some in E as (? & ? & post & ->).
      split; [done|]. split; [done|]. by exists EmptyString, post.
    + intros H. destruct (IH H) as (? & ? & pre & post & ->).
      split; [done|]. split; [done|]. by exists (String c pre), post.
Qed.

Lemma extract_post_id_sound_witness :
  "a1"%string ≠ EmptyString
  ∧ alnum "a1" = true
  ∧ ∃ pre post,
      "https://www.reddit.com/r/dogs/comments/a1/first/"%string
      = (pre ++ "/comments/" ++ "a1" ++ "/" ++ post)%string.
Proof.
  apply (extract_post_id_sound
           "https://www.reddit.com/r/dogs/comments/a1/first/" "a1").
  reflexivity.
Defined.

Lemma prefix_app_l n p t :
  String.prefix n p = true → String.prefix n (String.append p t) = true.
Proof.
  intros [r ->]%prefix_spec. apply prefix_spec. exists (String.append r t).
  apply str_app_assoc.
Qed.

(** A prefix of [p ++ s] lies within [p], or covers [p] and goes on
    into [s]. *)
Lemma prefix_app_cases n p s :
  String.prefix n (String.append p s) = true →
  String.prefix n p = true
  ∨ ∃ n2, n = String.append p n2 ∧ String.prefix n2 s = true.
Proof.
  revert n. induction p as [|c p IH]; intros n; str_app.
  - intros H. right. by exists n.
  - destruct n as [|a n]; [by left|]. simpl.
    destruct (ascii_dec a c) as [->|]; [|done].
    intros [H|(n2 & -> & H)]%IH; [by left|]. right. exists n2. by str_app.
Qed.

Lemma contains_cons_false needle c t :
  PyStr.contains needle (String c t) = false →
  String.prefix needle (String c t) = false
  ∧ PyStr.contains needle t = false.
Proof. cbn [PyStr.contains]. by intros [? ?]%orb_false_elim. Qed.

Lemma match_here_miss c pre tail :
  String.prefix "/comments/" (String c pre ++ "/")%string = false →
  Identity.match_here (String c pre ++ "/comments/" ++ tail)%string = None.
Proof.
  intros Hfree. unfold Identity.match_here.
  destruct (String.prefix "/comments/"
              (String c pre ++ "/comments/" ++ tail)%string) eqn:E; [|done].
  exfalso.
  apply prefix_app_cases in E as [E|(n2 & Hn & E)].
  - by rewrite (prefix_app_l _ _ _ E) in Hfree.
  - str_app. injection Hn as <- Hn.
    do 9 (destruct pre as [|? pre];
          [str_app; subst n2;
           first [by vm_compute in E|by vm_compute in Hfree]
          |str_app; injection Hn as <- Hn]).
    destruct pre; [|done]. by vm_compute in Hfree.
Qed.

Lemma extract_post_id_here s pid :
  Identity.match_here s = Some pid → Identity.extract_post_id s = Some pid.
Proof. intros E. destruct s; cbn [Identity.extract_post_id]; by rewrite E. Qed.

(** X2.  Round trip: a url that carries ["/comments/" ++ pid ++ "/"],
    with [pid] a non-empty run of ASCII letters and digits, and nothing
    before it that reads as ["/comments/"], derives [pid]. *)
Theorem extract_post_id_round_trip (pre pid rest : string) :
  alnum pid = true →
  pid ≠ EmptyString →
  PyStr.contains "/comments/" (pre ++ "/")%string = false →
  Identity.extract_post_id (pre ++ "/comments/" ++ pid ++ "/" ++ rest)%string
  = Some pid.
Proof.
  intros Ha Hne. induction pre as [|c pre IH]; intros Hfree.
  - apply extract_post_id_here. by apply match_here_hit.
  - apply contains_cons_false in Hfree as [Hp Hc].
    change (String c pre ++ "/comments/" ++ pid ++ "/" ++ rest)%string
      with (String c (pre ++ "/comments/" ++ pid ++ "/" ++ rest))%string.
    cbn [Identity.extract_post_id].
    change (String c (pre ++ "/comments/" ++ pid ++ "/" ++ rest))%string
      with (String c pre ++ "/comments/" ++ pid ++ "/" ++ rest)%string.
    rewrite match_here_miss by done. by apply IH.
Qed.

Lemma extract_post_id_round_trip_witness :
  Identity.extract_post_id
    ("https://www.reddit.com/r/dogs" ++ "/comments/" ++ "a1" ++ "/" ++ "first/")%string
  = Some "a1"%string.
Proof.
  apply (extract_post_id_round_trip "https://www.reddit.com/r/dogs" "a1" "first/");
    [reflexivity|done|reflexivity].
Defined.

(** X3.  In a subreddit that is itself named [comments], the first match
    of the pattern is the subreddit's name: every post url derives the
    id ["comments"], whatever its own id is. *)
Theorem extract_post_id_in_r_comments (pid rest : string) :
  Identity.extract_post_id
    ("https://www.reddit.com/r/comments/comments/" ++ pid ++ "/" ++ rest)%string
  = Some "comments"%string.
Proof.
  set (tail := (pid ++ "/" ++ rest)%string).
  change ("https://www.reddit.com/r/comments/comments/" ++ tail)%string
    with ("https://www.reddit.com/r"
          ++ "/comments/" ++ "comments" ++ "/" ++ tail)%string.
  by apply extract_post_id_round_trip.
Qed.


Lemma prefix_nil s : String.prefix EmptyString s = true.
Proof. by destruct s. Qed.

Lemma prefix_cons a s c t :
  String.prefix (String a s) (String c t)
  = if ascii_dec a c then String.prefix s t else false.
Proof. done. Qed.

Lemma contains_slash_cons c s :
  PyStr.contains "/" (String c s) = false →
  Ascii.eqb c "/" = false ∧ PyStr.contains "/" s = false.
Proof.
  intros [Hp Hc]%contains_cons_false. split; [|done].
  destruct (Ascii.eqb_spec c "/") as [->|]; [|done].
  simpl in Hp. by rewrite prefix_nil in Hp.
Qed.

Lemma span_not_slash_free s : PyStr.contains "/" (Api.span_not_slash s) = false.
Proof.
  induction s as [|c t IH]; [done|]. cbn [Api.span_not_slash].
  destruct (Ascii.eqb_spec c "/") as [->|Hc]; [done|].
  cbn [PyStr.contains]. rewrite IH, orb_false_r, prefix_cons.
  by destruct (ascii_dec "/" c) as [<-|].
Qed.

Lemma span_not_slash_app name tail :
  PyStr.contains "/" name = false →
  tail = EmptyString ∨ String.prefix "/" tail = true →
  Api.span_not_slash (String.append name tail) = name.
Proof.
  intros Hfree Htail. induction name as [|c n IH]; str_app.
  - destruct Htail as [->|[t ->]%prefix_spec]; [done|]. by str_app.
  - apply contains_slash_cons in Hfree as [Hc Hn].
    cbn [Api.span_not_slash]. rewrite Hc. by rewrite IH.
Qed.

Lemma search_subreddit_Some url name :
  Api.search_subreddit url = Some name →
  name ≠ EmptyString ∧ PyStr.contains "/" name = false.
Proof.
  induction url as [|c t IH]; [by vm_compute|].
  cbn [Api.search_subreddit].
  set (nm := Api.span_not_slash (PyStr.drop 3 (String c t))).
  destruct (String.prefix "/r/" (String c t)); [|apply IH].
  destruct (PyStr.truthy nm) eqn:E; [|apply IH].
  intros [= <-]. split; [by destruct nm|apply span_not_slash_free].
Qed.

(** X4.  The name that [_extract_subreddit_name] returns is never empty
    and holds no ["/"]: it is usable as a directory name and as the
    value of the [subreddit] request parameter. *)
Theorem extract_subreddit_name_shape (url : string) :
  Api.extract_subreddit_name url ≠ EmptyString
  ∧ PyStr.contains "/" (Api.extract_subreddit_name url) = false.
Proof.
  unfold Api.extract_subreddit_name.
  destruct (Api.search_subreddit url) as [name|] eqn:E.
  - by apply search_subreddit_Some in E.
  - by split.
Qed.

Lemma search_subreddit_cons c s :
  Api.search_subreddit (String c s)
  = match
      (if String.prefix "/r/" (String c s)
       then if PyStr.truthy (Api.span_not_slash (PyStr.drop 3 (String c s)))
            then Some (Api.span_not_slash (PyStr.drop 3 (String c s)))
            else None
       else None)
    with
    | Some name => Some name
    | None => Api.search_subreddit s
    end.
Proof. done. Qed.

Lemma search_subreddit_skip c s :
  String.prefix "/r/" (String c s) = false →
  Api.search_subreddit (String c s) = Api.search_subreddit s.
Proof. intros H. by rewrite search_subreddit_cons, H. Qed.

Lemma search_subreddit_hit name tail :
  name ≠ EmptyString →
  PyStr.contains "/" name = false →
  tail = EmptyString ∨ String.prefix "/" tail = true →
  Api.search_subreddit (String "/" (String "r" (String "/" (name ++ tail))))
  = Some name.
Proof.
  intros Hne Hfree Htail. rewrite search_subreddit_cons.
  rewrite (proj2 (prefix_spec "/r/" _)) by (by exists (name ++ tail)%string).
  change (PyStr.drop 3 (String "/" (String "r" (String "/" (name ++ tail)))))
    with (name ++ tail)%string.
  rewrite span_not_slash_app by done. by destruct name.
Qed.

(** X5.  Round trip: from a subreddit url [https://www.reddit.com/r/NAME]
    followed by nothing or by a path, [_extract_subreddit_name] returns
    [NAME], for every non-empty [NAME] without a ["/"]. *)
Theorem extract_subreddit_name_round_trip (name tail : string) :
  name ≠ EmptyString →
  PyStr.contains "/" name = false →
  tail = EmptyString ∨ String.prefix "/" tail = true →
  Api.extract_subreddit_name ("https://www.reddit.com/r/" ++ name ++ tail)%string
  = name.
Proof.
  intros Hne Hfree Htail. unfold Api.extract_subreddit_name. str_app.
  do 22 (rewrite search_subreddit_skip by reflexivity).
  by rewrite search_subreddit_hit.
Qed.

Lemma extract_subreddit_name_round_trip_witness :
  Api.extract_subreddit_name ("https://www.reddit.com/r/" ++ "dogs" ++ "/new/")%string
  = "dogs"%string.
Proof.
  apply (extract_subreddit_name_round_trip "dogs" "/new/");
    [done|reflexivity|right; reflexivity].
Defined.

(* ===================================================================== *)
(** * Further properties: the frontier file and the progress computation   *)
(* ===================================================================== *)

Section FetchLoopMore.

Import FetchLoop.

(** X6.  [load_url_list] accepts exactly a frontier file that is marked
    complete and holds a non-empty list, with a range that is not
    empty after the bounds have been defaulted to the whole list and
    clamped to it: the range it sets is
    [[max(0, start), min(len - 1, end)]]. *)
Theorem load_url_list_spec
    (urls_file : option (bool * list url_item)) (start_index end_index : option Z)
    (url_list : list url_item) (s e : Z) :
  load_url_list urls_file start_index end_index = Some (url_list, s, e)
  ↔ urls_file = Some (true, url_list)
    ∧ url_list ≠ []
    ∧ s = Z.max 0 (default 0 start_index)
    ∧ e = Z.min (len url_list - 1) (default (len url_list - 1) end_index)
    ∧ s ≤ e.
Proof.
  unfold load_url_list.
  destruct urls_file as [[is_complete l]|]; cbn [mbind option_bind];
    [|naive_solver].
  destruct is_complete; cbn [negb]; [|naive_solver].
  destruct l as [|u l]; [naive_solver|].
  set (n := len (u :: l)).
  set (s0 := default 0 start_index). set (e0 := default (n - 1) end_index).
  assert ((if s0 <? 0 then 0 else s0) = Z.max 0 s0) as ->
    by (destruct (Z.ltb_spec s0 0); lia).
  assert ((if n <=? e0 then n - 1 else e0) = Z.min (n - 1) e0) as ->
    by (destruct (Z.leb_spec n e0); lia).
  destruct (Z.ltb_spec (Z.min (n - 1) e0) (Z.max 0 s0)).
  - split; [done|]. intros (Hf & _ & -> & He & Hle).
    injection Hf as <-. fold n in He. fold e0 in He. lia.
  - split.
    + intros [= <- <- <-]. by repeat split.
    + intros (Hf & _ & -> & He & Hle). injection Hf as <-.
      fold n in He. fold e0 in He. by subst e.
Qed.

Lemma seqZ_sorted m n : StronglySorted Z.lt (seqZ m n).
Proof.
  destruct (Z.le_gt_cases n 0) as [?|Hn]; [rewrite seqZ_nil by done; constructor|].
  rewrite <-(Z2Nat.id n) by lia. generalize (Z.to_nat n) as k. clear.
  intros k. revert m. induction k as [|k IH]; intros m.
  - rewrite seqZ_nil by done. constructor.
  - rewrite seqZ_cons by lia. constructor.
    + replace (Z.pred (Z.of_nat (S k))) with (Z.of_nat k) by lia. apply IH.
    + apply Forall_forall. intros x Hx%elem_of_seqZ. lia.
Qed.

Lemma filter_sorted {A} (R : A → A → Prop) (P : A → Prop)
    `{∀ x, Decision (P x)} l :
  StronglySorted R l → StronglySorted R (filter P l).
Proof.
  induction 1 as [|x l Hl IH Hx]; [constructor|].
  rewrite filter_cons. destruct (decide (P x)); [|done].
  constructor; [done|]. apply Forall_forall.
  intros y Hy%list_elem_of_filter.
  rewrite Forall_forall in Hx. apply Hx. tauto.
Qed.

Lemma length_filter_split {A} (P : A → Prop) `{∀ x, Decision (P x)} (l : list A) :
  (length (filter P l) + length (filter (λ x, ¬ P x) l) = length l)%nat.
Proof.
  induction l as [|x l IH]; [done|]. rewrite !filter_cons.
  destruct (decide (P x)), (decide (¬ P x)); simpl; try lia; tauto.
Qed.

(** X7.  [load_crawl_progress]: the pending indexes come in strictly
    ascending order; an index is pending exactly when it lies in the
    range and no row of this subreddit in the table carries it; and the
    pending indexes and the crawled ones, counted once each, make up
    the range. *)
Theorem load_crawl_progress_partition
    (db : gmap string row) (subreddit_name : string) (s e : Z) :
  StronglySorted Z.lt (load_crawl_progress db subreddit_name s e).1
  ∧ (∀ i, i ∈ (load_crawl_progress db subreddit_name s e).1
          ↔ s ≤ i ≤ e
            ∧ ¬ ∃ k r, db !! k = Some r
                       ∧ subreddit (r_data r) = Some subreddit_name
                       ∧ index (r_data r) = i)
  ∧ len (load_crawl_progress db subreddit_name s e).1
    + (load_crawl_progress db subreddit_name s e).2
    = Z.max 0 (e + 1 - s).
Proof.
  split; [|split].
  - apply filter_sorted, seqZ_sorted.
  - intros i. rewrite elem_of_pending, elem_of_crawled. split.
    + intros [Hr Hn]. split; [done|]. intros (k & r & Hk & Hs & Hi).
      apply Hn. exists k, r. split; [done|]. split; [|done].
      unfold in_scope. rewrite Hs, String.eqb_refl. simpl.
      apply andb_true_intro. split; [apply Z.leb_le|apply Z.leb_le]; lia.
    + intros [Hr Hn]. split; [done|]. intros (k & r & Hk & Hs & Hi).
      apply Hn. exists k, r. split; [done|]. split; [|done].
      unfold in_scope in Hs. destruct (subreddit (r_data r)) as [sr|]; [|done].
      apply andb_prop in Hs as [[Hs%String.eqb_eq _]%andb_prop _]. by subst.
  - unfold load_crawl_progress. cbn [fst snd].
    set (crawled := get_crawled_indexes_from_db db subreddit_name s e).
    set (range := seqZ s (e + 1 - s)).
    pose proof (length_filter_split (λ i, i ∈ crawled) range) as Hsplit.
    assert (size crawled = length (filter (λ i, i ∈ crawled) range)) as Hsize.
    { transitivity
        (size (list_to_set (C:=gset Z) (filter (λ i, i ∈ crawled) range)));
        [|apply size_list_to_set, NoDup_filter, NoDup_seqZ].
      f_equal. apply set_eq. intros i.
      rewrite elem_of_list_to_set, list_elem_of_filter. unfold range.
      rewrite elem_of_seqZ. split; [|tauto]. intros Hi. split; [done|].
      apply elem_of_crawled in Hi as (k & r & _ & Hs & <-).
      unfold in_scope in Hs. destruct (subreddit (r_data r)); [|done].
      apply andb_prop in Hs as [[_ H1%Z.leb_le]%andb_prop H2%Z.leb_le]. lia. }
    unfold len. rewrite Hsize.
    assert (length range = Z.to_nat (e + 1 - s)) as Hlen by apply length_seqZ.
    lia.
Qed.

Lemma save_to_sqlite_lookup sk n posts_data (db : gmap string row) pid :
  save_to_sqlite sk n posts_data db !! pid
  = match last (filter (λ p, post_id p = pid ∧ insert_ok sk n p = true)
                  posts_data) with
    | Some p => Some (Row p (now sk n) None)
    | None => db !! pid
    end.
Proof.
  induction posts_data as [|p l IH] using rev_ind; [done|].
  rewrite save_to_sqlite_snoc, lookup_insert_row, filter_app.
  rewrite filter_cons, filter_nil.
  destruct (insert_ok sk n p) eqn:Hok; cbn [andb].
  - case_bool_decide as Hid.
    + rewrite decide_True by done. by rewrite last_snoc.
    + rewrite decide_False by tauto. by rewrite app_nil_r.
  - rewrite decide_False by (intros [_ ?]; congruence). by rewrite app_nil_r.
Qed.

(** X8.  [_save_to_sqlite] writes with [INSERT OR REPLACE] on the key
    [post_id].  After a call, the row of an id is that of the last post
    of the batch that carries the id and whose [INSERT] went through:
    its columns, the clock reading of the call and a null
    [llm_analyze_result], whatever the row held before; it is the row
    the table had when the batch has no such post.  A later call on the
    same batch, with the same statements going through, leaves the
    table as if it had been the only call: nothing of the first is
    left, its [crawled_at] included. *)
Theorem save_to_sqlite_last_wins :
  (∀ (sk : sink) (n : Z) (posts_data : list post_data) (db : gmap string row)
     (pid : string),
     save_to_sqlite sk n posts_data db !! pid
     = match last (filter (λ p, post_id p = pid ∧ insert_ok sk n p = true)
                     posts_data) with
       | Some p => Some (Row p (now sk n) None)
       | None => db !! pid
       end)
  ∧ (∀ (sk : sink) (n m : Z) (posts_data : list post_data)
       (db : gmap string row),
       (∀ p, p ∈ posts_data → insert_ok sk m p = insert_ok sk n p) →
       save_to_sqlite sk m posts_data (save_to_sqlite sk n posts_data db)
       = save_to_sqlite sk m posts_data db).
Proof.
  split; [exact save_to_sqlite_lookup|].
  intros sk n m posts_data db Hsame. apply map_eq. intros pid.
  rewrite !save_to_sqlite_lookup.
  assert (filter (λ p, post_id p = pid ∧ insert_ok sk n p = true) posts_data
          = filter (λ p, post_id p = pid ∧ insert_ok sk m p = true) posts_data)
    as ->.
  { clear db. induction posts_data as [|p l IH]; [done|].
    rewrite !filter_cons, IH by (intros q Hq; apply Hsame; by right).
    by rewrite <-(Hsame p ltac:(left)). }
  by destruct (last _).
Qed.

Lemma save_to_sqlite_last_wins_witness :
  save_to_sqlite good_sink 1 [sample_row_post]
    (save_to_sqlite good_sink 0 [sample_row_post] ∅)
  = save_to_sqlite good_sink 1 [sample_row_post] ∅.
Proof.
  apply (proj2 save_to_sqlite_last_wins good_sink 0 1 [sample_row_post] ∅).
  done.
Defined.


Lemma insert_row_dom sk n pd (db : gmap string row) k :
  is_Some (db !! k) → is_Some (insert_row sk n pd db !! k).
Proof.
  intros Hk. rewrite lookup_insert_row. by destruct (_ && _); [eexists|].
Qed.

Lemma write_rows_dom up sk url_list l b n (db : gmap string row) k :
  is_Some (db !! k) → is_Some (write_rows up sk url_list l b n db !! k).
Proof.
  revert b n db. induction l as [|i l IH]; intros b n db Hk; [done|].
  rewrite write_rows_cons.
  destruct (attempt up url_list i) as [[pd|]|]; [|by apply IH..].
  destruct (_ =? 0); by apply IH, insert_row_dom.
Qed.

(** X10.  What a run of [crawl_posts] leaves behind: it has fetched a
    prefix of the pending indexes, in order; nothing is left in the
    buffer; the table holds the rows it held, and over them, in the
    order of the fetches, the row of every post that was fetched and
    whose [INSERT] went through, stamped by the save that flushed it;
    and no row has been deleted.  A post whose [INSERT] fails is in
    neither the buffer nor the table. *)
Theorem crawl_posts_writes
    (up : upstream) (sk : sink) (subreddit_name : string)
    (urls_file : option (bool * list url_item))
    (start_index end_index : option Z) (db0 : gmap string row)
    (url_list : list url_item) (s e : Z) (r : report) :
  load_url_list urls_file start_index end_index = Some (url_list, s, e) →
  crawl_posts up sk subreddit_name urls_file start_index end_index db0
  = Some r →
  (∃ rest, (load_crawl_progress db0 subreddit_name s e).1
           = fetched (final r) ++ rest)
  ∧ all_posts_data (final r) = []
  ∧ db (final r) = write_rows up sk url_list (fetched (final r)) 0 0 db0
  ∧ ∀ k, is_Some (db0 !! k) → is_Some (db (final r) !! k).
Proof.
  intros Hload Hrun.
  rewrite (crawl_posts_unfold _ _ _ _ _ _ _ _ _ _ Hload) in Hrun.
  assert (∃ rest, (load_crawl_progress db0 subreddit_name s e).1
                  = fetched (final r) ++ rest
          ∧ all_posts_data (final r) = []
          ∧ db (final r)
            = write_rows up sk url_list (fetched (final r)) 0 0 db0)
    as (rest & Hp & Hb & Hdb).
  { destruct (load_crawl_progress db0 subreddit_name s e).1 as [|i0 p] eqn:Ep.
    { injection Hrun as <-. by exists []. }
    destruct (fetch_loop_writes up sk url_list (i0 :: p)
                (initial_run db0 subreddit_name start_index s e))
      as (fetched_now & rest & Hl & Hf & Hw & _); [unfold len; cbn; lia|].
    cbn beta iota zeta in Hrun.
    destruct (fetch_loop up sk url_list (i0 :: p) _) as [st ex].
    injection Hrun as <-. cbn [final fst] in *.
    destruct (save_data_fields sk st (current_index st))
      as (_ & -> & -> & -> & _).
    exists rest. rewrite Hw, Hf. by split. }
  split; [by exists rest|]. split; [done|]. split; [done|].
  intros k Hk. rewrite Hdb. by apply write_rows_dom.
Qed.

Lemma crawl_posts_writes_witness :
  ∃ r, crawl_posts wit_upstream refusing_sink "dogs" (Some (true, wit_urls))
         None None ∅
       = Some r
       ∧ all_posts_data (final r) = []
       ∧ db (final r)
         = write_rows wit_upstream refusing_sink wit_urls (fetched (final r))
             0 0 ∅.
Proof.
  destruct (crawl_posts wit_upstream refusing_sink "dogs"
              (Some (true, wit_urls)) None None ∅)
    as [r|] eqn:E; [|by vm_compute in E].
  exists r. split; [done|].
  destruct (crawl_posts_writes wit_upstream refusing_sink "dogs"
              (Some (true, wit_urls)) None None ∅ wit_urls 0 6 r)
    as (_ & ? & ? & _);
    [vm_compute; reflexivity|exact E|by split].
Defined.

(** X11.  [fetch_post_json] gives up, returning [None], in exactly three
    cases: the url derives no id; the submission endpoint fails or
    returns no record for the id; or the record's title is null, on
    which the log line raises.  A failing comment endpoint is not one
    of them. *)
Theorem fetch_post_json_none
    (up : upstream) (post_url : string) (url_index : Z) (source : option string) :
  fetch_post_json up post_url url_index source = None
  ↔ Identity.extract_post_id post_url = None
    ∨ ∃ post_id,
        Identity.extract_post_id post_url = Some post_id
        ∧ (submission_of up post_id = None
           ∨ ∃ post_info, submission_of up post_id = Some post_info
                          ∧ s_title post_info = Null).
Proof.
  unfold fetch_post_json.
  destruct (Identity.extract_post_id post_url) as [pid|];
    cbn [mbind option_bind]; [|by split; [left|]].
  destruct (submission_of up pid) as [info|] eqn:Es; cbn [mbind option_bind].
  - destruct (s_title info) as [| |t] eqn:Et; cbn [jget mbind option_bind].
    + split; [done|]. intros [?|(p & [= <-] & [?|(i' & ? & ?)])]; congruence.
    + split; [|done]. intros _. right. exists pid. split; [done|].
      right. by exists info.
    + split; [done|]. intros [?|(p & [= <-] & [?|(i' & ? & ?)])]; congruence.
  - split; [|done]. intros _. right. exists pid. split; [done|]. by left.
Qed.

Lemma build_comment_tree_Some flat forest :
  Comments.build_comment_tree flat = Some forest →
  ∃ d2,
    Forall2 (λ r t, Comments.reify (S (length d2)) d2 r = Some t)
      (filter (λ c, target (Comments.index_loop flat []) c = Some ToRoot)
         (PyDict.keys (Comments.index_loop flat [])))
      forest
    ∧ image skel_slot d2 = image skel_slot (Comments.index_loop flat [])
    ∧ Forall counted (Comments.forest_nodes forest).
Proof.
  intros Hb.
  assert (∃ r, Comments.link_loop
                 (PyDict.keys (Comments.index_loop flat []))
                 (Comments.index_loop flat []) [] = Some r) as [r Hr].
  { unfold Comments.build_comment_tree, Comments.build_store in Hb.
    destruct (Comments.link_loop _ _ _) as [r|]; [by exists r|done]. }
  pose proof (link_loop_Some_inv _ _ _ _ Hr) as Htg.
  destruct (build_comment_tree_spec flat Htg)
    as (d2 & forest' & Hs & Hb' & Hf & Hc).
  destruct (build_store_spec flat Htg) as (d2' & Hs' & Hsk & _).
  assert (forest' = forest) as -> by congruence.
  assert (d2' = d2) as -> by congruence.
  by exists d2.
Qed.

Lemma fetch_all_comments_counted data :
  Forall counted (Comments.forest_nodes (Comments.fetch_all_comments data)).
Proof.
  destruct data as [[|c data]|]; try constructor.
  unfold Comments.fetch_all_comments.
  destruct (Comments.build_comment_tree _) as [forest|] eqn:Hb; [|constructor].
  simpl. by apply build_comment_tree_Some in Hb as (? & ? & ? & ?).
Qed.

(** X12.  The row that [fetch_post_json] builds hangs together: it
    carries the index and the url it was asked for and the id the url
    derives; its comments are what the comment fetch returned, each
    node with [reply_count == len(replies)]; [num_comments_filtered] is
    the number of nodes of that forest, at every depth; and a row marked
    valid has a title that is not empty. *)
Theorem fetch_post_json_row
    (up : upstream) (post_url : string) (url_index : Z) (source : option string)
    (pd : post_data) :
  fetch_post_json up post_url url_index source = Some pd →
  index pd = url_index
  ∧ FetchLoop.post_url pd = post_url
  ∧ collect_source pd = source
  ∧ Identity.extract_post_id post_url = Some (post_id pd)
  ∧ comments pd = Comments.fetch_all_comments (comments_of up (post_id pd))
  ∧ num_comments_filtered pd = len (Comments.forest_nodes (comments pd))
  ∧ Forall counted (Comments.forest_nodes (comments pd))
  ∧ (is_valid pd = true → title pd ≠ EmptyString).
Proof.
  unfold fetch_post_json.
  destruct (Identity.extract_post_id post_url) as [pid|];
    cbn [mbind option_bind]; [|done].
  destruct (submission_of up pid) as [info|]; cbn [mbind option_bind]; [|done].
  destruct (s_title info) as [| |t]; cbn [jget mbind option_bind]; [|done|];
    intros [= <-]; cbn; repeat split;
    try apply count_comments_nodes;
    try apply fetch_all_comments_counted;
    try done.
  by destruct t.
Qed.

Lemma fetch_post_json_row_witness :
  ∃ pd,
    fetch_post_json wit_upstream (url (wit_url "a1")) 0 (Some "unknown"%string)
    = Some pd
    ∧ index pd = 0
    ∧ post_id pd = "a1"%string
    ∧ num_comments_filtered pd = len (Comments.forest_nodes (comments pd)).
Proof.
  destruct (fetch_post_json wit_upstream (url (wit_url "a1")) 0
              (Some "unknown"%string)) as [pd|] eqn:E; [|by vm_compute in E].
  exists pd. split; [done|].
  destruct (fetch_post_json_row _ _ _ _ _ E) as (? & _ & _ & Hid & _ & ? & _).
  split; [done|]. split; [|done].
  assert (Identity.extract_post_id (url (wit_url "a1")) = Some "a1"%string)
    as Hx by reflexivity.
  rewrite Hx in Hid. by injection Hid.
Defined.

(** X13.  [_is_post_valid] accepts a title exactly when it is a
    non-empty string in which neither ["deleted by"] nor ["removed by"]
    occurs, whatever the case of the letters. *)
Theorem is_post_valid_spec (title : option string) :
  is_post_valid title = true
  ↔ ∃ t, title = Some t
         ∧ t ≠ EmptyString
         ∧ ¬ occurs_ignoring_case "deleted by" title
         ∧ ¬ occurs_ignoring_case "removed by" title.
Proof.
  unfold is_post_valid. destruct title as [t|]; [|by split; [|intros (? & ? & _)]].
  pose proof (contains_body_lower "deleted by" (Some t)) as Hd.
  pose proof (contains_body_lower "removed by" (Some t)) as Hr.
  cbn [Comments.body_lower] in Hd, Hr.
  destruct (PyStr.truthy t) eqn:Et.
  - assert (t ≠ EmptyString) as Hne by (by intros ->).
    destruct (PyStr.contains "deleted by" _), (PyStr.contains "removed by" _);
      cbn; split; try done;
      try (intros (? & _ & _ & H1 & H2); exfalso;
           first [by apply H1, Hd|by apply H2, Hr]).
    intros _. exists t. split; [done|]. split; [done|].
    split; [by intros ?%Hd|by intros ?%Hr].
  - split; [done|]. intros (t' & [= <-] & Hne & _). by destruct t.
Qed.

End FetchLoopMore.

(* ===================================================================== *)
(** * Further properties: the listing collector                            *)
(* ===================================================================== *)

Lemma process_api_response_trace posts max_posts st :
  ∃ added,
    Api.collected_urls (Api.process_api_response posts max_posts st)
    = Api.collected_urls st ++ added
    ∧ len added
      = Api.new_count (Api.process_api_response posts max_posts st)
        - Api.new_count st
    ∧ Api.duplicate_count st
      ≤ Api.duplicate_count (Api.process_api_response posts max_posts st)
    ∧ Api.deleted_count st
      ≤ Api.deleted_count (Api.process_api_response posts max_posts st)
    ∧ len added
      + (Api.duplicate_count (Api.process_api_response posts max_posts st)
         - Api.duplicate_count st)
      + (Api.deleted_count (Api.process_api_response posts max_posts st)
         - Api.deleted_count st)
      ≤ len posts
    ∧ Api.collected_post_ids st
      ⊆ Api.collected_post_ids (Api.process_api_response posts max_posts st).
Proof.
  revert st. induction posts as [|p rest IH]; intros st.
  { exists []. rewrite app_nil_r. cbn. unfold len. cbn. repeat split; try done; lia. }
  assert (len (p :: rest) = len rest + 1) as Hlen
    by (unfold len; cbn [length]; lia).
  assert (0 ≤ len rest) as Hpos by (unfold len; lia).
  assert (∃ added,
            Api.collected_urls (Api.process_api_response rest max_posts st)
            = Api.collected_urls st ++ added
            ∧ len added
              = Api.new_count (Api.process_api_response rest max_posts st)
                - Api.new_count st
            ∧ Api.duplicate_count st
              ≤ Api.duplicate_count (Api.process_api_response rest max_posts st)
            ∧ Api.deleted_count st
              ≤ Api.deleted_count (Api.process_api_response rest max_posts st)
            ∧ len added
              + (Api.duplicate_count (Api.process_api_response rest max_posts st)
                 - Api.duplicate_count st)
              + (Api.deleted_count (Api.process_api_response rest max_posts st)
                 - Api.deleted_count st)
              ≤ len (p :: rest)
            ∧ Api.collected_post_ids st
              ⊆ Api.collected_post_ids
                  (Api.process_api_response rest max_posts st)) as Hskip.
  { destruct (IH st) as (added & ? & ? & ? & ? & ? & ?).
    exists added. repeat split; try done. lia. }
  cbn [Api.process_api_response].
  destruct (max_posts <=? _).
  { exists []. rewrite app_nil_r. unfold len. cbn. repeat split; try done; lia. }
  destruct (Api.id p) as [pid|]; [|exact Hskip].
  destruct (Api.permalink p) as [pl|]; [|exact Hskip].
  destruct (jget_none (Api.created_utc p)) as [cu|]; [|exact Hskip].
  destruct (_ && _); [|exact Hskip].
  case_bool_decide; [|destruct (Api.is_deleted_post p)];
    match goal with
    | |- context [Api.process_api_response rest max_posts ?s] =>
        destruct (IH s) as (added & Hu & Hn & Hd & Hx & Hsum & Hi);
        cbn [Api.collected_urls Api.new_count Api.duplicate_count
             Api.deleted_count Api.collected_post_ids] in *
    end.
  - exists added. repeat split; try done; lia.
  - exists added. repeat split; try done; try lia. set_solver.
  - eexists (_ :: added). rewrite Hu, <-app_assoc. split; [done|].
    assert (len (Api.Entry ("https://www.reddit.com" ++ pl) (Some cu) :: added)
            = len added + 1) as -> by (unfold len; cbn [length]; lia).
    repeat split; try lia. set_solver.
Qed.

(** X14.  What [_process_api_response] reports: the entries it appends
    go after those the list held, and [new_count] is their number; the
    three counters are not negative and together count at most the
    items of the page; and the seen-id set only grows. *)
Theorem process_api_response_counts
    (new_posts : list Api.post) (max_posts : Z)
    (collected_urls : list Api.entry) (collected_post_ids : gset string) :
  ∃ added,
    Api.collected_urls
      (Api.process_api_response new_posts max_posts
         (Api.PageState collected_urls collected_post_ids 0 0 0))
    = collected_urls ++ added
    ∧ Api.new_count
        (Api.process_api_response new_posts max_posts
           (Api.PageState collected_urls collected_post_ids 0 0 0))
      = len added
    ∧ 0 ≤ Api.duplicate_count
            (Api.process_api_response new_posts max_posts
               (Api.PageState collected_urls collected_post_ids 0 0 0))
    ∧ 0 ≤ Api.deleted_count
            (Api.process_api_response new_posts max_posts
               (Api.PageState collected_urls collected_post_ids 0 0 0))
    ∧ Api.new_count
        (Api.process_api_response new_posts max_posts
           (Api.PageState collected_urls collected_post_ids 0 0 0))
      + Api.duplicate_count
          (Api.process_api_response new_posts max_posts
             (Api.PageState collected_urls collected_post_ids 0 0 0))
      + Api.deleted_count
          (Api.process_api_response new_posts max_posts
             (Api.PageState collected_urls collected_post_ids 0 0 0))
      ≤ len new_posts
    ∧ collected_post_ids
      ⊆ Api.collected_post_ids
          (Api.process_api_response new_posts max_posts
             (Api.PageState collected_urls collected_post_ids 0 0 0)).
Proof.
  destruct (process_api_response_trace new_posts max_posts
              (Api.PageState collected_urls collected_post_ids 0 0 0))
    as (added & Hu & Hn & Hd & Hx & Hsum & Hi).
  cbn [Api.collected_urls Api.new_count Api.duplicate_count
       Api.deleted_count Api.collected_post_ids] in *.
  exists added. repeat split; try done; lia.
Qed.

Lemma page_result_grows max_posts st posts :
  Api.urls st `prefix_of` Api.collected_urls (page_result max_posts st posts)
  ∧ Api.post_ids st ⊆ Api.collected_post_ids (page_result max_posts st posts).
Proof.
  destruct (process_api_response_trace posts max_posts
              (Api.PageState (Api.urls st) (Api.post_ids st) 0 0 0))
    as (added & Hu & _ & _ & _ & _ & Hi).
  unfold page_result. split; [by exists added|done].
Qed.

(** The states that the loop goes through only extend the list and the
    set, and what it returns is the head of the list it ends with. *)
Lemma collect_loop_grows v max_posts script st :
  Api.urls st `prefix_of` Api.urls (api_state (Api.collect_loop v max_posts script st))
  ∧ Api.post_ids st
    ⊆ Api.post_ids (api_state (Api.collect_loop v max_posts script st))
  ∧ api_frontier (Api.collect_loop v max_posts script st)
    = match Api.collect_loop v max_posts script st with
      | Returned _ st' => py_take max_posts (Api.urls st')
      | _ => Api.urls (api_state (Api.collect_loop v max_posts script st))
      end.
Proof.
  assert (∀ s, Api.urls s `prefix_of` Api.urls (api_state (Api.finish v max_posts s))
               ∧ Api.post_ids s
                 ⊆ Api.post_ids (api_state (Api.finish v max_posts s))
               ∧ api_frontier (Api.finish v max_posts s)
                 = match Api.finish v max_posts s with
                   | Returned _ st' => py_take max_posts (Api.urls st')
                   | _ => Api.urls (api_state (Api.finish v max_posts s))
                   end) as Hfin.
  { intros s. destruct (finish_ok v max_posts s) as (s' & -> & Hu & Hi & _).
    cbn. rewrite Hu, Hi. done. }
  assert (∀ s s' : Api.state,
            Api.urls s `prefix_of` Api.urls s' → Api.post_ids s ⊆ Api.post_ids s' →
            ∀ o,
              (Api.urls s' `prefix_of` Api.urls (api_state o)
               ∧ Api.post_ids s' ⊆ Api.post_ids (api_state o)
               ∧ api_frontier o
                 = match o with
                   | Returned _ st' => py_take max_posts (Api.urls st')
                   | _ => Api.urls (api_state o)
                   end) →
              Api.urls s `prefix_of` Api.urls (api_state o)
              ∧ Api.post_ids s ⊆ Api.post_ids (api_state o)
              ∧ api_frontier o
                = match o with
                  | Returned _ st' => py_take max_posts (Api.urls st')
                  | _ => Api.urls (api_state o)
                  end) as Hstep.
  { intros s s' Hp Hi o (Hp' & Hi' & Hf). split; [by etrans|]. split; [|done].
    set_solver. }
  revert st. induction script as [|r script IH]; intros st.
  - cbn [Api.collect_loop]. destruct (_ <? _); [done|apply Hfin].
  - cbn [Api.collect_loop]. destruct (_ <? _); [|apply Hfin].
    destruct r as [| | |posts|].
    + destruct (3 <=? _);
        (eapply Hstep; [| |first [apply Hfin|apply IH]]; done).
    + destruct (5 <=? _);
        (eapply Hstep; [| |first [apply Hfin|apply IH]]; done).
    + destruct (3 <=? _);
        (eapply Hstep; [| |first [apply Hfin|apply IH]]; done).
    + destruct posts as [|p posts]; [apply Hfin|].
      destruct (page_result_grows max_posts st (p :: posts)) as [Hp Hi].
      unfold page_result in Hp, Hi.
      set (ps := Api.process_api_response (p :: posts) max_posts _) in *.
      cbv zeta.
      destruct (Api.zero_new v ps && _).
      { eapply Hstep; [| |apply Hfin]; done. }
      destruct (Api.next_before _ _) as [b|].
      * eapply Hstep; [| |apply IH]; by destruct (_ || _).
      * destruct (3 <=? _);
          (eapply Hstep; [| |first [apply Hfin|apply IH]]; done).
    + done.
Qed.



Lemma error_turn v max_posts r threshold rest st :
  (r = Api.HttpError ∧ threshold = 3
   ∨ r = Api.RequestError ∧ threshold = 5
   ∨ r = Api.OtherError ∧ threshold = 3) →
  len (Api.urls st) < max_posts →
  Api.collect_loop v max_posts (r :: rest) st
  = if threshold <=? Api.consecutive_errors st + 1
    then Api.finish v max_posts
           (Api.with_errors st (Api.consecutive_errors st + 1))
    else Api.collect_loop v max_posts rest
           (Api.with_errors st (Api.consecutive_errors st + 1)).
Proof.
  intros Hr Hlt. cbn [Api.collect_loop].
  destruct (Z.ltb_spec (len (Api.urls st)) max_posts); [|lia].
  by destruct Hr as [[-> ->]|[[-> ->]|[-> ->]]].
Qed.

Lemma errors_tolerated_run v max_posts errs st :
  len (Api.urls st) < max_posts →
  errors_tolerated (Api.consecutive_errors st) errs = true →
  ∀ rest,
    Api.collect_loop v max_posts (errs ++ rest) st
    = Api.collect_loop v max_posts rest
        (Api.with_errors st (Api.consecutive_errors st + len errs)).
Proof.
  revert st. induction errs as [|r errs IH]; intros st Hlt Htol rest.
  - cbn [app]. f_equal. unfold len. cbn. rewrite Z.add_0_r. by destruct st.
  - assert (len (r :: errs) = len errs + 1) as ->
      by (unfold len; cbn [length]; lia).
    cbn [errors_tolerated] in Htol.
    apply andb_prop in Htol as [[Herr Hbelow%Z.ltb_lt]%andb_prop Htol].
    cbn [app].
    rewrite (error_turn v max_posts r (error_threshold r))
      by (done || by destruct r; auto).
    destruct (Z.leb_spec (error_threshold r) (Api.consecutive_errors st + 1));
      [lia|].
    rewrite IH by done. cbn. f_equal. f_equal. lia.
Qed.

(** X16.  The errors of the listing collector feed one counter, and each
    kind has its threshold: 3 for an HTTP status other than 200 and for
    an unexpected exception, 5 for a request error.  As long as every
    error leaves the counter below its own threshold the collector goes
    on asking; the first error that brings the counter to its
    threshold ends the collection, which returns the list as it was,
    cut to the target, without reading what the upstream would have
    answered next. *)
Theorem listing_error_breaker
    (v : Api.variant) (max_posts : Z) (st : Api.state)
    (errs : list Api.response) (r : Api.response) (rest : list Api.response) :
  len (Api.urls st) < max_posts →
  errors_tolerated (Api.consecutive_errors st) errs = true →
  is_error r = true →
  error_threshold r ≤ Api.consecutive_errors st + len errs + 1 →
  Api.collect_loop v max_posts errs st
  = Waiting (Api.with_errors st (Api.consecutive_errors st + len errs))
  ∧ ∃ st',
      Api.collect_loop v max_posts (errs ++ r :: rest) st
      = Returned (py_take max_posts (Api.urls st)) st'
      ∧ Api.urls st' = Api.urls st
      ∧ Api.consecutive_errors st' = Api.consecutive_errors st + len errs + 1.
Proof.
  intros Hlt Htol Herr Hreach. split.
  - rewrite <-(app_nil_r errs) at 1. rewrite errors_tolerated_run by done.
    cbn [Api.collect_loop Api.with_errors Api.urls].
    by destruct (Z.ltb_spec (len (Api.urls st)) max_posts); [|lia].
  - rewrite errors_tolerated_run by done.
    rewrite (error_turn v max_posts r (error_threshold r))
      by (done || by destruct r; auto).
    cbn [Api.with_errors Api.consecutive_errors].
    destruct (Z.leb_spec (error_threshold r)
                (Api.consecutive_errors st + len errs + 1)); [|lia].
    unfold Api.finish. destruct (_ || _); eexists; cbn; done.
Qed.

Lemma listing_error_breaker_witness :
  Api.collect_loop Api.stage1 100 [Api.RequestError; Api.RequestError]
    stalled_state
  = Waiting (Api.with_errors stalled_state
               (Api.consecutive_errors stalled_state
                + len [Api.RequestError; Api.RequestError]))
  ∧ ∃ st',
      Api.collect_loop Api.stage1 100
        ([Api.RequestError; Api.RequestError] ++ Api.HttpError :: sample_script)
        stalled_state
      = Returned (py_take 100 (Api.urls stalled_state)) st'
      ∧ Api.urls st' = Api.urls stalled_state
      ∧ Api.consecutive_errors st'
        = Api.consecutive_errors stalled_state
          + len [Api.RequestError; Api.RequestError] + 1.
Proof.
  apply (listing_error_breaker Api.stage1 100 stalled_state
           [Api.RequestError; Api.RequestError] Api.HttpError sample_script);
    by vm_compute.
Defined.

Lemma prefix_of_same_length {A} (l1 l2 : list A) :
  l1 `prefix_of` l2 → length l2 = length l1 → l2 = l1.
Proof.
  intros [k ->] Hlen. rewrite length_app in Hlen.
  destruct k; [by rewrite app_nil_r|simpl in Hlen; lia].
Qed.

Lemma finish_current v max_posts urls0 st :
  progress_inv max_posts urls0 st →
  progress_current max_posts urls0 (api_state (Api.finish v max_posts st)).
Proof.
  unfold progress_inv, progress_current, Api.finish. intros Hinv.
  destruct (negb (len (Api.urls st) =? Api.last_save_count st)
            || (max_posts <=? len (Api.urls st))) eqn:Hsave; cbn; [done|].
  apply orb_false_elim in Hsave as [Heq%negb_false_iff%Z.eqb_eq Hmax].
  destruct (Api.state_file st) as [p|].
  - destruct Hinv as (Hs & Hr & Hc). rewrite Hs, Hc, <-Heq. split; [|done].
    apply take_ge. unfold len. lia.
  - destruct Hinv as [Hl Hp]. apply prefix_of_same_length; [done|].
    unfold len in *. lia.
Qed.

Lemma progress_inv_grow max_posts urls0 (st st' : Api.state) :
  progress_inv max_posts urls0 st →
  Api.urls st `prefix_of` Api.urls st' →
  Api.last_save_count st' = Api.last_save_count st →
  Api.state_file st' = Api.state_file st →
  progress_inv max_posts urls0 st'.
Proof.
  unfold progress_inv. intros Hinv [k Hk] -> ->.
  destruct (Api.state_file st) as [p|].
  - destruct Hinv as (Hs & Hr & Hc). rewrite Hk.
    split; [|split; [|done]].
    + rewrite take_app_le by (unfold len in Hr; lia). done.
    + unfold len in *. rewrite length_app. lia.
  - destruct Hinv as [Hl Hp]. split; [done|]. rewrite Hk.
    by apply prefix_app_r.
Qed.

Lemma collect_loop_progress v max_posts urls0 script st :
  progress_inv max_posts urls0 st →
  match Api.collect_loop v max_posts script st with
  | Waiting _ => True
  | Returned _ st' | Raised st' => progress_current max_posts urls0 st'
  end.
Proof.
  revert st.
  assert (∀ s, progress_inv max_posts urls0 s →
               match Api.finish v max_posts s with
               | Waiting _ => True
               | Returned _ st' | Raised st' =>
                   progress_current max_posts urls0 st'
               end) as Hfin.
  { intros s Hs. pose proof (finish_current v max_posts urls0 s Hs) as H.
    unfold Api.finish in *. by destruct (_ || _). }
  induction script as [|r script IH]; intros st Hinv.
  - cbn [Api.collect_loop]. destruct (_ <? _); [done|by apply Hfin].
  - cbn [Api.collect_loop]. destruct (_ <? _); [|by apply Hfin].
    destruct r as [| | |posts|].
    + destruct (3 <=? _); [apply Hfin|apply IH];
        by apply (progress_inv_grow _ _ st).
    + destruct (5 <=? _); [apply Hfin|apply IH];
        by apply (progress_inv_grow _ _ st).
    + destruct (3 <=? _); [apply Hfin|apply IH];
        by apply (progress_inv_grow _ _ st).
    + destruct posts as [|p posts]; [by apply Hfin|].
      destruct (page_result_grows max_posts st (p :: posts)) as [Hp _].
      unfold page_result in Hp.
      set (ps := Api.process_api_response (p :: posts) max_posts _) in *.
      clearbody ps. cbv zeta.
      destruct (Api.zero_new v ps && _).
      { apply Hfin. by apply (progress_inv_grow _ _ st). }
      destruct (Api.next_before _ _) as [b|].
      * apply IH. destruct (_ || _).
        -- unfold progress_inv. cbn.
           unfold len. rewrite Nat2Z.id, firstn_all.
           split; [done|]. split; [lia|done].
        -- by apply (progress_inv_grow _ _ st).
      * destruct (3 <=? _); [apply Hfin|apply IH];
          by apply (progress_inv_grow _ _ st).
    + unfold progress_current. cbn. done.
Qed.

(** X17.  No collected url is lost: when the listing collector returns,
    and when it is interrupted from the keyboard, the progress file
    holds the whole list collected so far, with [is_collection_complete]
    telling whether the target is reached -- unless the run has written
    no file at all, and then its list is still the one it started
    with. *)
Theorem progress_file_current
    (v : Api.variant) (max_posts : Z) (script : list Api.response)
    (st : Api.state) :
  Api.state_file st = None →
  Api.last_save_count st = len (Api.urls st) →
  match Api.collect_loop v max_posts script st with
  | Waiting _ => True
  | Returned _ st' | Raised st' => progress_current max_posts (Api.urls st) st'
  end.
Proof.
  intros Hnone Hcount. apply collect_loop_progress.
  unfold progress_inv. by rewrite Hnone.
Qed.

Lemma progress_file_current_witness :
  match Api.collect_loop Api.stage1 3 sample_script
          (Api.initialize_collection_state (Some 1700000001) None None) with
  | Waiting _ => True
  | Returned _ st' | Raised st' =>
      progress_current 3
        (Api.urls (Api.initialize_collection_state (Some 1700000001) None None))
        st'
  end.
Proof.
  apply (progress_file_current Api.stage1 3 sample_script
           (Api.initialize_collection_state (Some 1700000001) None None));
    reflexivity.
Defined.

Section CommentsMore.

Import Comments.

Lemma text_of_kept_old author body :
  is_bot_or_mod_comment author body = false →
  is_bot_or_mod_comment author (Some (text_of body)) = false.
Proof.
  unfold is_bot_or_mod_comment, text_of, body_lower.
  destruct (is_str author "AutoModerator"); [done|].
  destruct body as [b|]; [|by vm_compute].
  destruct (PyStr.truthy b) eqn:Hb; [by rewrite Hb|by vm_compute].
Qed.

Lemma text_of_kept author body :
  is_bot_or_mod_comment_or_deleted author body = false →
  is_bot_or_mod_comment_or_deleted author (Some (text_of body)) = false.
Proof.
  unfold is_bot_or_mod_comment_or_deleted, text_of, body_lower.
  destruct (is_str author "AutoModerator" || is_str author "[deleted]");
    [done|].
  destruct body as [b|]; [|by vm_compute].
  destruct (PyStr.truthy b) eqn:Hb; [by rewrite Hb|by vm_compute].
Qed.

Lemma forest_nodes_Forall (P : comment → Prop) comments :
  Forall (λ c, Forall P (nodes c)) comments → Forall P (forest_nodes comments).
Proof.
  induction 1 as [|c cs Hc _ IH]; [constructor|].
  unfold forest_nodes. simpl. by apply Forall_app.
Qed.

Lemma parse_comment_kept raw c :
  parse_comment raw = Some c →
  Forall (λ t, is_bot_or_mod_comment (author t) (Some (text t)) = false)
    (nodes c).
Proof.
  revert c. induction raw as [k a b s cu|k a b s cu children IH]
    using raw_node_rect'; intros c; simpl.
  - destruct (is_str k "more"); [done|].
    destruct (is_bot_or_mod_comment _ _) eqn:Hf; [done|].
    intros [= <-]. rewrite nodes_unfold. simpl.
    constructor; [by apply text_of_kept_old|constructor].
  - destruct (is_str k "more"); [done|].
    destruct (is_bot_or_mod_comment _ _) eqn:Hf; [done|].
    intros [= <-]. rewrite nodes_unfold. simpl.
    constructor; [by apply text_of_kept_old|].
    apply forest_nodes_Forall.
    eapply Forall_omap; [exact IH|]. intros r c' Hr. apply Hr.
Qed.

(** X18.  Nested payload ([stage2_crawl_posts.py]): no comment that the
    filter rejects is in the forest that the comment loop of
    [fetch_post_json] builds, at any depth: no node is written by
    AutoModerator, and no node's text holds a bot or moderator phrase in
    any letter case. *)
Theorem nested_forest_filtered (comments_tree : list raw_node) :
  Forall (λ t, is_bot_or_mod_comment (author t) (Some (text t)) = false)
    (forest_nodes (parse_comments comments_tree)).
Proof.
  apply forest_nodes_Forall. unfold parse_comments.
  eapply (Forall_omap _ (λ _, True)); [by apply Forall_true|].
  intros r c _. apply parse_comment_kept.
Qed.

Lemma reify_nodes n d k t :
  reify n d k = Some t →
  ∀ u, u ∈ nodes t → ∃ n' k', reify n' d k' = Some u.
Proof.
  revert k t. induction n as [|n IH]; intros k t; [done|].
  intros Ht u Hu. rewrite nodes_unfold in Hu.
  apply elem_of_cons in Hu as [->|Hu]; [by exists (S n), k|].
  cbn [reify] in Ht.
  destruct (PyDict.get k d) as [s|]; [|done]. cbn [mbind option_bind] in Ht.
  destruct (mapM _ _) as [rs|] eqn:Hrs; [|done]. cbn [mbind option_bind] in Ht.
  injection Ht as <-. simpl in Hu.
  apply mapM_Some in Hrs.
  induction Hrs as [|kr r ks rs Hkr _ IHrs]; [by apply not_elem_of_nil in Hu|].
  unfold forest_nodes in Hu. simpl in Hu.
  apply elem_of_app in Hu as [Hu|Hu]; [by eapply IH|by apply IHrs].
Qed.

Lemma build_comment_tree_targets flat_comments forest :
  build_comment_tree flat_comments = Some forest →
  ∀ c, c ∈ PyDict.keys (index_loop flat_comments []) →
       is_Some (target (index_loop flat_comments []) c).
Proof.
  unfold build_comment_tree, build_store. intros H.
  destruct (link_loop _ _ _) as [r|] eqn:Hlink; [|done].
  by apply (link_loop_Some_inv _ _ _ _ Hlink).
Qed.

Lemma build_comment_tree_payload flat_comments forest :
  build_comment_tree flat_comments = Some forest →
  ∀ t, t ∈ forest_nodes forest →
       ∃ c, c ∈ flat_comments
            ∧ author t = f_author c ∧ text t = f_text c
            ∧ score t = f_score c ∧ created_time t = f_created_time c.
Proof.
  intros Hbuild t Ht.
  pose proof (build_comment_tree_targets _ _ Hbuild) as Htargets.
  destruct (build_store_spec flat_comments Htargets) as (d2 & Hstore & Hsk & _).
  unfold build_comment_tree in Hbuild. rewrite Hstore in Hbuild.
  cbn [mbind option_bind] in Hbuild. apply mapM_Some in Hbuild.
  assert (∃ n k, reify n d2 k = Some t) as (n & k & Hreify).
  { clear Hstore. induction Hbuild as [|kr r ks rs Hkr _ IH];
      [by apply not_elem_of_nil in Ht|].
    unfold forest_nodes in Ht. simpl in Ht.
    apply elem_of_app in Ht as [Ht|Ht]; [by eapply reify_nodes|by apply IH]. }
  apply reify_fields in Hreify as (s & Hs & Ha & Htx & Hsc & Hct).
  pose proof (image_get skel_slot d2 k) as Hget.
  rewrite Hsk, image_get, Hs in Hget.
  destruct (PyDict.get k (index_loop flat_comments [])) as [s0|] eqn:Hs0;
    [|done].
  apply index_loop_slot in Hs0 as (c & Hc & _ & ->).
  injection Hget as Hauthor Htext Hscore Htime _.
  exists c. rewrite Ha, Htx, Hsc, Hct. by repeat split.
Qed.

(** X19.  Flat payload ([stage2_crawl_posts_pullpush.py]): every node of
    the forest that [_fetch_all_comments_from_pullpush] returns, at any
    depth, carries the author, text, score and time of a comment of the
    answer that the filter keeps; so no node is written by AutoModerator
    or by a deleted account, and no node's text holds a bot, moderator or
    deletion phrase in any letter case. *)
Theorem pullpush_forest_filtered (data : option (list raw_comment))
    (t : comment) :
  t ∈ forest_nodes (fetch_all_comments data) →
  (∃ raw c payload,
     data = Some payload ∧ raw ∈ payload
     ∧ parse_pullpush_comment raw = Some c
     ∧ author t = f_author c ∧ text t = f_text c
     ∧ score t = f_score c ∧ created_time t = f_created_time c)
  ∧ is_bot_or_mod_comment_or_deleted (author t) (Some (text t)) = false.
Proof.
  intros Ht.
  assert (∃ payload forest,
            data = Some payload
            ∧ build_comment_tree (omap parse_pullpush_comment payload)
              = Some forest
            ∧ t ∈ forest_nodes forest) as (payload & forest & -> & Hb & Hin).
  { destruct data as [[|r rs]|]; [by apply not_elem_of_nil in Ht| |
                                  by apply not_elem_of_nil in Ht].
    cbn [fetch_all_comments] in Ht.
    destruct (build_comment_tree _) as [forest|] eqn:Hb;
      [|by apply not_elem_of_nil in Ht].
    by exists (r :: rs), forest. }
  destruct (build_comment_tree_payload _ _ Hb t Hin)
    as (c & Hc & Ha & Htx & Hsc & Hct).
  apply list_elem_of_omap in Hc as (raw & Hraw & Hparse).
  split; [by exists raw, c, payload|].
  rewrite Ha, Htx. unfold parse_pullpush_comment in Hparse.
  destruct (is_bot_or_mod_comment_or_deleted _ _) eqn:Hf; [done|].
  injection Hparse as <-. cbn. by apply text_of_kept.
Qed.

Lemma pullpush_forest_filtered_witness :
  (∃ raw c payload,
     Some [scenario_b] = Some payload ∧ raw ∈ payload
     ∧ parse_pullpush_comment raw = Some c
     ∧ Some "bob"%string = f_author c ∧ "thanks"%string = f_text c
     ∧ Some 7 = f_score c ∧ Some 1700000050 = f_created_time c)
  ∧ is_bot_or_mod_comment_or_deleted (Some "bob"%string)
      (Some "thanks"%string) = false.
Proof.
  apply (pullpush_forest_filtered (Some [scenario_b])
           (Comment (Some "bob"%string) "thanks" (Some 7) (Some 1700000050)
              [] 0)).
  vm_compute. left.
Defined.

(** X20.  One kept comment whose [parent_id] is null loses every comment
    of the post: when the record stored under a comment id has a
    [parent_id] that is not a string, [_build_comment_tree] raises and
    [_fetch_all_comments_from_pullpush] returns the empty list. *)
Theorem null_parent_loses_all_comments (payload : list raw_comment)
    (x : flat) (kx : string) :
  x ∈ omap parse_pullpush_comment payload →
  indexed x = Some kx →
  (∀ c, c ∈ omap parse_pullpush_comment payload → indexed c = Some kx →
        f_parent_id c = None) →
  build_comment_tree (omap parse_pullpush_comment payload) = None
  ∧ fetch_all_comments (Some payload) = [].
Proof.
  intros Hx Hkx Hnull.
  set (flat_comments := omap parse_pullpush_comment payload) in *.
  assert (build_comment_tree flat_comments = None) as Hnone.
  { destruct (build_comment_tree flat_comments) as [forest|] eqn:Hb; [|done].
    pose proof (build_comment_tree_targets _ _ Hb) as Htargets.
    assert (is_Some (PyDict.get kx (index_loop flat_comments []))) as [s Hs].
    { rewrite index_loop_get.
      destruct (last _) as [c|] eqn:Hl; [by eexists|].
      apply last_None in Hl.
      assert (x ∈ filter (λ c, indexed c = Some kx) flat_comments) as Hin
        by (by apply list_elem_of_filter).
      rewrite Hl in Hin. by apply not_elem_of_nil in Hin. }
    destruct (Htargets kx) as [tg Htg].
    { apply dict_get_is_Some. by eexists. }
    unfold target in Htg. rewrite Hs in Htg. cbn [mbind option_bind] in Htg.
    apply index_loop_slot in Hs as (c & Hc & Hi & ->).
    simpl in Htg. by rewrite (Hnull c Hc Hi) in Htg. }
  split; [done|]. unfold fetch_all_comments. fold flat_comments.
  rewrite Hnone. by destruct payload.
Qed.

Lemma null_parent_loses_all_comments_witness :
  build_comment_tree (omap parse_pullpush_comment [scenario_b; null_parent_raw])
  = None
  ∧ fetch_all_comments (Some [scenario_b; null_parent_raw]) = [].
Proof.
  apply (null_parent_loses_all_comments [scenario_b; null_parent_raw]
           (Flat (Some "carol"%string) "first" (Some 3) (Some 1700000060)
              (Some "c3"%string) None) "c3").
  - vm_compute. right. left.
  - reflexivity.
  - intros c Hc.
    repeat (apply elem_of_cons in Hc as [->|Hc]; [by vm_compute|]).
    by apply not_elem_of_nil in Hc.
Defined.

End CommentsMore.

Section BrowserMore.

Lemma scan_links_tagged src target links st :
  Forall (λ e, Browser.source e = src) (Browser.collected_urls st) →
  Forall (λ e, Browser.source e = src)
    (Browser.collected_urls (Browser.scan_links src target links st)).
Proof.
  revert st. induction links as [|[[href|]|] rest IH]; intros st Hall; simpl;
    auto.
  destruct (PyStr.truthy href && negb (PyStr.contains "/user/" href)); [|auto].
  set (h := if PyStr.startswith href "/" then _ else _).
  destruct (Identity.extract_post_id h) as [pid|]; [|auto].
  destruct (PyStr.truthy pid && _); [|auto].
  cbv zeta.
  assert (Forall (λ e, Browser.source e = src)
            (Browser.collected_urls st ++ [Browser.Entry h src])) as Hall'.
  { apply Forall_app. split; [done|]. by repeat constructor. }
  destruct (target <=? _); [done|]. by apply IH.
Qed.

Lemma collect_loop_quota src target rs collected seen n :
  0 ≤ target →
  Forall (λ e, Browser.source e = src) collected →
  let l := browser_frontier (Browser.collect_loop src target rs collected seen n) in
  Forall (λ e, Browser.source e = src) l ∧ len l ≤ target.
Proof.
  intros Htarget. revert collected seen n.
  assert (∀ c : list Browser.entry,
            Forall (λ e, Browser.source e = src) c →
            Forall (λ e, Browser.source e = src) (py_take target c)
            ∧ len (py_take target c) ≤ target) as Htake.
  { intros c Hc. split; [|by apply py_take_length].
    rewrite Forall_forall in Hc |- *. intros e He. apply Hc.
    eapply elem_of_sublist; [exact He|apply py_take_sublist]. }
  induction rs as [|r rs IH]; intros collected seen n Hall;
    cbn [Browser.collect_loop].
  - destruct (Z.ltb_spec (len collected) target); simpl; [|by apply Htake].
    destruct (_ <? 3); simpl; [|by apply Htake]. split; [done|lia].
  - destruct (Z.ltb_spec (len collected) target); simpl; [|by apply Htake].
    destruct (_ <? 3); simpl; [|by apply Htake].
    destruct r as [links scroll_ok| |].
    + pose proof (scan_links_tagged src target links
                    (Browser.ScanState collected seen 0) Hall) as Hs.
      destruct (target <=? _); [by apply Htake|]. by apply IH.
    + by apply IH.
    + simpl. split; [done|lia].
Qed.

Lemma tagged_app t l1 l2 : tagged t (l1 ++ l2) = tagged t l1 + tagged t l2.
Proof. unfold tagged, len. rewrite filter_app, length_app. lia. Qed.

Lemma tagged_own src l :
  Forall (λ e, Browser.source e = src) l → tagged src l = len l.
Proof.
  unfold tagged, len. induction 1 as [|e l He _ IH]; [done|].
  rewrite filter_cons_True by done. simpl. lia.
Qed.

Lemma tagged_other src t l :
  t ≠ src → Forall (λ e, Browser.source e = src) l → tagged t l = 0.
Proof.
  unfold tagged, len. intros Hne. induction 1 as [|e l He _ IH]; [done|].
  rewrite filter_cons_False by congruence. done.
Qed.

Lemma source_quota_nonneg counts t : 0 ≤ source_quota counts t.
Proof.
  unfold source_quota.
  destruct (PyDict.get t Browser.source_url_mapping); [|done].
  destruct (PyDict.get t counts); lia.
Qed.

Lemma source_quota_cons k c counts t :
  k ∉ PyDict.keys counts →
  source_quota ((k, c) :: counts) t
  = if String.eqb k t
    then match PyDict.get t Browser.source_url_mapping with
         | Some _ => Z.max 0 c
         | None => 0
         end
    else source_quota counts t.
Proof.
  intros Hk. unfold source_quota. cbn [PyDict.get].
  by destruct (String.eqb k t).
Qed.

Lemma collect_sources_quota browser counts acc seen t :
  NoDup (PyDict.keys counts) →
  tagged t (browser_frontier
              (Browser.collect_sources browser (Browser.sampling_configs counts)
                 acc seen))
  ≤ tagged t acc + source_quota counts t.
Proof.
  revert acc seen. induction counts as [|[k c] counts IH]; intros acc seen Hnd.
  { simpl. pose proof (source_quota_nonneg [] t). lia. }
  assert ((k ∉ PyDict.keys counts) ∧ NoDup (PyDict.keys counts)) as [Hk Hnd'].
  { by apply (NoDup_cons k (PyDict.keys counts)). }
  clear Hnd. rename Hnd' into Hnd.
  rewrite source_quota_cons by done.
  assert (source_quota counts t
          ≤ if String.eqb k t
            then match PyDict.get t Browser.source_url_mapping with
                 | Some _ => Z.max 0 c
                 | None => 0
                 end
            else source_quota counts t) as Hskip.
  { destruct (String.eqb_spec k t) as [->|]; [|lia].
    unfold source_quota. apply dict_get_None in Hk. rewrite Hk.
    destruct (PyDict.get t Browser.source_url_mapping); lia. }
  cbn [Browser.sampling_configs].
  destruct (PyDict.get k Browser.source_url_mapping) as [suffix|] eqn:Hknown;
    [|specialize (IH acc seen Hnd); lia].
  destruct (Z.ltb_spec 0 c); [|specialize (IH acc seen Hnd); lia].
  cbn [Browser.collect_sources].
  destruct (Z.leb_spec c 0); [lia|].
  assert (∀ l, Forall (λ e, Browser.source e = k) l → len l ≤ c →
            tagged t (acc ++ l) + source_quota counts t
            ≤ tagged t acc
              + (if String.eqb k t
                 then match PyDict.get t Browser.source_url_mapping with
                      | Some _ => Z.max 0 c
                      | None => 0
                      end
                 else source_quota counts t)) as Hone.
  { intros l Hl Hlen. rewrite tagged_app.
    destruct (String.eqb_spec k t) as [->|Hne].
    - rewrite Hknown, (tagged_own t l Hl).
      unfold source_quota. apply dict_get_None in Hk. rewrite Hk, Hknown. lia.
    - rewrite (tagged_other k t l) by done. lia. }
  assert (Forall (λ e, Browser.source e = k)
            (browser_frontier
               (Browser.collect_from_single_source (browser k) k c seen))
          ∧ len (browser_frontier
                   (Browser.collect_from_single_source (browser k) k c seen))
            ≤ c) as [Hl Hlen].
  { unfold Browser.collect_from_single_source.
    destruct (Browser.goto_ok (browser k)).
    - apply collect_loop_quota; [lia|constructor].
    - simpl. split; [constructor|unfold len; simpl; lia]. }
  destruct (Browser.collect_from_single_source _ _ _ _)
    as [l [c' s]|[l s]|[l s]]; simpl in Hl, Hlen.
  - specialize (IH (acc ++ l) s Hnd). specialize (Hone l Hl Hlen).
    etrans; [exact IH|exact Hone].
  - simpl. specialize (Hone l Hl Hlen).
    pose proof (source_quota_nonneg counts t).
    etrans; [|exact Hone]. lia.
  - simpl. specialize (Hone l Hl Hlen).
    pose proof (source_quota_nonneg counts t).
    etrans; [|exact Hone]. lia.
Qed.

Lemma partition_loop_keys max_posts ratios types remaining counts r :
  Quota.partition_loop max_posts ratios types remaining counts = Some r →
  NoDup (PyDict.keys counts) → NoDup (PyDict.keys r).
Proof.
  revert remaining counts.
  induction types as [|k [|k2 rest] IH]; intros remaining counts.
  - by intros [= <-].
  - intros [= <-] Hnd. by apply dict_set_keys_NoDup.
  - change (Quota.partition_loop max_posts ratios (k :: k2 :: rest) remaining counts)
      with (ratio ← PyDict.get k ratios;
            count ← Quota.quota max_posts ratio;
            Quota.partition_loop max_posts ratios (k2 :: rest) (remaining - count)
              (PyDict.set k count counts)).
    destruct (PyDict.get k ratios) as [ratio|]; [|done].
    cbn [mbind option_bind].
    destruct (Quota.quota max_posts ratio) as [count|]; [|done].
    cbn [mbind option_bind].
    intros Hr Hnd. eapply IH; [exact Hr|]. by apply dict_set_keys_NoDup.
Qed.

(** X21.  The browser collector respects the quota of every source: of
    the frontier that [collect_post_urls] returns for a listing, or
    holds when it is cut short, the entries tagged with a source type
    are no more than the count that the partition gives the type; a type
    with no page of its own (any but [new], [top_year], [best], [hot],
    [rising]) or with a count that is not positive contributes no
    entry. *)
Theorem browser_quota_respected (max_posts : Z)
    (sampling_ratios : list (string * float))
    (browser : string → Browser.session) (target_url : string)
    (counts : list (string * Z)) (t : string) :
  PyStr.contains "/comments/" target_url = false →
  Quota.sampling_counts max_posts sampling_ratios = Some counts →
  tagged t (browser_frontier
              (Browser.collect_post_urls max_posts sampling_ratios browser
                 target_url))
  ≤ source_quota counts t.
Proof.
  intros Hlisting Hcounts. unfold Browser.collect_post_urls.
  rewrite Hlisting, Hcounts.
  destruct (Browser.plan_ok max_posts counts);
    [|apply source_quota_nonneg].
  pose proof (collect_sources_quota browser counts [] ∅ t) as H.
  change (tagged t []) with 0 in H. rewrite Z.add_0_l in H. apply H.
  eapply partition_loop_keys; [exact Hcounts|constructor].
Qed.

Lemma browser_quota_respected_witness :
  tagged "top"
    (browser_frontier
       (Browser.collect_post_urls 100 scenario_ratios
          (λ _, Browser.Session true
                  [Browser.Shown
                     [Browser.Href (Some "/r/dogs/comments/a1/first/"%string)]
                     true])
          "https://www.reddit.com/r/dogs/"))
  ≤ source_quota [("best"%string, 10); ("new"%string, 65); ("top"%string, 25)]
      "top".
Proof.
  apply (browser_quota_respected 100 scenario_ratios
           (λ _, Browser.Session true
                   [Browser.Shown
                      [Browser.Href (Some "/r/dogs/comments/a1/first/"%string)]
                      true])
           "https://www.reddit.com/r/dogs/"
           [("best"%string, 10); ("new"%string, 65); ("top"%string, 25)] "top");
    by vm_compute.
Defined.

Lemma scan_links_count src target links st :
  Browser.new_found_count st
  ≤ Browser.new_found_count (Browser.scan_links src target links st)
  ∧ (Browser.new_found_count (Browser.scan_links src target links st)
     = Browser.new_found_count st →
     Browser.scan_links src target links st = st).
Proof.
  revert st. induction links as [|[[href|]|] rest IH]; intros st; simpl;
    [split; [lia|done]|..|auto|auto].
  destruct (PyStr.truthy href && negb (PyStr.contains "/user/" href)); [|auto].
  set (h := if PyStr.startswith href "/" then _ else _).
  destruct (Identity.extract_post_id h) as [pid|]; [|auto].
  destruct (PyStr.truthy pid && _); [|auto].
  cbv zeta.
  set (st' := Browser.ScanState _ _ _).
  destruct (target <=? _).
  - subst st'. simpl. split; [lia|intros; lia].
  - destruct (IH st') as [Hle _]. subst st'. simpl in *.
    split; [lia|intros; lia].
Qed.

(** X22.  The browser collector gives a source up after three rounds
    that bring nothing new: from any point of the loop of
    [_collect_from_single_source], a run of rounds in which the query
    fails or no link yields an unseen id, long enough to take the
    counter of such rounds to three, ends the source with the entries
    collected so far, cut at the target, and leaves the seen-set as it
    was; the rounds after the run are not played. *)
Theorem browser_stall_stops (source_type : string) (target_count : Z)
    (barren_rounds rest : list Browser.round)
    (collected : list Browser.entry) (seen : gset string)
    (no_new_data_count : Z) :
  forallb (barren source_type target_count collected seen) barren_rounds
  = true →
  3 ≤ no_new_data_count + len barren_rounds →
  Browser.collect_loop source_type target_count (barren_rounds ++ rest)
    collected seen no_new_data_count
  = Returned (py_take target_count collected) (collected, seen).
Proof.
  revert no_new_data_count.
  induction barren_rounds as [|r rs IH]; intros n Hbarren Hn.
  - unfold len in Hn. simpl in Hn.
    assert ((len collected <? target_count) && (n <? 3) = false) as Hc.
    { apply andb_false_iff. right. apply Z.ltb_ge. lia. }
    destruct rest; cbn [app Browser.collect_loop]; by rewrite Hc.
  - cbn [forallb] in Hbarren. apply andb_true_iff in Hbarren as [Hr Hrs].
    cbn [app Browser.collect_loop].
    destruct ((len collected <? target_count) && (n <? 3)) eqn:Hc; [|done].
    apply andb_true_iff in Hc as [Hlen%Z.ltb_lt Hlt%Z.ltb_lt].
    unfold len in Hn. cbn [length] in Hn.
    destruct r as [links scroll_ok| |]; [| |done].
    + cbn [barren] in Hr. apply Z.eqb_eq in Hr.
      destruct (scan_links_count source_type target_count links
                  (Browser.ScanState collected seen 0)) as [_ Hsame].
      rewrite (Hsame Hr). cbn [Browser.collected_urls Browser.seen_post_ids
                                 Browser.new_found_count].
      destruct (Z.leb_spec target_count (len collected)); [lia|].
      change (0 =? 0) with true. cbv iota.
      apply IH; [done|]. unfold len. destruct scroll_ok; lia.
    + apply IH; [done|]. unfold len. lia.
Qed.

Lemma browser_stall_stops_witness :
  Browser.collect_loop "new" 5
    ([Browser.QueryError; Browser.Shown [] true;
      Browser.Shown [Browser.LinkError] true]
     ++ [Browser.Shown [Browser.Href (Some "/r/dogs/comments/a1/first/"%string)]
           true])
    [] ∅ 0
  = Returned (py_take 5 []) ([], ∅).
Proof.
  apply (browser_stall_stops "new" 5
           [Browser.QueryError; Browser.Shown [] true;
            Browser.Shown [Browser.LinkError] true]);
    [reflexivity|by vm_compute].
Defined.

End BrowserMore.

Section QuotaMore.

Lemma float_zero_far_from_one (y : float) :
  (y =? 0)%float = true → (0.01 <? abs (y - 1))%float = true.
Proof.
  rewrite FloatAxioms.eqb_spec. intros H.
  assert (∃ s, Prim2SF y = S754_zero s) as [s Hs].
  { destruct (Prim2SF y) as [s|s| |s m e]; [by exists s|..];
      try destruct s; by vm_compute in H. }
  rewrite <-(SF2Prim_Prim2SF y), Hs. by destruct s; vm_compute.
Qed.

Lemma normalize_None total_ratio d :
  Quota.normalize total_ratio d = None → (total_ratio =? 0)%float = true.
Proof.
  induction d as [|[k r] d IH]; simpl; [done|].
  unfold Quota.py_div at 1.
  destruct (total_ratio =? 0)%float; [done|]. cbn [mbind option_bind].
  destruct (Quota.normalize total_ratio d); [done|]. auto.
Qed.

Lemma normalize_Some total_ratio d d' :
  Quota.normalize total_ratio d = Some d' →
  PyDict.keys d' = PyDict.keys d
  ∧ PyDict.values d' = map (λ r, (r / total_ratio)%float) (PyDict.values d).
Proof.
  revert d'. induction d as [|[k r] d IH]; intros d'; simpl.
  - by intros [= <-].
  - unfold Quota.py_div at 1.
    destruct (total_ratio =? 0)%float; [done|]. cbn [mbind option_bind].
    destruct (Quota.normalize total_ratio d) as [t|]; [|done].
    cbn [mbind option_bind]. intros [= <-].
    destruct (IH t eq_refl) as [Hk Hv]. simpl.
    unfold PyDict.keys, PyDict.values in *. simpl. by rewrite Hk, Hv.
Qed.

(** X23.  The constructor of [RedditCrawler] and its sampling ratios:
    it raises [ZeroDivisionError] exactly when the ratios sum to zero;
    otherwise it keeps the keys and their order, and leaves the ratios
    as given when their sum is within 0.01 of 1 and divides each by the
    sum when it is not. *)
Theorem init_sampling_ratios_spec (arg : option (list (string * float))) :
  (Quota.init_sampling_ratios arg = None
   ↔ (Quota.ratio_sum (stored_ratios arg) =? 0)%float = true)
  ∧ (∀ d, Quota.init_sampling_ratios arg = Some d →
          PyDict.keys d = PyDict.keys (stored_ratios arg)
          ∧ PyDict.values d
            = if Quota.needs_normalizing (stored_ratios arg)
              then map (λ r, (r / Quota.ratio_sum (stored_ratios arg))%float)
                     (PyDict.values (stored_ratios arg))
              else PyDict.values (stored_ratios arg)).
Proof.
  assert (Quota.init_sampling_ratios arg
          = if Quota.needs_normalizing (stored_ratios arg)
            then Quota.normalize (Quota.ratio_sum (stored_ratios arg))
                   (stored_ratios arg)
            else Some (stored_ratios arg)) as -> by (by destruct arg as [[|]|]).
  assert (stored_ratios arg ≠ []) as Hne by (by destruct arg as [[|]|]).
  set (d0 := stored_ratios arg) in *. clearbody d0.
  split; [split|].
  - destruct (Quota.needs_normalizing d0); [apply normalize_None|done].
  - intros Hzero.
    assert (Quota.needs_normalizing d0 = true) as ->
      by (by apply float_zero_far_from_one).
    destruct d0 as [|[k r] d0]; [done|]. simpl.
    unfold Quota.py_div. by rewrite Hzero.
  - intros d. destruct (Quota.needs_normalizing d0).
    + apply normalize_Some.
    + by intros [= <-].
Qed.

End QuotaMore.

Section ResumeFacts.

Lemma ids_to_save_stage1 urls ids :
  api_inv urls ids →
  api_inv urls (list_to_set (Api.ids_to_save Api.stage1 urls ids)).
Proof.
  intros [Hnd Hin]. split; [done|]. intros e He.
  destruct (Hin e He) as (pid & Hpid & _). exists pid. split; [done|].
  apply elem_of_list_to_set. cbn. apply list_elem_of_omap. by exists e.
Qed.

Lemma ids_to_save_v3 urls ids :
  api_inv urls ids →
  api_inv urls (list_to_set (Api.ids_to_save Api.v3 urls ids)).
Proof.
  intros H. cbn. by rewrite list_to_set_elements_L.
Qed.

Lemma collect_loop_resume v max_posts urls0 script st :
  (∀ urls ids, api_inv urls ids →
               api_inv urls (list_to_set (Api.ids_to_save v urls ids))) →
  forallb Api.consistent_response script = true →
  resume_inv urls0 st →
  resume_inv urls0 (api_state (Api.collect_loop v max_posts script st)).
Proof.
  intros Hsave.
  assert (∀ s, resume_inv urls0 s →
               resume_inv urls0 (Api.save_url_collection_progress v s max_posts))
    as Hwrite.
  { intros s (Hi & Hp & _). split; [done|]. split; [done|]. cbn.
    split; [by apply Hsave|done]. }
  assert (∀ s, resume_inv urls0 s →
               resume_inv urls0 (api_state (Api.finish v max_posts s))) as Hfin.
  { intros s Hs. unfold Api.finish. destruct (_ || _); cbn; [by apply Hwrite|done]. }
  assert (∀ (s s' : Api.state),
            resume_inv urls0 s →
            api_inv (Api.urls s') (Api.post_ids s') →
            Api.urls s `prefix_of` Api.urls s' →
            Api.state_file s' = Api.state_file s →
            resume_inv urls0 s') as Hgrow.
  { intros s s' (Hi & Hp & Hf) Hi' Hp' Hf'. split; [done|].
    split; [by etrans|]. by rewrite Hf'. }
  revert st. induction script as [|r script IH]; intros st Hc Hinv.
  - cbn [Api.collect_loop]. destruct (_ <? _); [done|by apply Hfin].
  - cbn [forallb] in Hc. apply andb_prop in Hc as [Hr Hc].
    cbn [Api.collect_loop]. destruct (_ <? _); [|by apply Hfin].
    pose proof Hinv as (Hi & Hp & Hf).
    destruct r as [| | |posts|].
    + destruct (3 <=? _); [apply Hfin|apply IH; [done|]];
        by apply (Hgrow st).
    + destruct (5 <=? _); [apply Hfin|apply IH; [done|]];
        by apply (Hgrow st).
    + destruct (3 <=? _); [apply Hfin|apply IH; [done|]];
        by apply (Hgrow st).
    + destruct posts as [|p posts]; [by apply Hfin|].
      destruct (page_result_grows max_posts st (p :: posts)) as [Hpre _].
      pose proof (process_api_response_inv (p :: posts) max_posts
                    (Api.PageState (Api.urls st) (Api.post_ids st) 0 0 0)
                    Hr Hi) as Hps.
      unfold page_result in Hpre.
      set (ps := Api.process_api_response (p :: posts) max_posts _) in *.
      clearbody ps. cbv zeta.
      destruct (Api.zero_new v ps && _).
      { apply Hfin. by apply (Hgrow st). }
      destruct (Api.next_before _ _) as [b|].
      * apply IH; [done|]. destruct (_ || _).
        -- split; [done|]. split; [by etrans|]. cbn.
           split; [by apply Hsave|by etrans].
        -- by apply (Hgrow st).
      * destruct (3 <=? _); [apply Hfin|apply IH; [done|]];
          by apply (Hgrow st).
    + cbn [api_state]. by apply Hwrite.
Qed.

Lemma file_after_ok file st :
  file_ok file →
  resume_inv (file_urls file) st →
  file_ok (Resume.file_after file st)
  ∧ file_urls file `prefix_of` file_urls (Resume.file_after file st).
Proof.
  intros Hfile (_ & _ & Hf). unfold Resume.file_after.
  destruct (Api.state_file st) as [p|]; [done|]. by split.
Qed.

Lemma frontier_NoDup o :
  api_inv (Api.urls (api_state o)) (Api.post_ids (api_state o)) →
  api_frontier o `sublist_of` Api.urls (api_state o) →
  NoDup (Api.entry_id <$> api_frontier o).
Proof.
  intros [Hnd _] Hsub. eapply sublist_NoDup; [exact Hnd|].
  by apply fmap_sublist.
Qed.

Lemma collect_loop_sublist v max_posts script st :
  api_frontier (Api.collect_loop v max_posts script st)
  `sublist_of` Api.urls (api_state (Api.collect_loop v max_posts script st)).
Proof.
  destruct (collect_loop_grows v max_posts script st) as (_ & _ & ->).
  destruct (Api.collect_loop v max_posts script st); cbn [api_state];
    [apply py_take_sublist|done|done].
Qed.

Lemma py_take_all {A} n (l : list A) : len l ≤ n → py_take n l = l.
Proof.
  intros Hn. unfold py_take, len in *.
  destruct (Z.leb_spec 0 n); [|lia]. apply take_ge. lia.
Qed.

Lemma py_take_nil {A} n : py_take n (@nil A) = [].
Proof. unfold py_take. destruct (0 <=? n); apply take_nil. Qed.

(** A collection that returns a list as long as the target has written
    that list to the state file, marked complete. *)
Lemma collect_loop_complete v max_posts script st l st' :
  Api.state_file st = None →
  Api.last_save_count st = len (Api.urls st) →
  len (Api.urls st) < max_posts →
  Api.collect_loop v max_posts script st = Returned l st' →
  max_posts ≤ len l →
  ∃ p, Api.state_file st' = Some p
       ∧ Api.saved_urls p = l
       ∧ Api.saved_complete p = true.
Proof.
  intros Hnone Hcount Hlt Hrun Hfull.
  assert (progress_inv max_posts (Api.urls st) st) as Hinv.
  { unfold progress_inv. by rewrite Hnone. }
  pose proof (collect_loop_progress v max_posts (Api.urls st) script st Hinv)
    as Hcur.
  pose proof (collect_loop_bound v max_posts script st ltac:(lia)) as Hb.
  destruct (collect_loop_grows v max_posts script st) as (_ & _ & Hfr).
  rewrite Hrun in Hcur, Hb, Hfr. cbn [api_state api_frontier] in *.
  subst l. rewrite py_take_all in * by done.
  unfold progress_current in Hcur.
  destruct (Api.state_file st') as [p|].
  - destruct Hcur as [Hu Hc]. exists p. split; [done|]. split; [done|].
    rewrite Hc. by apply Z.leb_le.
  - rewrite Hcur in Hfull. lia.
Qed.

Lemma run_outcome_ok v file max_posts script st0 :
  (∀ urls ids, api_inv urls ids →
               api_inv urls (list_to_set (Api.ids_to_save v urls ids))) →
  file_ok file →
  forallb Api.consistent_response script = true →
  resume_inv (file_urls file) st0 →
  file_ok (run_file
             match Api.collect_loop v max_posts script st0 with
             | Returned url_list st => Returned url_list (Resume.file_after file st)
             | Waiting st => Waiting (Resume.file_after file st)
             | Raised st => Returned [] (Resume.file_after file st)
             end)
  ∧ file_urls file
    `prefix_of` file_urls
                  (run_file
                     match Api.collect_loop v max_posts script st0 with
                     | Returned url_list st =>
                         Returned url_list (Resume.file_after file st)
                     | Waiting st => Waiting (Resume.file_after file st)
                     | Raised st => Returned [] (Resume.file_after file st)
                     end)
  ∧ ∀ l f,
      match Api.collect_loop v max_posts script st0 with
      | Returned url_list st => Returned url_list (Resume.file_after file st)
      | Waiting st => Waiting (Resume.file_after file st)
      | Raised st => Returned [] (Resume.file_after file st)
      end = Returned l f →
      NoDup (Api.entry_id <$> l).
Proof.
  intros Hsave Hfile Hc Hinv.
  pose proof (collect_loop_resume v max_posts _ script st0 Hsave Hc Hinv) as Hr.
  pose proof (collect_loop_sublist v max_posts script st0) as Hsub.
  destruct (Api.collect_loop v max_posts script st0) as [r st|st|st];
    cbn [api_state api_frontier run_file] in *;
    destruct (file_after_ok file st Hfile Hr) as [Hok Hpre];
    (split; [done|]); (split; [done|]); intros l f [= <- <-].
  - destruct Hr as ([Hnd _] & _). eapply sublist_NoDup; [exact Hnd|].
    by apply fmap_sublist.
  - constructor.
Qed.

(** X24.  Resuming [stage1_collect_urls.py]: from a sound state file (or
    none) and an upstream whose items carry their own id in their
    permalink, [run] leaves a sound state file whose list extends the
    list it found, and the list it returns has no two urls that derive
    the same id.  So a post that one run has collected is never
    collected again by the runs that resume it. *)
Theorem run_resumable (subreddit_url : string) (max_posts : Z)
    (before_timestamp : option Z) (file : option Api.progress)
    (script : list Api.response) :
  file_ok file →
  forallb Api.consistent_response script = true →
  file_ok (run_file (Resume.run subreddit_url max_posts before_timestamp
                       file script))
  ∧ file_urls file
    `prefix_of` file_urls (run_file (Resume.run subreddit_url max_posts
                                       before_timestamp file script))
  ∧ ∀ l f,
      Resume.run subreddit_url max_posts before_timestamp file script
      = Returned l f →
      NoDup (Api.entry_id <$> l).
Proof.
  intros Hfile Hc. unfold Resume.run.
  assert (∀ st0, Api.state_file st0 = None →
            let o := Returned
                       [Api.Entry subreddit_url None]
                       (Resume.file_after file st0) in
            file_ok (run_file o)
            ∧ file_urls file `prefix_of` file_urls (run_file o)
            ∧ ∀ l f, o = Returned l f → NoDup (Api.entry_id <$> l)) as Hsingle.
  { intros st0 Hn. unfold Resume.file_after. rewrite Hn. cbn.
    split; [done|]. split; [done|]. intros l f [= <- <-].
    apply NoDup_singleton. }
  assert (∀ st0, Api.state_file st0 = None →
            let o := Returned (@nil Api.entry) (Resume.file_after file st0) in
            file_ok (run_file o)
            ∧ file_urls file `prefix_of` file_urls (run_file o)
            ∧ ∀ l f, o = Returned l f → NoDup (Api.entry_id <$> l)) as Hnone.
  { intros st0 Hn. unfold Resume.file_after. rewrite Hn. cbn.
    split; [done|]. split; [done|]. intros l f [= <- <-]. constructor. }
  destruct file as [p|]; cbn [Resume.load_progress].
  - destruct (max_posts <=? len (Api.saved_urls p)).
    { cbn. split; [done|]. split; [done|]. intros l f [= <- <-].
      by destruct Hfile. }
    unfold Api.collect_post_urls.
    destruct (PyStr.contains "/comments/" subreddit_url); [by apply Hsingle|].
    destruct (String.eqb _ _); [by apply Hnone|].
    apply run_outcome_ok; [apply ids_to_save_stage1|done|done|].
    split; [exact Hfile|]. by split.
  - unfold Api.collect_post_urls.
    destruct (PyStr.contains "/comments/" subreddit_url); [by apply Hsingle|].
    destruct (String.eqb _ _); [by apply Hnone|].
    apply run_outcome_ok; [apply ids_to_save_stage1|done|done|].
    split; [|by split]. split; [constructor|]. by intros e ?%not_elem_of_nil.
Qed.

Lemma run_resumable_witness :
  file_ok (run_file (Resume.run "https://www.reddit.com/r/dogs/" 3
                       (Some 1700000001) None sample_script))
  ∧ file_urls None
    `prefix_of` file_urls (run_file (Resume.run "https://www.reddit.com/r/dogs/"
                                       3 (Some 1700000001) None sample_script))
  ∧ ∀ l f,
      Resume.run "https://www.reddit.com/r/dogs/" 3 (Some 1700000001) None
        sample_script
      = Returned l f →
      NoDup (Api.entry_id <$> l).
Proof.
  apply (run_resumable "https://www.reddit.com/r/dogs/" 3 (Some 1700000001)
           None sample_script); [exact I|reflexivity].
Defined.

Lemma run_loop_complete v file max_posts script st0 l file' :
  Api.state_file st0 = None →
  Api.last_save_count st0 = len (Api.urls st0) →
  Api.urls st0 = file_urls file →
  len (file_urls file) < max_posts ∨ file = None →
  match Api.collect_loop v max_posts script st0 with
  | Returned url_list st => Returned url_list (Resume.file_after file st)
  | Waiting st => Waiting (Resume.file_after file st)
  | Raised st => Returned [] (Resume.file_after file st)
  end = Returned l file' →
  max_posts ≤ len l →
  ∃ p, file' = Some p ∧ Api.saved_urls p = l ∧ Api.saved_complete p = true.
Proof.
  intros Hn Hcount Hu Hcase Hr Hfull.
  destruct (Z.lt_ge_cases (len (Api.urls st0)) max_posts) as [Hlt|Hge].
  - destruct (Api.collect_loop v max_posts script st0)
      as [r st|st|st] eqn:E; [|done|].
    + injection Hr as -> <-.
      destruct (collect_loop_complete _ _ _ _ _ _ Hn Hcount Hlt E Hfull)
        as (p & Hp & Hs & Hc).
      exists p. unfold Resume.file_after. by rewrite Hp.
    + injection Hr as <- _. unfold len in *. simpl in Hfull. lia.
  - destruct Hcase as [Hlt| ->]; [rewrite Hu in Hge; lia|].
    cbn in Hu.
    destruct script as [|r0 script0]; cbn [Api.collect_loop] in Hr;
      destruct (Z.ltb_spec (len (Api.urls st0)) max_posts); try lia;
      unfold Api.finish in Hr;
      destruct (Z.leb_spec max_posts (len (Api.urls st0))); try lia;
      rewrite orb_true_r in Hr; injection Hr as <- <-;
      eexists; (split; [reflexivity|]); cbn;
      rewrite Hu, py_take_nil; (split; [done|]);
      apply Z.leb_le; by rewrite Hu in Hge.
Qed.

(** X25.  Once the target is reached, [run] of [stage1_collect_urls.py]
    is idempotent: when a run returns a list at least as long as the
    target, every later run on the state file it leaves returns the same
    list, whatever the upstream would answer, and leaves the file as it
    is. *)
Theorem run_idempotent_once_complete (subreddit_url : string) (max_posts : Z)
    (before_timestamp : option Z) (file : option Api.progress)
    (script : list Api.response) (l : list Api.entry)
    (file' : option Api.progress) :
  Resume.run subreddit_url max_posts before_timestamp file script
  = Returned l file' →
  max_posts ≤ len l →
  ∀ script',
    Resume.run subreddit_url max_posts before_timestamp file' script'
    = Returned l file'.
Proof.
  intros Hrun Hfull script'.
  assert (∀ p, Api.saved_urls p = l →
            Resume.run subreddit_url max_posts before_timestamp (Some p) script'
            = Returned l (Some p)) as Hdone.
  { intros p Hp. unfold Resume.run, Resume.load_progress. rewrite Hp.
    by destruct (Z.leb_spec max_posts (len l)); [|lia]. }
  unfold Resume.run in Hrun. destruct file as [p|]; cbn [Resume.load_progress] in Hrun.
  - destruct (Z.leb_spec max_posts (len (Api.saved_urls p))).
    { injection Hrun as <- <-. by apply Hdone. }
    unfold Api.collect_post_urls in Hrun.
    destruct (PyStr.contains "/comments/" subreddit_url) eqn:Hsingle.
    { injection Hrun as <- <-. cbn.
      unfold Resume.run, Resume.load_progress, Api.collect_post_urls.
      destruct (Z.leb_spec max_posts (len (Api.saved_urls p))); [lia|].
      by rewrite Hsingle. }
    destruct (String.eqb _ _) eqn:Hunknown.
    { injection Hrun as <- <-. cbn.
      unfold Resume.run, Resume.load_progress, Api.collect_post_urls.
      destruct (Z.leb_spec max_posts (len (Api.saved_urls p))); [lia|].
      by rewrite Hsingle, Hunknown. }
    apply run_loop_complete in Hrun as (p' & -> & Hp' & _);
      [by apply Hdone|done|done|done|by left|done].
  - unfold Api.collect_post_urls in Hrun.
    destruct (PyStr.contains "/comments/" subreddit_url) eqn:Hsingle.
    { injection Hrun as <- <-. cbn.
      unfold Resume.run, Resume.load_progress, Api.collect_post_urls.
      by rewrite Hsingle. }
    destruct (String.eqb _ _) eqn:Hunknown.
    { injection Hrun as <- <-. cbn.
      unfold Resume.run, Resume.load_progress, Api.collect_post_urls.
      by rewrite Hsingle, Hunknown. }
    apply run_loop_complete in Hrun as (p' & -> & Hp' & _);
      [by apply Hdone|done|done|done|by right|done].
Qed.

Lemma run_idempotent_once_complete_witness :
  Resume.run "https://www.reddit.com/r/dogs/" 1 (Some 1700000001) None
    sample_script
  = Returned [wit_entry] (Some wit_file)
  ∧ ∀ script',
      Resume.run "https://www.reddit.com/r/dogs/" 1 (Some 1700000001)
        (Some wit_file) script'
      = Returned [wit_entry] (Some wit_file).
Proof.
  split; [by vm_compute|].
  apply (run_idempotent_once_complete "https://www.reddit.com/r/dogs/" 1
           (Some 1700000001) None sample_script [wit_entry] (Some wit_file));
    by vm_compute.
Defined.

Lemma initialize_v3_inv urls before ids :
  api_inv urls ids →
  api_inv (Api.urls (Resume.initialize_collection_state_v3 urls before ids))
    (Api.post_ids (Resume.initialize_collection_state_v3 urls before ids)).
Proof.
  intros Hinv. unfold Resume.initialize_collection_state_v3. cbn.
  destruct (_ && _); [|done]. by apply (ids_to_save_stage1 urls ids).
Qed.

(** X26.  Resuming [v3/stage1_collect_urls.py]: from a sound state file
    (or none) and an upstream whose items carry their own id in their
    permalink, [run] leaves a sound state file whose list extends the
    list it found, and the list it returns has no two urls that derive
    the same id. *)
Theorem run_v3_resumable (subreddit_url : string) (max_posts : Z)
    (self_before : option Z) (file : option Api.progress)
    (script : list Api.response) :
  file_ok file →
  forallb Api.consistent_response script = true →
  file_ok (run_file (Resume.run_v3 subreddit_url max_posts self_before
                       file script))
  ∧ file_urls file
    `prefix_of` file_urls (run_file (Resume.run_v3 subreddit_url max_posts
                                       self_before file script))
  ∧ ∀ l f,
      Resume.run_v3 subreddit_url max_posts self_before file script
      = Returned l f →
      NoDup (Api.entry_id <$> l).
Proof.
  intros Hfile Hc. unfold Resume.run_v3.
  assert (∀ st0, Api.state_file st0 = None →
            let o := Returned
                       [Api.Entry subreddit_url None]
                       (Resume.file_after file st0) in
            file_ok (run_file o)
            ∧ file_urls file `prefix_of` file_urls (run_file o)
            ∧ ∀ l f, o = Returned l f → NoDup (Api.entry_id <$> l)) as Hsingle.
  { intros st0 Hn. unfold Resume.file_after. rewrite Hn. cbn.
    split; [done|]. split; [done|]. intros l f [= <- <-].
    apply NoDup_singleton. }
  assert (∀ st0, Api.state_file st0 = None →
            let o := Returned (@nil Api.entry) (Resume.file_after file st0) in
            file_ok (run_file o)
            ∧ file_urls file `prefix_of` file_urls (run_file o)
            ∧ ∀ l f, o = Returned l f → NoDup (Api.entry_id <$> l)) as Hnone.
  { intros st0 Hn. unfold Resume.file_after. rewrite Hn. cbn.
    split; [done|]. split; [done|]. intros l f [= <- <-]. constructor. }
  destruct file as [p|]; cbn [Resume.load_progress_v3].
  - destruct (Api.saved_complete p).
    { cbn. split; [done|]. split; [done|]. intros l f [= <- <-].
      by destruct Hfile. }
    unfold Resume.collect_post_urls_v3. cbn [default].
    destruct (PyStr.contains "/comments/" subreddit_url); [by apply Hsingle|].
    destruct (String.eqb _ _); [by apply Hnone|].
    apply run_outcome_ok; [apply ids_to_save_v3|done|done|].
    split; [by apply initialize_v3_inv|]. by split.
  - unfold Resume.collect_post_urls_v3. cbn [default].
    destruct (PyStr.contains "/comments/" subreddit_url); [by apply Hsingle|].
    destruct (String.eqb _ _); [by apply Hnone|].
    apply run_outcome_ok; [apply ids_to_save_v3|done|done|].
    split; [|by split]. apply initialize_v3_inv.
    split; [constructor|]. by intros e ?%not_elem_of_nil.
Qed.

Lemma run_v3_resumable_witness :
  file_ok (run_file (Resume.run_v3 "https://www.reddit.com/r/dogs/" 3
                       (Some 1700000001) None sample_script))
  ∧ file_urls None
    `prefix_of` file_urls (run_file (Resume.run_v3
                                       "https://www.reddit.com/r/dogs/"
                                       3 (Some 1700000001) None sample_script))
  ∧ ∀ l f,
      Resume.run_v3 "https://www.reddit.com/r/dogs/" 3 (Some 1700000001) None
        sample_script
      = Returned l f →
      NoDup (Api.entry_id <$> l).
Proof.
  apply (run_v3_resumable "https://www.reddit.com/r/dogs/" 3 (Some 1700000001)
           None sample_script); [exact I|reflexivity].
Defined.

(** X27.  Once the target is reached, [run] of
    [v3/stage1_collect_urls.py] is idempotent: on a state file whose
    completion flag agrees with the target, when a run returns a list at
    least as long as the target, every later run on the state file it
    leaves returns the same list, whatever the upstream would answer,
    and leaves the file as it is. *)
Theorem run_v3_idempotent_once_complete (subreddit_url : string)
    (max_posts : Z) (self_before : option Z) (file : option Api.progress)
    (script : list Api.response) (l : list Api.entry)
    (file' : option Api.progress) :
  file_coherent max_posts file →
  Resume.run_v3 subreddit_url max_posts self_before file script
  = Returned l file' →
  max_posts ≤ len l →
  ∀ script',
    Resume.run_v3 subreddit_url max_posts self_before file' script'
    = Returned l file'.
Proof.
  intros Hcoh Hrun Hfull script'.
  assert (∀ p, Api.saved_urls p = l → Api.saved_complete p = true →
            Resume.run_v3 subreddit_url max_posts self_before (Some p) script'
            = Returned l (Some p)) as Hdone.
  { intros p Hp Hc. unfold Resume.run_v3, Resume.load_progress_v3.
    by rewrite Hp, Hc. }
  unfold Resume.run_v3 in Hrun.
  destruct file as [p|]; cbn [Resume.load_progress_v3] in Hrun.
  - cbn in Hcoh. destruct (Api.saved_complete p) eqn:Hflag.
    { injection Hrun as <- <-. by apply Hdone. }
    symmetry in Hcoh. apply Z.leb_gt in Hcoh.
    unfold Resume.collect_post_urls_v3 in Hrun. cbn [default] in Hrun.
    destruct (PyStr.contains "/comments/" subreddit_url) eqn:Hsingle.
    { injection Hrun as <- <-. cbn.
      unfold Resume.run_v3, Resume.load_progress_v3,
        Resume.collect_post_urls_v3.
      by rewrite Hflag, Hsingle. }
    destruct (String.eqb _ _) eqn:Hunknown.
    { injection Hrun as <- <-. cbn.
      unfold Resume.run_v3, Resume.load_progress_v3,
        Resume.collect_post_urls_v3.
      by rewrite Hflag, Hsingle, Hunknown. }
    apply run_loop_complete in Hrun as (p' & -> & Hp' & Hc');
      [by apply Hdone|done|done|done|by left|done].
  - unfold Resume.collect_post_urls_v3 in Hrun. cbn [default] in Hrun.
    destruct (PyStr.contains "/comments/" subreddit_url) eqn:Hsingle.
    { injection Hrun as <- <-. cbn.
      unfold Resume.run_v3, Resume.load_progress_v3,
        Resume.collect_post_urls_v3.
      by rewrite Hsingle. }
    destruct (String.eqb _ _) eqn:Hunknown.
    { injection Hrun as <- <-. cbn.
      unfold Resume.run_v3, Resume.load_progress_v3,
        Resume.collect_post_urls_v3.
      by rewrite Hsingle, Hunknown. }
    apply run_loop_complete in Hrun as (p' & -> & Hp' & Hc');
      [by apply Hdone|done|done|done|by right|done].
Qed.

Lemma run_v3_idempotent_once_complete_witness :
  Resume.run_v3 "https://www.reddit.com/r/dogs/" 1 (Some 1700000001) None
    sample_script
  = Returned [wit_entry] (Some wit_file)
  ∧ ∀ script',
      Resume.run_v3 "https://www.reddit.com/r/dogs/" 1 (Some 1700000001)
        (Some wit_file) script'
      = Returned [wit_entry] (Some wit_file).
Proof.
  split; [by vm_compute|].
  apply (run_v3_idempotent_once_complete "https://www.reddit.com/r/dogs/" 1
           (Some 1700000001) None sample_script [wit_entry] (Some wit_file));
    by vm_compute.
Defined.

End ResumeFacts.
